(** * Account pool, token minting and session registry of the gateway

    A shallow embedding of the account / session / credential layer
    ([core/account_pool.py], [core/jwt_manager.py], [core/session_manager.py],
    [core/config.py], [services/chat_handler.py]) together with the
    properties stated about it.

    Conventions of the embedding.
    - A Python [str] is a [string]; [bytes] is a [list byte].
    - A Python [int] is a [Z].  A timestamp ([time.time()], a float number of
      seconds) is a [Z] as well: only order and addition of timestamps are
      used by the code below.
    - [time.time()] is an oracle: [clock k] is the value returned by the
      [k]-th call, and every function that reads the clock threads the
      number of reads made so far.
    - A function that can raise returns an [outcome]. *)

From Stdlib Require Import ZArith List Lia Ascii String DecimalString.
From Stdlib.Strings Require Import Byte.
From Stdlib Require DecimalZ DecimalPos.
From stdpp Require Import base option list gmap strings.

Open Scope string_scope.
Open Scope Z_scope.

(** ** Python exceptions and results *)

Inductive exn : Type :=
| IndexError
| ValueError
| AttributeError
| KeyError
| JSONDecodeError
| TypeError
| Exception (msg : string).

Inductive outcome (A : Type) : Type :=
| Return (a : A)
| Raise (e : exn).
Arguments Return {A} a.
Arguments Raise {A} e.

(** [str(i)] for an integer. *)
Definition str_of_int (z : Z) : string := NilZero.string_of_int (Z.to_int z).

(** [l[i]] on a list, with Python's negative indices. *)
Definition list_getitem {A : Type} (l : list A) (i : Z) : outcome A :=
  let n := Z.of_nat (length l) in
  let j := if i <? 0 then i + n else i in
  if (j <? 0) || (n <=? j) then Raise IndexError
  else match l !! Z.to_nat j with
       | Some x => Return x
       | None => Raise IndexError
       end.

(** [min(l, key=key)]: the first element with the least key; [ValueError]
    on the empty list. *)
Fixpoint min_from {A : Type} (key : A -> Z) (best : A) (l : list A) : A :=
  match l with
  | [] => best
  | x :: l' => if key x <? key best then min_from key x l' else min_from key best l'
  end.

Definition py_min {A : Type} (key : A -> Z) (l : list A) : outcome A :=
  match l with
  | [] => Raise ValueError
  | x :: l' => Return (min_from key x l')
  end.

(** ** core/config.py *)

Module Config.

Record t : Type := mk {
  JWT_TTL_SECONDS : Z;
  ACCOUNT_COOLDOWN_SECONDS : Z;
  AUTH_ERROR_COOLDOWN_SECONDS : Z;
  RATE_LIMIT_COOLDOWN_SECONDS : Z
}.

(** The values of the class attributes when the environment sets none of
    the variables ([int(os.getenv(NAME, default))]). *)
Definition default : t := {|
  JWT_TTL_SECONDS := 270;
  ACCOUNT_COOLDOWN_SECONDS := 300;
  AUTH_ERROR_COOLDOWN_SECONDS := 900;
  RATE_LIMIT_COOLDOWN_SECONDS := 300
|}.

End Config.

(** ** core/jwt_manager.py: the state of a [JWTManager] *)

Module JWTManager.

Record t : Type := mk {
  jwt : string;
  expires : Z
}.

(** [JWTManager(account, http_client)] *)
Definition init : t := {| jwt := EmptyString; expires := 0 |}.

(** [invalidate] *)
Definition invalidate (m : t) : t := {| jwt := EmptyString; expires := 0 |}.

(** [is_token_valid], at clock reading [now]: [self.jwt and now < self.expires]. *)
Definition is_token_valid (now : Z) (m : t) : bool :=
  negb (bool_decide (jwt m = EmptyString)) && (now <? expires m).

End JWTManager.

(** ** core/account_pool.py: [Account] *)

Module Account.

Record t : Type := mk {
  name : string;
  secure_c_ses : string;
  csesidx : string;
  config_id : string;
  host_c_oses : option string;
  jwt_mgr : option JWTManager.t;
  disabled_until : Z;
  fail_count : Z;
  last_used_at : option Z;
  last_error : option string;
  cookie_status : string;
  cookie_expires_at : option Z
}.

(** [Account(name=..., secure_c_ses=..., csesidx=..., config_id=...,
    host_c_oses=...)] with the dataclass defaults. *)
Definition new (nm secure cs cfg : string) (host : option string) : t := {|
  name := nm; secure_c_ses := secure; csesidx := cs; config_id := cfg;
  host_c_oses := host; jwt_mgr := None;
  disabled_until := 0; fail_count := 0;
  last_used_at := None; last_error := None;
  cookie_status := "unknown"; cookie_expires_at := None
|}.

Definition with_jwt_mgr (m : option JWTManager.t) (a : t) : t := {|
  name := name a; secure_c_ses := secure_c_ses a; csesidx := csesidx a;
  config_id := config_id a; host_c_oses := host_c_oses a; jwt_mgr := m;
  disabled_until := disabled_until a; fail_count := fail_count a;
  last_used_at := last_used_at a; last_error := last_error a;
  cookie_status := cookie_status a; cookie_expires_at := cookie_expires_at a
|}.

Definition with_health (du fc : Z) (lu : option Z) (le : option string) (a : t) : t := {|
  name := name a; secure_c_ses := secure_c_ses a; csesidx := csesidx a;
  config_id := config_id a; host_c_oses := host_c_oses a; jwt_mgr := jwt_mgr a;
  disabled_until := du; fail_count := fc;
  last_used_at := lu; last_error := le;
  cookie_status := cookie_status a; cookie_expires_at := cookie_expires_at a
|}.

(** [is_available], [now] being the value of its [time.time()]. *)
Definition is_available (now : Z) (a : t) : bool :=
  (disabled_until a <=? now) && (fail_count a <? 3).

(** The [if / elif / else] of [mark_quota_error] that picks the cooldown. *)
Definition cooldown_of (cfg : Config.t) (status_code : Z) : Z :=
  if (status_code =? 401) || (status_code =? 403) then Config.AUTH_ERROR_COOLDOWN_SECONDS cfg
  else if status_code =? 429 then Config.RATE_LIMIT_COOLDOWN_SECONDS cfg
  else Config.ACCOUNT_COOLDOWN_SECONDS cfg.

(** [mark_quota_error(status_code, detail)], [now] being the value of its
    [time.time()]. *)
Definition mark_quota_error (cfg : Config.t) (now : Z)
    (status_code : Z) (detail : string) (a : t) : t :=
  let cooldown := cooldown_of cfg status_code in
  with_health
    (Z.max (disabled_until a) (now + cooldown))
    (fail_count a + 1)
    (last_used_at a)
    (Some (if bool_decide (detail = EmptyString)
           then "HTTP " +:+ str_of_int status_code
           else "HTTP " +:+ str_of_int status_code +:+ ": " +:+ substring 0 200 detail))
    a.

(** [mark_success], [now] standing for [datetime.now(BEIJING_TZ)]. *)
Definition mark_success (now : Z) (a : t) : t :=
  with_health (disabled_until a) 0 (Some now) None a.

(** [reset_cooldown] *)
Definition reset_cooldown (a : t) : t :=
  with_health 0 0 (last_used_at a) None a.

(** [get_remaining_cooldown], [now] being the value of its [time.time()]. *)
Definition get_remaining_cooldown (now : Z) (a : t) : Z :=
  Z.max 0 (disabled_until a - now).

End Account.

(** ** core/account_pool.py: [AccountPool] *)

Module AccountPool.

Record t : Type := mk {
  accounts : list Account.t;
  _rr_index : Z
}.

(** [AccountPool(http_client)] *)
Definition init : t := {| accounts := []; _rr_index := 0 |}.

(** [add_account]: a fresh [JWTManager] is attached and the account is
    appended.  The account given is taken to be an object that the pool
    does not hold yet; [PoolObjects.add_account] tells the objects apart
    and covers the object that is already held. *)
Definition add_account (account : Account.t) (p : t) : t :=
  {| accounts := accounts p ++ [Account.with_jwt_mgr (Some JWTManager.init) account];
     _rr_index := _rr_index p |}.

(** The [for i, acc in enumerate(self.accounts)] of [remove_account]: the
    list without the first account called [nm], if there is one. *)
Fixpoint pop_first (nm : string) (l : list Account.t) : option (list Account.t) :=
  match l with
  | [] => None
  | acc :: l' =>
      if bool_decide (Account.name acc = nm) then Some l'
      else match pop_first nm l' with
           | Some r => Some (acc :: r)
           | None => None
           end
  end.

(** [remove_account]: the cursor is left as it is. *)
Definition remove_account (nm : string) (p : t) : bool * t :=
  match pop_first nm (accounts p) with
  | Some l' => (true, {| accounts := l'; _rr_index := _rr_index p |})
  | None => (false, p)
  end.

(** [get_account] *)
Fixpoint find_by_name (nm : string) (l : list Account.t) : option Account.t :=
  match l with
  | [] => None
  | acc :: l' => if bool_decide (Account.name acc = nm) then Some acc else find_by_name nm l'
  end.

Definition get_account (nm : string) (p : t) : option Account.t :=
  find_by_name nm (accounts p).

Section Selection.

(** [clock k] is the value of the [k]-th call of [time.time()]. *)
Variable clock : nat -> Z.

(** The [for _ in range(n)] loop of [get_next_available]: [steps]
    iterations are left, [rr] is the cursor and [k] the number of clock
    reads so far.  [None] is the loop running to its end. *)
Fixpoint scan (accs : list Account.t) (n : Z) (steps : nat) (rr : Z) (k : nat)
  : option (outcome Account.t) * Z * nat :=
  match steps with
  | O => (None, rr, k)
  | S steps' =>
      match list_getitem accs (rr mod n) with
      | Raise e => (Some (Raise e), rr, k)
      | Return acc =>
          let rr' := (rr + 1) mod n in
          if Account.is_available (clock k) acc
          then (Some (Return acc), rr', S k)
          else scan accs n steps' rr' (S k)
      end
  end.

(** The position looked at by step [s] of a scan that starts with the
    cursor at [rr], on a pool of [n] accounts. *)
Definition pos (n rr : Z) (s : nat) : nat := Z.to_nat ((rr + Z.of_nat s) mod n).

(** What a scan of [steps] iterations does: it stops at the first step
    whose account is available when it is looked at, or runs to its end
    when there is none. *)
Definition scan_post (accs : list Account.t) (n : Z) (steps : nat) (rr : Z) (k : nat)
    (res : option (outcome Account.t) * Z * nat) : Prop :=
  (exists s acc,
      (s < steps)%nat
      /\ accs !! pos n rr s = Some acc
      /\ Account.is_available (clock (k + s)) acc = true
      /\ (forall s' acc', (s' < s)%nat -> accs !! pos n rr s' = Some acc' ->
                          Account.is_available (clock (k + s')) acc' = false)
      /\ res = (Some (Return acc), (rr + Z.of_nat s + 1) mod n, (k + s + 1)%nat))
  \/ (exists rr',
        (forall s acc, (s < steps)%nat -> accs !! pos n rr s = Some acc ->
                       Account.is_available (clock (k + s)) acc = false)
        /\ (steps = O -> rr' = rr)
        /\ (steps <> O -> rr' = (rr + Z.of_nat steps) mod n)
        /\ res = (None, rr', (k + steps)%nat)).

(** [get_next_available], run with [k] clock reads made so far.  The
    result [Return None] is Python's [None]. *)
Definition get_next_available (p : t) (k : nat)
  : outcome (option Account.t) * t * nat :=
  let n := Z.of_nat (length (accounts p)) in
  if n =? 0 then (Return None, p, k)
  else
    match scan (accounts p) n (Z.to_nat n) (_rr_index p) k with
    | (Some (Return acc), rr', k') =>
        (Return (Some acc), {| accounts := accounts p; _rr_index := rr' |}, k')
    | (Some (Raise e), rr', k') =>
        (Raise e, {| accounts := accounts p; _rr_index := rr' |}, k')
    | (None, rr', k') =>
        let p' := {| accounts := accounts p; _rr_index := rr' |} in
        match py_min Account.disabled_until (accounts p) with
        | Return acc => (Return (Some acc), p', k')
        | Raise e => (Raise e, p', k')
        end
    end.

(** [N] consecutive calls of [get_next_available]: their results in
    order, the pool and the clock reads after the last one. *)
Fixpoint calls (N : nat) (p : t) (k : nat)
  : list (outcome (option Account.t)) * t * nat :=
  match N with
  | O => ([], p, k)
  | S N' =>
      let '(r, p1, k1) := get_next_available p k in
      let '(rs, p2, k2) := calls N' p1 k1 in
      (r :: rs, p2, k2)
  end.

(** One operation on the pool, and what it answers. *)
Inductive op : Type :=
| Select
| Add (account : Account.t)
| Remove (nm : string).

Inductive answer : Type :=
| Selected (r : outcome (option Account.t))
| Added
| Removed (found : bool).

Definition apply_op (o : op) (p : t) (k : nat) : answer * t * nat :=
  match o with
  | Select => let '(r, p', k') := get_next_available p k in (Selected r, p', k')
  | Add account => (Added, add_account account p, k)
  | Remove nm => let '(b, p') := remove_account nm p in (Removed b, p', k)
  end.

Fixpoint run (ops : list op) (p : t) (k : nat) : list answer * t * nat :=
  match ops with
  | [] => ([], p, k)
  | o :: ops' =>
      let '(a, p1, k1) := apply_op o p k in
      let '(rest, p2, k2) := run ops' p1 k1 in
      (a :: rest, p2, k2)
  end.

End Selection.

(** The cursor points into the list. *)
Definition cursor_in_range (p : t) : Prop :=
  0 <= _rr_index p < Z.of_nat (length (accounts p)).

(** The cursor is non-negative and, on a non-empty pool, points into it. *)
Definition cursor_settled (p : t) : Prop :=
  0 <= _rr_index p < Z.max 1 (Z.of_nat (length (accounts p))).

Definition is_removal (o : op) : bool :=
  match o with Remove _ => true | _ => false end.

Definition raised (a : answer) : bool :=
  match a with Selected (Raise _) => true | _ => false end.

(** How many of the steps [0 .. N-1] of a walk from cursor [rr] look at
    position [j]. *)
Definition visits (K rr : Z) (j : nat) (N : nat) : nat :=
  length (List.filter (fun i => Nat.eqb (pos K rr i) j) (seq 0 N)).

(** How many of the results are the account called [nm]. *)
Definition is_account (nm : string) (r : outcome (option Account.t)) : bool :=
  match r with
  | Return (Some acc) => bool_decide (Account.name acc = nm)
  | _ => false
  end.

Definition times_returned (nm : string) (rs : list (outcome (option Account.t))) : nat :=
  length (List.filter (is_account nm) rs).

End AccountPool.

(** [ceil(N / K)] on naturals. *)
Definition ceil_div (N K : nat) : nat := (N + K - 1) / K.


(** ** Strings, bytes and their standard encodings *)

Definition dquote : ascii := "034"%char.
Definition backslash : ascii := "\"%char.

(** [sep.join(parts)] *)
Fixpoint join (sep : string) (parts : list string) : string :=
  match parts with
  | [] => EmptyString
  | [x] => x
  | x :: rest => x +:+ sep +:+ join sep rest
  end.

(** [s.rstrip(c)] for a one-character [c]. *)
Fixpoint rstrip (c : ascii) (s : string) : string :=
  match s with
  | EmptyString => EmptyString
  | String x s' =>
      match rstrip c s' with
      | EmptyString => if Ascii.eqb x c then EmptyString else String x EmptyString
      | r => String x r
      end
  end.

(** [s.split(c)] for a one-character [c]. *)
Fixpoint split_on (c : ascii) (s : string) : list string :=
  match s with
  | EmptyString => [EmptyString]
  | String x s' =>
      if Ascii.eqb x c then EmptyString :: split_on c s'
      else match split_on c s' with
           | [] => [String x EmptyString]
           | w :: ws => String x w :: ws
           end
  end.

(** [s.encode()] (UTF-8) of a string of code points below 256. *)
Definition utf8_char (c : ascii) : list byte :=
  let v := N_of_ascii c in
  if (v <? 128)%N then [byte_of_ascii c]
  else match Byte.of_N (192 + v / 64), Byte.of_N (128 + v mod 64) with
       | Some b1, Some b2 => [b1; b2]
       | _, _ => []
       end.

Fixpoint utf8_encode (s : string) : list byte :=
  match s with
  | EmptyString => []
  | String c s' => (utf8_char c ++ utf8_encode s')%list
  end.

Module Base64.

(** The URL-safe alphabet of RFC 4648. *)
Definition alphabet : string :=
  "ABCDEFGHIJKLMNOPQRSTUVWXYZabcdefghijklmnopqrstuvwxyz0123456789-_".

Definition pad : ascii := "="%char.

Definition char_of (i : N) : ascii :=
  match String.get (N.to_nat i) alphabet with
  | Some c => c
  | None => pad
  end.

(** Four characters for three bytes; a last group of one or two bytes is
    padded with [=]. *)
Fixpoint encode_padded (bs : list byte) : string :=
  match bs with
  | [] => EmptyString
  | [a] =>
      let x := Byte.to_N a in
      String (char_of (x / 4)) (String (char_of (x mod 4 * 16))
        (String pad (String pad EmptyString)))
  | [a; b] =>
      let x := Byte.to_N a in
      let y := Byte.to_N b in
      String (char_of (x / 4)) (String (char_of (x mod 4 * 16 + y / 16))
        (String (char_of (y mod 16 * 4)) (String pad EmptyString)))
  | a :: b :: c :: rest =>
      let x := Byte.to_N a in
      let y := Byte.to_N b in
      let z := Byte.to_N c in
      String (char_of (x / 4)) (String (char_of (x mod 4 * 16 + y / 16))
        (String (char_of (y mod 16 * 4 + z / 64)) (String (char_of (z mod 64))
          (encode_padded rest))))
  end%N.

(** The index of a character of the alphabet. *)
Fixpoint index_from (i : N) (c : ascii) (alpha : string) : option N :=
  match alpha with
  | EmptyString => None
  | String x alpha' => if Ascii.eqb x c then Some i else index_from (i + 1) c alpha'
  end.

Definition index_of (c : ascii) : option N := index_from 0 c alphabet.

Definition is_alphabet_char (c : ascii) : bool :=
  match index_of c with Some _ => true | None => false end.

Fixpoint is_alphabet_string (s : string) : bool :=
  match s with
  | EmptyString => true
  | String c s' => is_alphabet_char c && is_alphabet_string s'
  end.

(** Decoding of unpadded text: groups of four characters, and a last
    group of two or three. *)
Fixpoint decode_unpadded (s : string) : option (list byte) :=
  match s with
  | EmptyString => Some []
  | String c1 (String c2 EmptyString) =>
      match index_of c1, index_of c2 with
      | Some i1, Some i2 =>
          match Byte.of_N (i1 * 4 + i2 / 16) with
          | Some a => Some [a]
          | None => None
          end
      | _, _ => None
      end
  | String c1 (String c2 (String c3 EmptyString)) =>
      match index_of c1, index_of c2, index_of c3 with
      | Some i1, Some i2, Some i3 =>
          match Byte.of_N (i1 * 4 + i2 / 16), Byte.of_N (i2 mod 16 * 16 + i3 / 4) with
          | Some a, Some b => Some [a; b]
          | _, _ => None
          end
      | _, _, _ => None
      end
  | String c1 (String c2 (String c3 (String c4 rest))) =>
      match index_of c1, index_of c2, index_of c3, index_of c4 with
      | Some i1, Some i2, Some i3, Some i4 =>
          match Byte.of_N (i1 * 4 + i2 / 16),
                Byte.of_N (i2 mod 16 * 16 + i3 / 4),
                Byte.of_N (i3 mod 4 * 64 + i4),
                decode_unpadded rest with
          | Some a, Some b, Some c, Some bs => Some (a :: b :: c :: bs)
          | _, _, _, _ => None
          end
      | _, _, _, _ => None
      end
  | _ => None
  end%N.

(** The same text without the padding. *)
Fixpoint encode_unpadded (bs : list byte) : string :=
  match bs with
  | [] => EmptyString
  | [a] =>
      let x := Byte.to_N a in
      String (char_of (x / 4)) (String (char_of (x mod 4 * 16)) EmptyString)
  | [a; b] =>
      let x := Byte.to_N a in
      let y := Byte.to_N b in
      String (char_of (x / 4)) (String (char_of (x mod 4 * 16 + y / 16))
        (String (char_of (y mod 16 * 4)) EmptyString))
  | a :: b :: c :: rest =>
      let x := Byte.to_N a in
      let y := Byte.to_N b in
      let z := Byte.to_N c in
      String (char_of (x / 4)) (String (char_of (x mod 4 * 16 + y / 16))
        (String (char_of (y mod 16 * 4 + z / 64)) (String (char_of (z mod 64))
          (encode_unpadded rest))))
  end%N.

End Base64.

(** [urlsafe_b64encode] of jwt_manager.py:
    [base64.urlsafe_b64encode(data).decode().rstrip("=")]. *)
Definition urlsafe_b64encode (data : list byte) : string :=
  rstrip "="%char (Base64.encode_padded data).

(** ** JSON values and [json.dumps] *)

#[warnings="-register-all"]
Inductive json : Type :=
| JNull
| JBool (b : bool)
| JInt (z : Z)
| JStr (s : string)
| JList (l : list json)
| JDict (m : list (string * json)).

Module Json.

Definition hex_digits : string := "0123456789abcdef".

Definition hex_char (n : N) : ascii :=
  match String.get (N.to_nat n) hex_digits with
  | Some c => c
  | None => "0"%char
  end.

(** How [json.dumps] (with [ensure_ascii]) writes one character. *)
Definition escape_char (c : ascii) : string :=
  let v := N_of_ascii c in
  if ((32 <=? v) && (v <=? 126))%N && negb (Ascii.eqb c backslash) && negb (Ascii.eqb c dquote)
  then String c EmptyString
  else if Ascii.eqb c backslash then String backslash (String backslash EmptyString)
  else if Ascii.eqb c dquote then String backslash (String dquote EmptyString)
  else if (v =? 8)%N then String backslash "b"
  else if (v =? 12)%N then String backslash "f"
  else if (v =? 10)%N then String backslash "n"
  else if (v =? 13)%N then String backslash "r"
  else if (v =? 9)%N then String backslash "t"
  else String backslash (String "u"%char
         (String (hex_char (v / 4096)) (String (hex_char (v / 256 mod 16))
           (String (hex_char (v / 16 mod 16)) (String (hex_char (v mod 16)) EmptyString))))).

Fixpoint escape (s : string) : string :=
  match s with
  | EmptyString => EmptyString
  | String c s' => escape_char c +:+ escape s'
  end.

Definition encode_basestring_ascii (s : string) : string :=
  String dquote (escape s +:+ String dquote EmptyString).

(** [json.dumps(j, separators=(",", ":"))] *)
Fixpoint dumps (j : json) : string :=
  match j with
  | JNull => "null"
  | JBool true => "true"
  | JBool false => "false"
  | JInt z => str_of_int z
  | JStr s => encode_basestring_ascii s
  | JList l => "[" +:+ join "," (map dumps l) +:+ "]"
  | JDict m =>
      "{" +:+ join "," (map (fun kv => encode_basestring_ascii (fst kv) +:+ ":" +:+ dumps (snd kv)) m)
          +:+ "}"
  end.

(** [d.get(key)] on a dict. *)
Fixpoint dict_get (key : string) (m : list (string * json)) : option json :=
  match m with
  | [] => None
  | (k, v) :: m' => if bool_decide (k = key) then Some v else dict_get key m'
  end.

(** Python's truth value of a decoded JSON value. *)
Definition truthy (j : json) : bool :=
  match j with
  | JNull => false
  | JBool b => b
  | JInt z => negb (z =? 0)
  | JStr s => negb (bool_decide (s = EmptyString))
  | JList l => match l with [] => false | _ => true end
  | JDict m => match m with [] => false | _ => true end
  end.

End Json.

(** ** core/jwt_manager.py: [kq_encode] and [create_jwt] *)

(** [b.append(v)] on a bytearray: [ValueError] unless [0 <= v < 256]. *)
Definition bytearray_append (b : list byte) (v : N) : outcome (list byte) :=
  match Byte.of_N v with
  | Some x => Return (b ++ [x])%list
  | None => Raise ValueError
  end.

(** The [for ch in s] loop of [kq_encode], [b] being the bytearray so far. *)
Fixpoint kq_bytes (s : string) (b : list byte) : outcome (list byte) :=
  match s with
  | EmptyString => Return b
  | String ch s' =>
      let v := N_of_ascii ch in
      if (255 <? v)%N then
        match bytearray_append b (N.land v 255) with
        | Raise e => Raise e
        | Return b1 =>
            match bytearray_append b1 (N.shiftr v 8) with
            | Raise e => Raise e
            | Return b2 => kq_bytes s' b2
            end
        end
      else
        match bytearray_append b v with
        | Raise e => Raise e
        | Return b1 => kq_bytes s' b1
        end
  end.

Definition kq_encode (s : string) : outcome string :=
  match kq_bytes s [] with
  | Raise e => Raise e
  | Return b => Return (urlsafe_b64encode b)
  end.

Section CreateJwt.

(** [hmac.new(key, msg, hashlib.sha256).digest()] *)
Variable hmac_sha256 : list byte -> list byte -> list byte.

(** [key_id] is whatever the key exchange answered under ["keyId"]. *)
Definition jwt_header (key_id : json) : json :=
  JDict [("alg", JStr "HS256"); ("typ", JStr "JWT"); ("kid", key_id)].

Definition jwt_payload (csesidx : string) (now : Z) : json :=
  JDict [("iss", JStr "https://business.gemini.google");
         ("aud", JStr "https://biz-discoveryengine.googleapis.com");
         ("sub", JStr ("csesidx/" +:+ csesidx));
         ("iat", JInt now);
         ("exp", JInt (now + 300));
         ("nbf", JInt now)].

(** [create_jwt(key_bytes, key_id, csesidx)], [now] being the value of
    [int(time.time())]. *)
Definition create_jwt (key_bytes : list byte) (key_id : json) (csesidx : string) (now : Z)
  : outcome string :=
  let header := jwt_header key_id in
  let payload := jwt_payload csesidx now in
  match kq_encode (Json.dumps header) with
  | Raise e => Raise e
  | Return header_b64 =>
      match kq_encode (Json.dumps payload) with
      | Raise e => Raise e
      | Return payload_b64 =>
          let message := header_b64 +:+ "." +:+ payload_b64 in
          let sig := hmac_sha256 key_bytes (utf8_encode message) in
          Return (message +:+ "." +:+ urlsafe_b64encode sig)
      end
  end.

End CreateJwt.


(** ** Decoding a token: what a reader of the token does

    None of this is code of the gateway; it is the inverse of the encodings
    above, used to state what a minted token decodes to. *)

Module Decode.

Definition is_digit (c : ascii) : bool :=
  let v := N_of_ascii c in ((48 <=? v) && (v <=? 57))%N.

Fixpoint span_digits (s : string) : string * string :=
  match s with
  | EmptyString => (EmptyString, EmptyString)
  | String c s' =>
      if is_digit c
      then let '(d, r) := span_digits s' in (String c d, r)
      else (EmptyString, s)
  end.

Definition parse_uint (s : string) : option (Decimal.uint * string) :=
  match span_digits s with
  | (EmptyString, _) => None
  | (d, r) =>
      match NilEmpty.uint_of_string d with
      | Some u => Some (u, r)
      | None => None
      end
  end.

(** An integer literal at the head of [s], and what follows it. *)
Definition parse_int (s : string) : option (Z * string) :=
  match s with
  | EmptyString => None
  | String c s' =>
      if Ascii.eqb c "-"
      then match parse_uint s' with
           | Some (u, r) => Some (Z.of_int (Decimal.Neg u), r)
           | None => None
           end
      else match parse_uint s with
           | Some (u, r) => Some (Z.of_int (Decimal.Pos u), r)
           | None => None
           end
  end.

Definition hex_value (c : ascii) : option N :=
  let v := N_of_ascii c in
  if ((48 <=? v) && (v <=? 57))%N then Some (v - 48)%N
  else if ((97 <=? v) && (v <=? 102))%N then Some (v - 87)%N
  else if ((65 <=? v) && (v <=? 70))%N then Some (v - 55)%N
  else None.

Definition hex4 (h1 h2 h3 h4 : ascii) : option N :=
  match hex_value h1, hex_value h2, hex_value h3, hex_value h4 with
  | Some a, Some b, Some c, Some d => Some (a * 4096 + b * 256 + c * 16 + d)%N
  | _, _, _, _ => None
  end.

(** The character a two-character escape stands for. *)
Definition unescape (e : ascii) : option ascii :=
  if Ascii.eqb e dquote then Some dquote
  else if Ascii.eqb e backslash then Some backslash
  else if Ascii.eqb e "/" then Some "/"%char
  else if Ascii.eqb e "b" then Some (ascii_of_N 8)
  else if Ascii.eqb e "f" then Some (ascii_of_N 12)
  else if Ascii.eqb e "n" then Some (ascii_of_N 10)
  else if Ascii.eqb e "r" then Some (ascii_of_N 13)
  else if Ascii.eqb e "t" then Some (ascii_of_N 9)
  else None.

Definition push (c : ascii) (r : option (string * string)) : option (string * string) :=
  match r with
  | Some (d, rest) => Some (String c d, rest)
  | None => None
  end.

(** The contents of a string literal whose opening quote has been read,
    and what follows its closing quote.  An escape [\uXXXX] above 255 has
    no character in a [string] and is refused. *)
Fixpoint scan_string (s : string) : option (string * string) :=
  match s with
  | EmptyString => None
  | String c s1 =>
      if Ascii.eqb c dquote then Some (EmptyString, s1)
      else if Ascii.eqb c backslash then
        match s1 with
        | EmptyString => None
        | String e s2 =>
            if Ascii.eqb e "u" then
              match s2 with
              | String h1 (String h2 (String h3 (String h4 s3))) =>
                  match hex4 h1 h2 h3 h4 with
                  | Some v => if (v <? 256)%N then push (ascii_of_N v) (scan_string s3) else None
                  | None => None
                  end
              | _ => None
              end
            else
              match unescape e with
              | Some ch => push ch (scan_string s2)
              | None => None
              end
        end
      else push c (scan_string s1)
  end.

Definition expect (lit : string) (v : json) (s : string) : option (json * string) :=
  if String.prefix lit s
  then Some (v, substring (String.length lit) (String.length s - String.length lit) s)
  else None.

(** A JSON value in compact form at the head of [s], and what follows. *)
Fixpoint parse_value (fuel : nat) (s : string) : option (json * string) :=
  match fuel with
  | O => None
  | S fuel' =>
      match s with
      | EmptyString => None
      | String c s1 =>
          if Ascii.eqb c dquote then
            match scan_string s1 with
            | Some (str, rest) => Some (JStr str, rest)
            | None => None
            end
          else if Ascii.eqb c "{" then
            match s1 with
            | EmptyString => None
            | String c1 s2 =>
                if Ascii.eqb c1 "}" then Some (JDict [], s2)
                else match parse_members fuel' s1 with
                     | Some (m, rest) => Some (JDict m, rest)
                     | None => None
                     end
            end
          else if Ascii.eqb c "[" then
            match s1 with
            | EmptyString => None
            | String c1 s2 =>
                if Ascii.eqb c1 "]" then Some (JList [], s2)
                else match parse_elements fuel' s1 with
                     | Some (l, rest) => Some (JList l, rest)
                     | None => None
                     end
            end
          else if Ascii.eqb c "n" then expect "null" JNull s
          else if Ascii.eqb c "t" then expect "true" (JBool true) s
          else if Ascii.eqb c "f" then expect "false" (JBool false) s
          else match parse_int s with
               | Some (z, rest) => Some (JInt z, rest)
               | None => None
               end
      end
  end
with parse_members (fuel : nat) (s : string) : option (list (string * json) * string) :=
  match fuel with
  | O => None
  | S fuel' =>
      match s with
      | EmptyString => None
      | String c s1 =>
          if Ascii.eqb c dquote then
            match scan_string s1 with
            | Some (key, String c2 s2) =>
                if Ascii.eqb c2 ":" then
                  match parse_value fuel' s2 with
                  | Some (v, String c3 s3) =>
                      if Ascii.eqb c3 "," then
                        match parse_members fuel' s3 with
                        | Some (m, rest) => Some ((key, v) :: m, rest)
                        | None => None
                        end
                      else if Ascii.eqb c3 "}" then Some ([(key, v)], s3)
                      else None
                  | _ => None
                  end
                else None
            | _ => None
            end
          else None
      end
  end
with parse_elements (fuel : nat) (s : string) : option (list json * string) :=
  match fuel with
  | O => None
  | S fuel' =>
      match parse_value fuel' s with
      | Some (v, String c3 s3) =>
          if Ascii.eqb c3 "," then
            match parse_elements fuel' s3 with
            | Some (l, rest) => Some (v :: l, rest)
            | None => None
            end
          else if Ascii.eqb c3 "]" then Some ([v], s3)
          else None
      | _ => None
      end
  end.

(** Decoding of a whole compact JSON text. *)
Definition json_loads (s : string) : option json :=
  match parse_value (S (String.length s)) s with
  | Some (v, EmptyString) => Some v
  | _ => None
  end.

(** The claims of a token: its second dot-separated part, base64url
    decoded, read as text and parsed. *)
Definition claims_of (token : string) : option json :=
  match split_on "." token with
  | [_; payload_b64; _] =>
      match Base64.decode_unpadded payload_b64 with
      | Some bs => json_loads (string_of_list_byte bs)
      | None => None
      end
  | _ => None
  end.

(** What follows an integer literal must not be a digit. *)
Definition ends_number (rest : string) : Prop :=
  match rest with
  | EmptyString => True
  | String c _ => is_digit c = false
  end.

(** A value that is a string or an integer. *)
Definition flat_value (v : json) : Prop :=
  match v with
  | JStr _ | JInt _ => True
  | _ => False
  end.

(** The text of one member of a dict in [Json.dumps]. *)
Definition member_text (kv : string * json) : string :=
  Json.encode_basestring_ascii (fst kv) +:+ ":" +:+ Json.dumps (snd kv).

Definition claim (key : string) (token : string) : option json :=
  match claims_of token with
  | Some (JDict m) => Json.dict_get key m
  | _ => None
  end.

End Decode.


(** ** core/session_manager.py and [JWTManager.get] *)

(** [c in s] for a one-character [c]. *)
Fixpoint contains_char (c : ascii) (s : string) : bool :=
  match s with
  | EmptyString => false
  | String x s' => Ascii.eqb x c || contains_char c s'
  end.

(** [j == s] for a string [s]. *)
Definition is_str (s : string) (j : json) : bool :=
  match j with
  | JStr x => String.eqb x s
  | _ => false
  end.

Module Session.

(** [name] is whatever the upstream answered under ["session"]["name"]. *)
Record t : Type := mk {
  name : json;
  account_name : string;
  config_id : string;
  created_at : Z;
  last_used_at : Z;
  file_ids : list json
}.

(** [is_expired(max_age_seconds)], [now] being the value of its
    [time.time()]. *)
Definition is_expired (now : Z) (max_age_seconds : Z) (s : t) : bool :=
  max_age_seconds <? now - last_used_at s.

(** The property [session_id]:
    [self.name.split("/")[-1] if "/" in self.name else self.name].
    On a list or a dict ["/" in] is membership, and [split] is missing. *)
Definition session_id (s : t) : outcome json :=
  match name s with
  | JStr n =>
      if contains_char "/" n then
        match list_getitem (split_on "/" n) (-1) with
        | Return x => Return (JStr x)
        | Raise e => Raise e
        end
      else Return (JStr n)
  | JList l => if existsb (is_str "/") l then Raise AttributeError else Return (JList l)
  | JDict m =>
      match Json.dict_get "/" m with
      | Some _ => Raise AttributeError
      | None => Return (JDict m)
      end
  | JNull | JBool _ | JInt _ => Raise TypeError
  end.

Definition with_last_used_at (v : Z) (s : t) : t :=
  {| name := name s; account_name := account_name s; config_id := config_id s;
     created_at := created_at s; last_used_at := v; file_ids := file_ids s |}.

Definition with_file_ids (v : list json) (s : t) : t :=
  {| name := name s; account_name := account_name s; config_id := config_id s;
     created_at := created_at s; last_used_at := last_used_at s; file_ids := v |}.

End Session.

(** An HTTP response: [status_code] and [text]. *)
Record Response : Type := mkResponse {
  status_code : Z;
  text : string
}.

(** [d[key]] on a decoded JSON value. *)
Definition py_getitem (j : json) (key : string) : outcome json :=
  match j with
  | JDict m =>
      match Json.dict_get key m with
      | Some v => Return v
      | None => Raise KeyError
      end
  | _ => Raise TypeError
  end.

(** [d.get(key, default)] on a decoded JSON value. *)
Definition py_get (j : json) (key : string) (default : json) : outcome json :=
  match j with
  | JDict m =>
      match Json.dict_get key m with
      | Some v => Return v
      | None => Return default
      end
  | _ => Raise AttributeError
  end.

(** [status_code in (401, 403, 429)] *)
Definition is_quota_status (status : Z) : bool :=
  (status =? 401) || (status =? 403) || (status =? 429).

Module SessionManager.

(** What the calls below read and write: the clock reads and upstream
    requests made so far, the [Session] objects by address, the
    [_sessions] dict (conversation key to the address of its [Session])
    and the [Account] object the call was given. *)
Record State : Type := mkState {
  ticks : nat;
  requests : nat;
  objects : list Session.t;
  _sessions : gmap string nat;
  account : Account.t
}.

Definition M (A : Type) : Type := State -> outcome A * State.

Definition ret {A : Type} (a : A) : M A := fun st => (Return a, st).

Definition raise {A : Type} (e : exn) : M A := fun st => (Raise e, st).

Definition bind {A B : Type} (c : M A) (k : A -> M B) : M B :=
  fun st =>
    match c st with
    | (Return a, st') => k a st'
    | (Raise e, st') => (Raise e, st')
    end.

Definition lift {A : Type} (r : outcome A) : M A := fun st => (r, st).

Declare Scope session_scope.
Delimit Scope session_scope with session.
Notation "'do' x <- c ; k" := (bind c (fun x => k))
  (at level 10, x pattern, c at level 100, k at level 200) : session_scope.

Definition with_account (a : Account.t) (st : State) : State :=
  {| ticks := ticks st; requests := requests st; objects := objects st;
     _sessions := _sessions st; account := a |}.

Definition with_objects (o : list Session.t) (st : State) : State :=
  {| ticks := ticks st; requests := requests st; objects := o;
     _sessions := _sessions st; account := account st |}.

Definition with_sessions (m : gmap string nat) (st : State) : State :=
  {| ticks := ticks st; requests := requests st; objects := objects st;
     _sessions := m; account := account st |}.

Definition get_account : M Account.t := fun st => (Return (account st), st).

Definition set_account (a : Account.t) : M unit :=
  fun st => (Return tt, with_account a st).

(** The [Session] object at an address. *)
Definition load (addr : nat) : M Session.t :=
  fun st =>
    match objects st !! addr with
    | Some s => (Return s, st)
    | None => (Raise (Exception "no such object"), st)
    end.

Definition store (addr : nat) (s : Session.t) : M unit :=
  fun st => (Return tt, with_objects (<[addr := s]> (objects st)) st).

(** A new [Session] object; its address is returned. *)
Definition alloc (s : Session.t) : M nat :=
  fun st => (Return (length (objects st)), with_objects (objects st ++ [s]) st).

(** What a call leaves alone: the [Session] objects, the [_sessions] dict
    and the name of the account. *)
Definition frame (st st' : State) : Prop :=
  objects st' = objects st
  /\ _sessions st' = _sessions st
  /\ Account.name (account st') = Account.name (account st).

(** The state once a stale entry has been looked at and evicted: one
    clock read (by [is_expired]) and the key removed from [_sessions]. *)
Definition evicted (key : string) (st : State) : State :=
  {| ticks := S (ticks st); requests := requests st; objects := objects st;
     _sessions := delete key (_sessions st); account := account st |}.

(** [self._sessions.get(key)], [del self._sessions[key]] and
    [self._sessions[key] = session]. *)
Definition cached_session (key : string) : M (option nat) :=
  fun st => (Return (_sessions st !! key), st).

Definition del_session (key : string) : M unit :=
  fun st => (Return tt, with_sessions (delete key (_sessions st)) st).

Definition put_session (key : string) (addr : nat) : M unit :=
  fun st => (Return tt, with_sessions (<[key := addr]> (_sessions st)) st).

Section Calls.

Open Scope session_scope.

Variable cfg : Config.t.
(** [clock k] is the value of the [k]-th call of [time.time()]. *)
Variable clock : nat -> Z.
(** [upstream k] is what the [k]-th HTTP request gets: a response, or
    the exception the client raises. *)
Variable upstream : nat -> outcome Response.
(** [json.loads] *)
Variable json_loads : string -> outcome json.
(** [base64.urlsafe_b64decode] *)
Variable urlsafe_b64decode : string -> outcome (list byte).
(** [hmac.new(key, msg, hashlib.sha256).digest()] *)
Variable hmac_sha256 : list byte -> list byte -> list byte.

(** [time.time()] *)
Definition time_time : M Z :=
  fun st =>
    (Return (clock (ticks st)),
     {| ticks := S (ticks st); requests := requests st; objects := objects st;
        _sessions := _sessions st; account := account st |}).

(** [await self.http_client.get(...)] / [.post(...)] *)
Definition http_request : M Response :=
  fun st =>
    (upstream (requests st),
     {| ticks := ticks st; requests := S (requests st); objects := objects st;
        _sessions := _sessions st; account := account st |}).

(** [account.mark_quota_error(status_code, detail)] *)
Definition mark_quota_error (status : Z) (detail : string) : M unit :=
  do now <- time_time ;
  do a <- get_account ;
  set_account (Account.mark_quota_error cfg now status detail a).

(** [if response.status_code in (401, 403, 429):
       account.mark_quota_error(response.status_code, response.text)] *)
Definition penalise (response : Response) : M unit :=
  if is_quota_status (status_code response)
  then mark_quota_error (status_code response) (text response)
  else ret tt.

(** [JWTManager._refresh] on the manager of the account.  The
    [try / except Exception: raise] re-raises what it caught, and
    [_parse_cookie_expiration] only records an informational date and
    swallows its own errors, so neither shows here. *)
Definition jwt_refresh : M unit :=
  do response <- http_request ;
  if negb (status_code response =? 200) then
    do _ <- penalise response ;
    raise (Exception ("getoxsrf failed: " +:+ str_of_int (status_code response)))
  else
    let txt := if String.prefix ")]}'" (text response)
               then substring 4 (String.length (text response) - 4) (text response)
               else text response in
    do data <- lift (json_loads txt) ;
    do xsrf <- lift (py_getitem data "xsrfToken") ;
    do padded <- lift (match xsrf with
                       | JStr s => Return (s +:+ "==")
                       | _ => Raise TypeError
                       end) ;
    do key_bytes <- lift (urlsafe_b64decode padded) ;
    do key_id <- lift (py_getitem data "keyId") ;
    do a <- get_account ;
    do now <- time_time ;
    do jwt <- lift (create_jwt hmac_sha256 key_bytes key_id (Account.csesidx a) now) ;
    do now' <- time_time ;
    set_account
      (Account.with_jwt_mgr
         (Some {| JWTManager.jwt := jwt;
                  JWTManager.expires := now' + Config.JWT_TTL_SECONDS cfg |})
         a).

(** [await account.jwt_mgr.get()] *)
Definition jwt_get : M string :=
  do a <- get_account ;
  match Account.jwt_mgr a with
  | None => raise AttributeError
  | Some mgr =>
      do now <- time_time ;
      do _ <- (if JWTManager.expires mgr <? now then jwt_refresh else ret tt) ;
      do a' <- get_account ;
      match Account.jwt_mgr a' with
      | Some mgr' => ret (JWTManager.jwt mgr')
      | None => raise AttributeError
      end
  end.

(** [create_session(account)]: the address of the new [Session].  The
    log line after the [Session] has been built evaluates
    [session.session_id]; when that raises, the object is dropped. *)
Definition create_session : M nat :=
  do jwt <- jwt_get ;
  do response <- http_request ;
  if negb (status_code response =? 200) then
    do _ <- penalise response ;
    raise (Exception ("createSession failed: " +:+ str_of_int (status_code response)))
  else
    do data <- lift (json_loads (text response)) ;
    do sess <- lift (py_getitem data "session") ;
    do session_name <- lift (py_getitem sess "name") ;
    do a <- get_account ;
    do t1 <- time_time ;
    do t2 <- time_time ;
    let session := {| Session.name := session_name;
                      Session.account_name := Account.name a;
                      Session.config_id := Account.config_id a;
                      Session.created_at := t1;
                      Session.last_used_at := t2;
                      Session.file_ids := [] |} in
    do _ <- lift (Session.session_id session) ;
    alloc session.

(** [get_or_create_session(account, conversation_key)]: the address of
    the [Session] it returns. *)
Definition get_or_create_session (conversation_key : string) : M nat :=
  do cached <- cached_session conversation_key ;
  match cached with
  | Some addr =>
      do session <- load addr ;
      do now <- time_time ;
      do a <- get_account ;
      if negb (Session.is_expired now 3600 session)
         && bool_decide (Session.account_name session = Account.name a)
      then
        do now' <- time_time ;
        do _ <- store addr (Session.with_last_used_at now' session) ;
        ret addr
      else
        do _ <- del_session conversation_key ;
        do addr' <- create_session ;
        do _ <- put_session conversation_key addr' ;
        ret addr'
  | None =>
      do addr' <- create_session ;
      do _ <- put_session conversation_key addr' ;
      ret addr'
  end.

(** [upload_file(account, session, mime_type, base64_content)]; the file
    name reads the clock once, and the log line before the request
    evaluates [session.session_id]. *)
Definition upload_file (session : nat) (mime_type base64_content : string) : M json :=
  do jwt <- jwt_get ;
  do now <- time_time ;
  do s <- load session ;
  do _ <- lift (Session.session_id s) ;
  do response <- http_request ;
  if negb (status_code response =? 200) then
    do _ <- penalise response ;
    raise (Exception ("Upload failed: " +:+ str_of_int (status_code response)))
  else
    do data <- lift (json_loads (text response)) ;
    do resp <- lift (py_get data "addContextFileResponse" (JDict [])) ;
    do file_id <- lift (py_get resp "fileId" JNull) ;
    do _ <- (if Json.truthy file_id
         then do s' <- load session ;
              store session (Session.with_file_ids (Session.file_ids s' ++ [file_id]) s')
         else ret tt) ;
    ret file_id.

(** [list_session_files(account, session, filter_type)] *)
Definition list_session_files (session : nat) (filter_type : string) : M json :=
  do jwt <- jwt_get ;
  do s <- load session ;
  do response <- http_request ;
  if negb (status_code response =? 200) then
    ret (JList [])
  else
    do data <- lift (json_loads (text response)) ;
    do resp <- lift (py_get data "listSessionFileMetadataResponse" (JDict [])) ;
    lift (py_get resp "fileMetadata" (JList [])).

(** The state once [upload_file] has got its answer: one clock read (by
    the file name) and one request more than after the token. *)
Definition answered (st : State) : State :=
  {| ticks := S (ticks st); requests := S (requests st); objects := objects st;
     _sessions := _sessions st; account := account st |}.

(** The account after a failed call: penalised at clock reading [now]
    when the status is 401, 403 or 429, untouched otherwise. *)
Definition penalty (now : Z) (response : Response) (a : Account.t) : Account.t :=
  if is_quota_status (status_code response)
  then Account.mark_quota_error cfg now (status_code response) (text response) a
  else a.

(** The state once the cached session at [addr] has been reused: two
    clock reads, the second one stored as its [last_used_at]. *)
Definition reused (addr : nat) (s : Session.t) (st : State) : State :=
  {| ticks := S (S (ticks st)); requests := requests st;
     objects := <[addr := Session.with_last_used_at (clock (S (ticks st))) s]> (objects st);
     _sessions := _sessions st; account := account st |}.

(** The last three lines of [get_or_create_session]:
    [session = await self.create_session(account);
     self._sessions[conversation_key] = session; return session] *)
Definition create_and_cache (key : string) (st : State) : outcome nat * State :=
  match create_session st with
  | (Return addr, st') => (Return addr, with_sessions (<[key := addr]> (_sessions st')) st')
  | (Raise e, st') => (Raise e, st')
  end.

(** The cached session may be reused: it has not expired and belongs to
    the account of the call. *)
Definition reusable (st : State) (s : Session.t) : bool :=
  negb (Session.is_expired (clock (ticks st)) 3600 s)
  && bool_decide (Session.account_name s = Account.name (account st)).

End Calls.

End SessionManager.

(** ** services/chat_handler.py: [JSONStreamParser] *)

Module JSONStreamParser.

(** [c.isspace()] for a code point below 256. *)
Definition is_space (c : ascii) : bool :=
  let v := N_of_ascii c in
  (((9 <=? v) && (v <=? 13)) || ((28 <=? v) && (v <=? 32))
   || (v =? 133) || (v =? 160))%N.

(** [s.lstrip()] *)
Fixpoint lstrip (s : string) : string :=
  match s with
  | EmptyString => EmptyString
  | String c s' => if is_space c then lstrip s' else s
  end.

(** [s[n:]] *)
Fixpoint drop (n : nat) (s : string) : string :=
  match n, s with
  | O, _ => s
  | S n', String _ s' => drop n' s'
  | S _, EmptyString => EmptyString
  end.

(** [c] is [[] or [,]: what the loop skips between values. *)
Definition is_separator (c : ascii) : bool :=
  Ascii.eqb c "[" || Ascii.eqb c ",".

Section Parser.

(** The decoded values. *)
Variable obj : Type.
(** [self.decoder.raw_decode(buffer)]: the value at the head of the
    buffer and the index where it ends, or [None] for
    [json.JSONDecodeError]. *)
Variable raw_decode : string -> option (obj * nat).

(** The [while True] loop of [decode]; [fuel] bounds its iterations. *)
Fixpoint decode_loop (fuel : nat) (buffer : string) (results : list obj)
  : list obj * string :=
  match fuel with
  | O => (results, buffer)
  | S fuel' =>
      match lstrip buffer with
      | EmptyString => (results, EmptyString)
      | String c rest =>
          if is_separator c then decode_loop fuel' rest results
          else match raw_decode (String c rest) with
               | Some (o, idx) =>
                   decode_loop fuel' (drop idx (String c rest)) (results ++ [o])%list
               | None => (results, String c rest)
               end
      end
  end.

(** [decode(chunk)] on a parser whose buffer is [buffer]: the objects
    returned and the buffer left.  Every iteration but the last removes
    a character, so the loop makes at most [len(buffer) + 1]
    iterations. *)
Definition decode (chunk : string) (buffer : string) : list obj * string :=
  let buffer := buffer +:+ chunk in
  decode_loop (S (String.length buffer)) buffer [].

(** The chunks fed one at a time: the concatenation of the lists
    returned and the buffer left at the end. *)
Fixpoint feed (chunks : list string) (buffer : string) : list obj * string :=
  match chunks with
  | [] => ([], buffer)
  | chunk :: chunks' =>
      let '(r1, b1) := decode chunk buffer in
      let '(r2, b2) := feed chunks' b1 in
      ((r1 ++ r2)%list, b2)
  end.

(** The loop run on [buffer] with fuel for [len(buffer) + 1] iterations. *)
Definition run_loop (buffer : string) : list obj * string :=
  decode_loop (S (String.length buffer)) buffer [].

(** The chunks put end to end. *)
Fixpoint whole (chunks : list string) : string :=
  match chunks with
  | [] => EmptyString
  | chunk :: chunks' => chunk +:+ whole chunks'
  end.

(** [raw_decode] reads the object that is the whole of [text]. *)
Definition object_text (text : string) (o : obj) : Prop :=
  (exists rest, text = String "{" rest)
  /\ raw_decode text = Some (o, String.length text).

(** A complete payload and the objects it holds: objects, each complete,
    with white space, [[] and [,] between them, up to the end of the
    text or to a closing []] (what follows a closing bracket is not
    read). *)
Inductive payload : string -> list obj -> Prop :=
| payload_end : payload EmptyString []
| payload_close (rest : string) : payload (String "]" rest) []
| payload_skip (c : ascii) (rest : string) (objs : list obj) :
    is_space c || is_separator c = true ->
    payload rest objs -> payload (String c rest) objs
| payload_object (text : string) (o : obj) (rest : string) (objs : list obj) :
    object_text text o -> payload rest objs -> payload (text +:+ rest) (o :: objs).

End Parser.

(** A small decoder of brace-delimited objects without nesting: the value
    of [{abc}] is [abc]. *)
Fixpoint until_close (s : string) : option (string * nat) :=
  match s with
  | EmptyString => None
  | String c s' =>
      if Ascii.eqb c "}" then Some (EmptyString, 1%nat)
      else if Ascii.eqb c "{" then None
      else match until_close s' with
           | Some (body, n) => Some (String c body, S n)
           | None => None
           end
  end.

Definition braces_decode (s : string) : option (string * nat) :=
  match s with
  | String c s' =>
      if Ascii.eqb c "{" then
        match until_close s' with
        | Some (body, n) => Some (body, S n)
        | None => None
        end
      else None
  | EmptyString => None
  end.

End JSONStreamParser.


(** ** Sample data used by the examples below *)

Module Sample.

Definition manager : JWTManager.t :=
  {| JWTManager.jwt := "token"; JWTManager.expires := 5000 |}.

(** Two accounts whose tokens are valid until 5000. *)
Definition account_A : Account.t :=
  Account.with_jwt_mgr (Some manager) (Account.new "A" "secret-a" "101" "cfg-a" None).

Definition account_B : Account.t :=
  Account.with_jwt_mgr (Some manager) (Account.new "B" "secret-b" "102" "cfg-b" None).

(** The clock stands at 1000. *)
Definition clock : nat -> Z := fun _ => 1000.

Definition json_loads : string -> outcome json :=
  fun body =>
    if String.eqb body "created"
    then Return (JDict [("session", JDict [("name", JStr "sessions/1")])])
    else if String.eqb body "empty" then Return (JDict [])
    else Raise JSONDecodeError.

Definition urlsafe_b64decode : string -> outcome (list byte) := fun _ => Return [].

Definition hmac_sha256 : list byte -> list byte -> list byte := fun _ _ => [].

(** Upstreams that answer every request the same way. *)
Definition upstream_created : nat -> outcome Response :=
  fun _ => Return {| status_code := 200; text := "created" |}.

Definition upstream_empty : nat -> outcome Response :=
  fun _ => Return {| status_code := 200; text := "empty" |}.

Definition upstream_429 : nat -> outcome Response :=
  fun _ => Return {| status_code := 429; text := "quota" |}.

(** A registry without sessions, about to serve account [A]. *)
Definition fresh : SessionManager.State :=
  {| SessionManager.ticks := 0; SessionManager.requests := 0;
     SessionManager.objects := []; SessionManager._sessions := ∅;
     SessionManager.account := account_A |}.

Definition session_1 : Session.t :=
  {| Session.name := JStr "sessions/1"; Session.account_name := "A";
     Session.config_id := "cfg-a"; Session.created_at := 900;
     Session.last_used_at := 900; Session.file_ids := [] |}.

(** A registry holding one session of account [A]. *)
Definition serving : SessionManager.State :=
  {| SessionManager.ticks := 0; SessionManager.requests := 0;
     SessionManager.objects := [session_1];
     SessionManager._sessions := {[ "conversation" := 0%nat ]};
     SessionManager.account := account_A |}.

(** A payload of three objects, cut inside the first and the second. *)
Definition chunks : list string := ["[{a"; "b},  {"; "c}"; ",{d}]"].

End Sample.

(** ** core/account_pool.py: account health over several calls, the session
    cache of the pool and the calls that look for one account *)

(** [mark_quota_error] called several times in a row on one account: each
    element is the clock reading, the status and the detail of one call. *)
Definition mark_quota_errors (cfg : Config.t) (marks : list (Z * Z * string))
    (a : Account.t) : Account.t :=
  fold_left
    (fun acc (m : Z * Z * string) =>
       Account.mark_quota_error cfg (fst (fst m)) (snd (fst m)) (snd m) acc)
    marks a.

Module PoolObjects.

(** The accounts of a pool as Python has them: [objects] are the [Account]
    objects by address, and [accounts] is the list [self.accounts] of the
    addresses of the objects the pool holds, so that one object can be
    held twice. *)
Record t : Type := mk {
  objects : list Account.t;
  accounts : list nat
}.

(** [add_account(account)], [account] being the object at [addr]:
    [account.jwt_mgr = JWTManager(...)] changes the object in place, and
    the object is appended. *)
Definition add_account (addr : nat) (p : t) : t :=
  {| objects := alter (Account.with_jwt_mgr (Some JWTManager.init)) addr (objects p);
     accounts := (accounts p ++ [addr])%list |}.

(** [get_account(name)]: the address of the object returned. *)
Fixpoint find_by_name (objs : list Account.t) (nm : string) (l : list nat) : option nat :=
  match l with
  | [] => None
  | x :: l' =>
      match objs !! x with
      | Some acc => if bool_decide (Account.name acc = nm) then Some x
                    else find_by_name objs nm l'
      | None => find_by_name objs nm l'
      end
  end.

Definition get_account (nm : string) (p : t) : option nat :=
  find_by_name (objects p) nm (accounts p).

(** The accounts the pool holds, by value and in order. *)
Fixpoint values (objs : list Account.t) (l : list nat) : list Account.t :=
  match l with
  | [] => []
  | x :: l' =>
      match objs !! x with
      | Some acc => acc :: values objs l'
      | None => values objs l'
      end
  end.

Definition held (p : t) : list Account.t := values (objects p) (accounts p).

End PoolObjects.

Module ConversationCache.

(** The dict that [cache_session] stores under a conversation key:
    [{"session_id": ..., "account": ..., "updated_at": ...}].
    [cache_session] is the only writer of [_session_cache], so every value
    of the cache has these three keys. *)
Record entry : Type := mk {
  session_id : json;
  account : string;
  updated_at : Z
}.

(** [self._session_cache] *)
Abbreviation t := (gmap string entry).

(** [cache_session(conv_key, session_id, account_name)], [now] being the
    value of its [time.time()]. *)
Definition cache_session (conv_key : string) (sid : json) (account_name : string)
    (now : Z) (c : t) : t :=
  <[conv_key := {| session_id := sid; account := account_name; updated_at := now |}]> c.

(** [get_cached_session(conv_key)] *)
Definition get_cached_session (conv_key : string) (c : t) : option entry :=
  c !! conv_key.

(** [now - v.get("updated_at", 0) > max_age_seconds] *)
Definition is_old (max_age_seconds now : Z) (v : entry) : bool :=
  max_age_seconds <? now - updated_at v.

(** The list [old_keys] of [clear_old_sessions]. *)
Definition old_keys (max_age_seconds now : Z) (c : t) : list string :=
  map fst (List.filter (fun kv => is_old max_age_seconds now (snd kv)) (map_to_list c)).

(** [del d[k]]: [KeyError] when the key is missing. *)
Definition py_del (k : string) (c : t) : outcome t :=
  match c !! k with
  | Some _ => Return (delete k c)
  | None => Raise KeyError
  end.

(** [for k in old_keys: del self._session_cache[k]] *)
Fixpoint del_all (ks : list string) (c : t) : outcome t :=
  match ks with
  | [] => Return c
  | k :: ks' =>
      match py_del k c with
      | Return c' => del_all ks' c'
      | Raise e => Raise e
      end
  end.

(** [clear_old_sessions(max_age_seconds)], [now] being the value of its
    [time.time()]: the number of entries removed and the cache left. *)
Definition clear_old_sessions (max_age_seconds now : Z) (c : t) : outcome (Z * t) :=
  let ks := old_keys max_age_seconds now c in
  match del_all ks c with
  | Return c' => Return (Z.of_nat (length ks), c')
  | Raise e => Raise e
  end.

Section Lookup.

(** [clock k] is the value of the [k]-th call of [time.time()]. *)
Variable clock : nat -> Z.

(** The loop [for acc in self.accounts: if <wanted acc> and
    acc.is_available(): return acc] of [get_for_conversation] and
    [get_alternative]; [and] does not evaluate [is_available], and so
    does not read the clock, for an account that is not wanted.  [k] is
    the number of clock reads so far. *)
Fixpoint first_available (wanted : Account.t -> bool) (accs : list Account.t) (k : nat)
  : option Account.t * nat :=
  match accs with
  | [] => (None, k)
  | acc :: rest =>
      if wanted acc then
        if Account.is_available (clock k) acc then (Some acc, S k)
        else first_available wanted rest (S k)
      else first_available wanted rest k
  end.

(** The accounts of a list that are not called [exclude_name], in
    order. *)
Definition others (exclude_name : string) (accs : list Account.t) : list Account.t :=
  List.filter (fun acc => negb (bool_decide (Account.name acc = exclude_name))) accs.

(** [get_alternative(exclude_name)] *)
Definition get_alternative (exclude_name : string) (p : AccountPool.t) (k : nat)
  : option Account.t * nat :=
  first_available
    (fun acc => negb (bool_decide (Account.name acc = exclude_name)))
    (AccountPool.accounts p) k.

(** [get_for_conversation(conv_key)].  A cached entry is a dict of three
    keys and so is true.  [RuntimeError], a subclass of [Exception], is
    written [Exception]. *)
Definition get_for_conversation (conv_key : string) (c : t) (p : AccountPool.t) (k : nat)
  : outcome Account.t * AccountPool.t * nat :=
  let '(found, k1) :=
    match c !! conv_key with
    | Some cached =>
        first_available
          (fun acc => bool_decide (Account.name acc = account cached))
          (AccountPool.accounts p) k
    | None => (None, k)
    end in
  match found with
  | Some acc => (Return acc, p, k1)
  | None =>
      match AccountPool.get_next_available clock p k1 with
      | (Return (Some acc), p', k2) => (Return acc, p', k2)
      | (Return None, p', k2) => (Raise (Exception "No accounts available"), p', k2)
      | (Raise e, p', k2) => (Raise e, p', k2)
      end
  end.

End Lookup.

End ConversationCache.

(** ** core/session_manager.py: the session id, uploads by URL, downloads,
    the clean-up and the conversation key *)

(** [for x in j] on a decoded JSON value: the elements of a list, the keys
    of a dict, the characters of a string; [TypeError] on the others. *)
Definition py_iter (j : json) : outcome (list json) :=
  match j with
  | JList l => Return l
  | JDict m => Return (map (fun kv => JStr (fst kv)) m)
  | JStr s => Return (map (fun c => JStr (String c EmptyString)) (list_ascii_of_string s))
  | JNull | JBool _ | JInt _ => Raise TypeError
  end.

Module SessionCalls.

Import SessionManager.

(** The state after one more clock read. *)
Definition ticked (st : State) : State :=
  {| ticks := S (ticks st); requests := requests st; objects := objects st;
     _sessions := _sessions st; account := account st |}.

(** The state after one more request. *)
Definition requested (st : State) : State :=
  {| ticks := ticks st; requests := S (requests st); objects := objects st;
     _sessions := _sessions st; account := account st |}.

(** [response.text[4:] if response.text.startswith(")]}'") else
    response.text] of [_refresh]. *)
Definition unguarded (txt : string) : string :=
  if String.prefix ")]}'" txt then substring 4 (String.length txt - 4) txt else txt.

(** The loop of [download_file]:
    [for f in files: if f.get("fileId") == file_id:
       full_session = f.get("session"); break],
    [full_session] being [None] before it. *)
Fixpoint find_file (file_id : string) (files : list json) : outcome json :=
  match files with
  | [] => Return JNull
  | f :: rest =>
      match py_get f "fileId" JNull with
      | Raise e => Raise e
      | Return v =>
          if is_str file_id v then py_get f "session" JNull
          else find_file file_id rest
      end
  end.

(** [del self._sessions[k]]: [KeyError] when the key is missing. *)
Definition py_del_session (k : string) : M unit :=
  fun st =>
    match _sessions st !! k with
    | Some _ => (Return tt, with_sessions (delete k (_sessions st)) st)
    | None => (Raise KeyError, st)
    end.

(** [for k in expired_keys: del self._sessions[k]] *)
Fixpoint del_sessions (ks : list string) : M unit :=
  match ks with
  | [] => ret tt
  | k :: ks' => bind (py_del_session k) (fun _ => del_sessions ks')
  end.

Section Calls.

Open Scope session_scope.

Variable cfg : Config.t.
Variable clock : nat -> Z.
Variable upstream : nat -> outcome Response.
Variable json_loads : string -> outcome json.
Variable urlsafe_b64decode : string -> outcome (list byte).
Variable hmac_sha256 : list byte -> list byte -> list byte.
(** [response.content], the body as bytes. *)
Variable content : Response -> list byte.

#[local] Abbreviation jwt_get :=
  (SessionManager.jwt_get cfg clock upstream json_loads urlsafe_b64decode hmac_sha256).
#[local] Abbreviation list_session_files :=
  (SessionManager.list_session_files cfg clock upstream json_loads urlsafe_b64decode
     hmac_sha256).

(** Several callers of [get] on the account at once.
    [async with self._lock] spans the whole body of [get], so the bodies
    of the callers run one after another, each on the state the one
    before it left, and an exception in one does not stop the others:
    the results in the order the lock was taken, and the state after the
    last. *)
Fixpoint gets (n : nat) (st : State) : list (outcome string) * State :=
  match n with
  | O => ([], st)
  | S n' =>
      let '(r, st1) := jwt_get st in
      let '(rs, st2) := gets n' st1 in
      (r :: rs, st2)
  end.

(** [upload_file_by_url(account, session, file_url)]; the log line before
    the request evaluates [session.session_id]. *)
Definition upload_file_by_url (session : nat) (file_url : string) : M json :=
  do jwt <- jwt_get ;
  do s <- load session ;
  do _ <- lift (Session.session_id s) ;
  do response <- http_request upstream ;
  if negb (status_code response =? 200) then
    do _ <- penalise cfg clock response ;
    raise (Exception ("URL upload failed: " +:+ str_of_int (status_code response)))
  else
    do data <- lift (json_loads (text response)) ;
    do resp <- lift (py_get data "addContextFileResponse" (JDict [])) ;
    do file_id <- lift (py_get resp "fileId" JNull) ;
    do _ <- (if Json.truthy file_id
         then do s' <- load session ;
              store session (Session.with_file_ids (Session.file_ids s' ++ [file_id]) s')
         else ret tt) ;
    ret file_id.

(** [download_file(account, session, file_id)]: [None] or the bytes. *)
Definition download_file (session : nat) (file_id : string) : M (option (list byte)) :=
  do jwt <- jwt_get ;
  do files <- list_session_files session "file_origin_type = AI_GENERATED" ;
  do items <- lift (py_iter files) ;
  do full_session <- lift (find_file file_id items) ;
  if negb (Json.truthy full_session) then ret None
  else
    do response <- http_request upstream ;
    if negb (status_code response =? 200) then ret None
    else ret (Some (content response)).

(** The list [expired_keys] of [cleanup_expired]: [is_expired] reads the
    clock once for every session. *)
Fixpoint expired_keys (max_age_seconds : Z) (items : list (string * nat))
  : M (list string) :=
  match items with
  | [] => ret []
  | (k, addr) :: rest =>
      do s <- load addr ;
      do now <- time_time clock ;
      do ks <- expired_keys max_age_seconds rest ;
      ret (if Session.is_expired now max_age_seconds s then k :: ks else ks)
  end.

(** [cleanup_expired(max_age_seconds)].  Python goes through
    [self._sessions.items()] in the order of insertion, which the map of
    the model does not record; here the order is the one of
    [map_to_list]. *)
Definition cleanup_expired (max_age_seconds : Z) : M Z :=
  do items <- (fun st => (Return (map_to_list (_sessions st)), st)) ;
  do ks <- expired_keys max_age_seconds items ;
  do _ <- del_sessions ks ;
  ret (Z.of_nat (length ks)).

End Calls.

Section ConversationKey.

(** [hashlib.md5(data).hexdigest()] *)
Variable md5_hexdigest : list byte -> string.
(** [str(x)] for a decoded JSON value that is not a string. *)
Variable py_str : json -> string.
(** What [d[:500]] raises on a dict: [TypeError] up to Python 3.11,
    [KeyError] from Python 3.12 on. *)
Variable dict_slice_error : exn.

(** How an f-string writes a value. *)
Definition format_value (j : json) : string :=
  match j with
  | JStr s => s
  | _ => py_str j
  end.

(** The list of [x.get("text", <empty string>)] for the [x] in [content]
    with [isinstance(x, dict) and x.get("type") == "text"]. *)
Fixpoint text_parts (content : list json) : list json :=
  match content with
  | [] => []
  | JDict m :: rest =>
      match Json.dict_get "type" m with
      | Some (JStr "text") =>
          match Json.dict_get "text" m with
          | Some v => v :: text_parts rest
          | None => JStr EmptyString :: text_parts rest
          end
      | _ => text_parts rest
      end
  | _ :: rest => text_parts rest
  end.

(** [sep.join(parts)]: [TypeError] unless every part is a string. *)
Fixpoint py_join (sep : string) (parts : list json) : outcome (list string) :=
  match parts with
  | [] => Return []
  | JStr s :: rest =>
      match py_join sep rest with
      | Return l => Return (s :: l)
      | Raise e => Raise e
      end
  | _ :: _ => Raise TypeError
  end.

(** [get_conversation_key(messages)], [uuid_hex] being the value of
    [uuid.uuid4().hex]. *)
Definition get_conversation_key (uuid_hex : string) (messages : list json)
  : outcome string :=
  match messages with
  | [] => Return ("empty_" +:+ substring 0 8 uuid_hex)
  | JDict first_msg :: _ =>
      let content :=
        match Json.dict_get "content" first_msg with
        | Some v => v
        | None => JStr EmptyString
        end in
      let joined :=
        match content with
        | JList l =>
            match py_join EmptyString (text_parts l) with
            | Return parts => Return (JStr (join EmptyString parts))
            | Raise e => Raise e
            end
        | _ => Return content
        end in
      match joined with
      | Raise e => Raise e
      | Return c =>
          let role :=
            match Json.dict_get "role" first_msg with
            | Some v => v
            | None => JStr EmptyString
            end in
          match c with
          | JStr s =>
              Return (md5_hexdigest
                        (utf8_encode (format_value role +:+ ":" +:+ substring 0 500 s)))
          | JDict _ => Raise dict_slice_error
          | _ => Raise TypeError
          end
      end
  | _ :: _ => Raise AttributeError
  end.

End ConversationKey.

End SessionCalls.

(** ** services/chat_handler.py, core/config.py and api/openai_compat.py:
    request helpers *)

(** [needle in s] on strings. *)
Fixpoint contains (needle s : string) : bool :=
  String.prefix needle s
  || match s with
     | EmptyString => false
     | String _ s' => contains needle s'
     end.

(** [s.split(c, 1)] for a one-character [c]: [None] stands for the
    one-element list [[s]], [Some (a, b)] for [[a, b]]. *)
Fixpoint split_once (c : ascii) (s : string) : option (string * string) :=
  match s with
  | EmptyString => None
  | String x s' =>
      if Ascii.eqb x c then Some (EmptyString, s')
      else match split_once c s' with
           | Some (a, b) => Some (String x a, b)
           | None => None
           end
  end.

(** A line feed. *)
Definition nl : string := String "010"%char EmptyString.

Module ModelConfig.

(** [Config.MODEL_MAPPING] *)
Definition MODEL_MAPPING : list (string * option string) :=
  [ ("gemini-auto", None);
    ("gemini-2.5-flash", Some "gemini-2.5-flash");
    ("gemini-2.5-pro", Some "gemini-2.5-pro");
    ("gemini-3-pro-preview", Some "gemini-3-pro-preview");
    ("gemini-3-pro", Some "gemini-3-pro");
    ("gemini-2.5-flash-image", Some "gemini-2.5-flash");
    ("gemini-2.5-pro-image", Some "gemini-2.5-pro");
    ("gemini-3-pro-preview-image", Some "gemini-3-pro-preview");
    ("gemini-3-pro-image", Some "gemini-3-pro");
    ("gemini-2.5-flash-video", Some "gemini-2.5-flash");
    ("gemini-2.5-pro-video", Some "gemini-2.5-pro");
    ("gemini-3-pro-preview-video", Some "gemini-3-pro-preview");
    ("gemini-3-pro-video", Some "gemini-3-pro");
    ("gemini-2.5-flash-search", Some "gemini-2.5-flash");
    ("gemini-2.5-pro-search", Some "gemini-2.5-pro");
    ("gemini-3-pro-preview-search", Some "gemini-3-pro-preview");
    ("gemini-3-pro-search", Some "gemini-3-pro") ].

(** [Config.SUPPORTED_MODELS = list(MODEL_MAPPING.keys())] *)
Definition SUPPORTED_MODELS : list string := map fst MODEL_MAPPING.

(** [d.get(key)] on the mapping. *)
Fixpoint mapping_get (key : string) (m : list (string * option string))
  : option (option string) :=
  match m with
  | [] => None
  | (k, v) :: m' => if String.eqb k key then Some v else mapping_get key m'
  end.

(** [Config.get_model_id(model_name)]:
    [MODEL_MAPPING.get(model_name, model_name)]. *)
Definition get_model_id (model_name : string) : option string :=
  match mapping_get model_name MODEL_MAPPING with
  | Some v => v
  | None => Some model_name
  end.

Definition is_image_model (model_name : string) : bool := contains "-image" model_name.
Definition is_video_model (model_name : string) : bool := contains "-video" model_name.
Definition is_search_model (model_name : string) : bool := contains "-search" model_name.

(** [ChatHandler._build_tools_spec(model)]: the keys of the dict in the
    order they are set. *)
Definition _build_tools_spec (model : string) : list (string * json) :=
  if is_image_model model then [("imageGenerationSpec", JDict [])]
  else if is_video_model model then [("videoGenerationSpec", JDict [])]
  else if is_search_model model then [("webGroundingSpec", JDict [])]
  else [("webGroundingSpec", JDict []);
        ("toolRegistry", JStr "default_tool_registry");
        ("imageGenerationSpec", JDict []);
        ("videoGenerationSpec", JDict [])].

End ModelConfig.

Module ChatHandler.

Definition octet_stream : string := "application/octet-stream".

(** [_parse_data_url(data_url)]: the MIME type and the data. *)
Definition _parse_data_url (data_url : string) : string * string :=
  if negb (String.prefix "data:" data_url) then (octet_stream, data_url)
  else
    match split_once "," data_url with
    | None => (octet_stream, data_url)
    | Some (header, data) =>
        let mime_type :=
          if contains_char ";" header then
            let mime_part :=
              match split_on ";" header with
              | w :: _ => w
              | [] => EmptyString
              end in
            if String.prefix "data:" mime_part
            then JSONStreamParser.drop 5 mime_part
            else octet_stream
          else octet_stream in
        (mime_type, data)
    end.

Section Prompt.

(** [str(x)] for a decoded JSON value that is not a string. *)
Variable py_str : json -> string.

#[local] Abbreviation format_value := (SessionCalls.format_value py_str).

(** The loop over the parts of a content that is a list: the [text] of
    the dicts of type [text], and the parts that are strings. *)
Fixpoint prompt_parts (content : list json) : list json :=
  match content with
  | [] => []
  | JDict m :: rest =>
      match Json.dict_get "type" m with
      | Some (JStr "text") =>
          match Json.dict_get "text" m with
          | Some v => v :: prompt_parts rest
          | None => JStr EmptyString :: prompt_parts rest
          end
      | _ => prompt_parts rest
      end
  | JStr s :: rest => JStr s :: prompt_parts rest
  | _ :: rest => prompt_parts rest
  end.

(** The content of a message as the loop of [_build_prompt] uses it: a
    list is replaced by its text parts joined by line feeds. *)
Definition message_content (msg : json) : outcome json :=
  match py_get msg "content" (JStr EmptyString) with
  | Raise e => Raise e
  | Return (JList l) =>
      match SessionCalls.py_join nl (prompt_parts l) with
      | Return parts => Return (JStr (join nl parts))
      | Raise e => Raise e
      end
  | Return c => Return c
  end.

(** The [for msg in messages] loop of [_build_prompt]: [parts] and
    [system_prompt] as they stand. *)
Fixpoint build_loop (messages : list json) (parts : list string) (system_prompt : json)
  : outcome (list string * json) :=
  match messages with
  | [] => Return (parts, system_prompt)
  | msg :: rest =>
      match py_get msg "role" (JStr "user") with
      | Raise e => Raise e
      | Return role =>
          match message_content msg with
          | Raise e => Raise e
          | Return content =>
              if is_str "system" role then build_loop rest parts content
              else if is_str "user" role then
                build_loop rest (parts ++ ["Human: " +:+ format_value content])%list
                  system_prompt
              else if is_str "assistant" role then
                build_loop rest (parts ++ ["Assistant: " +:+ format_value content])%list
                  system_prompt
              else build_loop rest parts system_prompt
          end
      end
  end.

(** [_build_prompt(messages)] *)
Definition _build_prompt (messages : list json) : outcome string :=
  match build_loop messages [] (JStr EmptyString) with
  | Raise e => Raise e
  | Return (parts, system_prompt) =>
      let result :=
        if Json.truthy system_prompt
        then "<system>" +:+ nl +:+ format_value system_prompt +:+ nl
             +:+ "</system>" +:+ nl +:+ nl
        else EmptyString in
      let result :=
        match parts with
        | [] => result
        | _ => result +:+ join (nl +:+ nl) parts
        end in
      Return (result +:+ nl +:+ nl +:+ "Assistant:")
  end.

End Prompt.

End ChatHandler.

Module OpenAICompat.

(** [HTTPException(status_code=..., detail=...)] *)
Inductive http_error : Type :=
| HTTPException (status_code : Z) (detail : string).

(** [verify_api_key(authorization)]: the token, or the exception raised;
    [None] is a request without the header. *)
Definition verify_api_key (authorization : option string) : http_error + string :=
  match authorization with
  | None => inl (HTTPException 401 "Missing API key")
  | Some a =>
      if bool_decide (a = EmptyString) then inl (HTTPException 401 "Missing API key")
      else
        let token := if String.prefix "Bearer " a then JSONStreamParser.drop 7 a else a in
        if bool_decide (token = EmptyString) then inl (HTTPException 401 "Invalid API key")
        else inr token
  end.

End OpenAICompat.

(** ** services/chat_handler.py: reading the answers of the upstream *)

(** Sequencing of calls that may raise. *)
Definition obind {A B : Type} (c : outcome A) (k : A -> outcome B) : outcome B :=
  match c with
  | Return a => k a
  | Raise e => Raise e
  end.

Declare Scope outcome_scope.
Delimit Scope outcome_scope with outcome.
Notation "'do' x <- c ; k" := (obind c (fun x => k))
  (at level 10, x pattern, c at level 100, k at level 200) : outcome_scope.

(** [s.rstrip()] and [s.strip()] *)
Fixpoint rstrip_space (s : string) : string :=
  match s with
  | EmptyString => EmptyString
  | String x s' =>
      match rstrip_space s' with
      | EmptyString => if JSONStreamParser.is_space x then EmptyString else String x EmptyString
      | r => String x r
      end
  end.

Definition strip (s : string) : string := rstrip_space (JSONStreamParser.lstrip s).

Module Extract.

Open Scope outcome_scope.

(** The dataclass [ChatImage]; [JNull] is [None]. *)
Record ChatImage : Type := mkImage {
  file_id : json;
  file_name : json;
  base64_data : json;
  url : json;
  mime_type : json
}.

(** [ChatImage(base64_data=..., mime_type=...)] *)
Definition inline_image (data mime : json) : ChatImage :=
  {| file_id := JNull; file_name := JNull; base64_data := data; url := JNull;
     mime_type := mime |}.

(** [ChatImage(file_id=..., mime_type=...)] *)
Definition file_image (fid mime : json) : ChatImage :=
  {| file_id := fid; file_name := JNull; base64_data := JNull; url := JNull;
     mime_type := mime |}.

Definition banner : string := "Image generated by Nano Banana Pro".

(** [s += j] for a string [s]: [TypeError] unless [j] is a string. *)
Definition str_add (s : string) (j : json) : outcome string :=
  match j with
  | JStr t => Return (s +:+ t)
  | _ => Raise TypeError
  end.

(** [needle not in j] for a string [needle]: a substring test on a
    string, membership in a list, membership among the keys of a dict. *)
Definition py_not_in (needle : string) (j : json) : outcome bool :=
  match j with
  | JStr t => Return (negb (contains needle t))
  | JList l => Return (negb (existsb (is_str needle) l))
  | JDict m =>
      Return (match Json.dict_get needle m with Some _ => false | None => true end)
  | JNull | JBool _ | JInt _ => Raise TypeError
  end.

(** The body of [for gen_img in ....get("generatedImages", [])]. *)
Definition generated_image (gen_img : json) (images : list ChatImage)
  : outcome (list ChatImage) :=
  do image_data <- py_get gen_img "image" (JDict []) ;
  do b64_data <- py_get image_data "bytesBase64Encoded" JNull ;
  if Json.truthy b64_data then
    do mime <- py_get image_data "mimeType" (JStr "image/png") ;
    Return (images ++ [inline_image b64_data mime])%list
  else Return images.

Fixpoint generated_images (items : list json) (images : list ChatImage)
  : outcome (list ChatImage) :=
  match items with
  | [] => Return images
  | gen_img :: rest =>
      do images' <- generated_image gen_img images ;
      generated_images rest images'
  end.

(** [for gen_img in owner.get("generatedImages", []): ...] *)
Definition collect_generated (owner : json) (images : list ChatImage)
  : outcome (list ChatImage) :=
  do l <- py_get owner "generatedImages" (JList []) ;
  do items <- py_iter l ;
  generated_images items images.

(** The body of [for reply in answer.get("replies", [])]; the state is
    [text], [reasoning] and [images]. *)
Definition reply_step (reply : json) (st : string * string * list ChatImage)
  : outcome (string * string * list ChatImage) :=
  let '(text, reasoning, images) := st in
  do images1 <- collect_generated reply images ;
  do gc <- py_get reply "groundedContent" (JDict []) ;
  do content <- py_get gc "content" (JDict []) ;
  do thought <- py_get content "thought" (JBool false) ;
  do text_content <- py_get content "text" (JStr EmptyString) ;
  do tr <- (if Json.truthy thought then
              do r <- str_add reasoning text_content ;
              Return (text, r)
            else if Json.truthy text_content then
              do keep <- py_not_in banner text_content ;
              if keep then
                do t <- str_add text text_content ;
                Return (t, reasoning)
              else Return (text, reasoning)
            else Return (text, reasoning)) ;
  do inline_data <- py_get content "inlineData" (JDict []) ;
  do images2 <- (if Json.truthy inline_data then
                   do d <- py_get inline_data "data" JNull ;
                   if Json.truthy d then
                     do mime <- py_get inline_data "mimeType" (JStr "image/png") ;
                     Return (images1 ++ [inline_image d mime])%list
                   else Return images1
                 else Return images1) ;
  do file_info <- py_get content "file" (JDict []) ;
  do images3 <- (if Json.truthy file_info then
                   do f <- py_get file_info "fileId" JNull ;
                   if Json.truthy f then
                     do mime <- py_get file_info "mimeType" (JStr "image/png") ;
                     Return (images2 ++ [file_image f mime])%list
                   else Return images2
                 else Return images2) ;
  Return (fst tr, snd tr, images3).

Fixpoint replies_loop (replies : list json) (st : string * string * list ChatImage)
  : outcome (string * string * list ChatImage) :=
  match replies with
  | [] => Return st
  | reply :: rest =>
      do st' <- reply_step reply st ;
      replies_loop rest st'
  end.

(** [_extract_content(data)]: [text], [reasoning] and [images]. *)
Definition _extract_content (data : json) : outcome (string * string * list ChatImage) :=
  do sar <- py_get data "streamAssistResponse" data ;
  do images <- collect_generated sar [] ;
  do answer <- py_get sar "answer" (JDict []) ;
  do images' <- collect_generated answer images ;
  do replies <- py_get answer "replies" (JList []) ;
  do items <- py_iter replies ;
  replies_loop items (EmptyString, EmptyString, images').

(** A reply that carries a text, marked as a thought or not:
    [{"groundedContent": {"content": {"text": t, "thought": b}}}]. *)
Definition text_reply (r : string * bool) : json :=
  JDict [("groundedContent",
          JDict [("content", JDict [("text", JStr (fst r)); ("thought", JBool (snd r))])])].

(** An answer of the upstream with these replies:
    [{"streamAssistResponse": {"answer": {"replies": [...]}}}]. *)
Definition answer_of (replies : list json) : json :=
  JDict [("streamAssistResponse", JDict [("answer", JDict [("replies", JList replies)])])].

(** The texts of the replies that are not thoughts and do not carry the
    banner, put end to end; and the texts of the thoughts. *)
Fixpoint answer_text (rs : list (string * bool)) : string :=
  match rs with
  | [] => EmptyString
  | (t, b) :: rest =>
      if negb b && negb (contains banner t) then t +:+ answer_text rest
      else answer_text rest
  end.

Fixpoint answer_reasoning (rs : list (string * bool)) : string :=
  match rs with
  | [] => EmptyString
  | (t, b) :: rest => if b then t +:+ answer_reasoning rest else answer_reasoning rest
  end.

End Extract.

Module Stream.

Section Lines.

(** [json.loads] *)
Variable json_loads : string -> outcome json.
(** The [chat_id], [created] and [model] of the stream. *)
Variable chat_id : string.
Variable created : Z.
Variable model : string.

(** [_create_chunk(chat_id, created, model, delta, finish_reason)] *)
Definition _create_chunk (delta : json) (finish_reason : json) : json :=
  JDict [("id", JStr chat_id);
         ("object", JStr "chat.completion.chunk");
         ("created", JInt created);
         ("model", JStr model);
         ("choices", JList [JDict [("index", JInt 0);
                                   ("delta", delta);
                                   ("finish_reason", finish_reason)]])].

(** What the [while] loop of [_stream_chat] does with one line, once it
    has been cut off the buffer: the chunks it yields, or the exception
    that leaves the generator.  [json.JSONDecodeError] is caught and the
    line skipped. *)
Definition handle_line (raw : string) : outcome (list json) :=
  let line := strip raw in
  if bool_decide (line = EmptyString) then Return []
  else
    let line := if String.prefix ")]}'" line then JSONStreamParser.drop 4 line else line in
    if bool_decide (line = EmptyString) then Return []
    else
      match obind (json_loads line) Extract._extract_content with
      | Raise JSONDecodeError => Return []
      | Raise e => Raise e
      | Return (text, reasoning, _) =>
          Return ((if bool_decide (reasoning = EmptyString) then []
                   else [_create_chunk (JDict [("reasoning", JStr reasoning)]) JNull])
                  ++ (if bool_decide (text = EmptyString) then []
                      else [_create_chunk
                              (JDict [("role", JStr "assistant"); ("content", JStr text)])
                              JNull]))%list
      end.

(** [while "\n" in buffer: line, buffer = buffer.split("\n", 1); ...]:
    the chunks yielded, and the buffer left or the exception raised.
    Every iteration removes a line feed from the buffer, so [fuel]
    above its length is never used up. *)
Fixpoint lines_loop (fuel : nat) (buffer : string) : list json * outcome string :=
  match fuel with
  | O => ([], Return buffer)
  | S fuel' =>
      match split_once "010" buffer with
      | None => ([], Return buffer)
      | Some (line, rest) =>
          match handle_line line with
          | Raise e => ([], Raise e)
          | Return ys =>
              let '(ys', r) := lines_loop fuel' rest in
              ((ys ++ ys')%list, r)
          end
      end
  end.

(** [async for chunk in response.aiter_text(): buffer += chunk; while
    ...]: the chunks yielded over the whole stream, and the buffer left
    at its end or the exception raised. *)
Fixpoint stream_loop (chunks : list string) (buffer : string)
  : list json * outcome string :=
  match chunks with
  | [] => ([], Return buffer)
  | chunk :: chunks' =>
      let buffer1 := buffer +:+ chunk in
      match lines_loop (S (String.length buffer1)) buffer1 with
      | (ys, Raise e) => (ys, Raise e)
      | (ys, Return buffer2) =>
          let '(ys', r) := stream_loop chunks' buffer2 in
          ((ys ++ ys')%list, r)
      end
  end.

(** The chunks yielded for these lines in turn, up to the first line
    that raises. *)
Fixpoint handle_lines (lines : list string) : list json * option exn :=
  match lines with
  | [] => ([], None)
  | l :: ls =>
      match handle_line l with
      | Raise e => ([], Some e)
      | Return ys =>
          let '(ys', r) := handle_lines ls in
          ((ys ++ ys')%list, r)
      end
  end.

End Lines.

(** How the loops return what handling a list of lines gave: the chunks
    yielded, and the exception raised or the buffer left. *)
Definition finish (r : list json * option exn) (buffer : string)
  : list json * outcome string :=
  (fst r, match snd r with Some e => Raise e | None => Return buffer end).

(** The lines of a text that end with a line feed, without it, and what
    follows the last line feed. *)
Fixpoint complete_lines (s : string) : list string * string :=
  match s with
  | EmptyString => ([], EmptyString)
  | String c s' =>
      let '(ls, tail) := complete_lines s' in
      if Ascii.eqb c "010" then (EmptyString :: ls, tail)
      else match ls with
           | [] => ([], String c tail)
           | l :: ls' => (String c l :: ls', tail)
           end
  end.

End Stream.

(** ** core/account_pool.py: [Account.to_dict] *)

Module AccountView.

(** [value[:20] + "..." if value else <empty string>] *)
Definition masked (value : string) : string :=
  if bool_decide (value = EmptyString) then EmptyString
  else substring 0 20 value +:+ "...".

Definition with_secure_c_ses (v : string) (a : Account.t) : Account.t :=
  {| Account.name := Account.name a; Account.secure_c_ses := v;
     Account.csesidx := Account.csesidx a; Account.config_id := Account.config_id a;
     Account.host_c_oses := Account.host_c_oses a; Account.jwt_mgr := Account.jwt_mgr a;
     Account.disabled_until := Account.disabled_until a;
     Account.fail_count := Account.fail_count a;
     Account.last_used_at := Account.last_used_at a;
     Account.last_error := Account.last_error a;
     Account.cookie_status := Account.cookie_status a;
     Account.cookie_expires_at := Account.cookie_expires_at a |}.

Definition with_host_c_oses (v : option string) (a : Account.t) : Account.t :=
  {| Account.name := Account.name a; Account.secure_c_ses := Account.secure_c_ses a;
     Account.csesidx := Account.csesidx a; Account.config_id := Account.config_id a;
     Account.host_c_oses := v; Account.jwt_mgr := Account.jwt_mgr a;
     Account.disabled_until := Account.disabled_until a;
     Account.fail_count := Account.fail_count a;
     Account.last_used_at := Account.last_used_at a;
     Account.last_error := Account.last_error a;
     Account.cookie_status := Account.cookie_status a;
     Account.cookie_expires_at := Account.cookie_expires_at a |}.

Section View.

(** [clock k] is the value of the [k]-th call of [time.time()]. *)
Variable clock : nat -> Z.
(** [d.isoformat()] for a date. *)
Variable isoformat : Z -> string.

Definition optional_date (d : option Z) : json :=
  match d with
  | Some v => JStr (isoformat v)
  | None => JNull
  end.

(** [to_dict()], with [k] clock reads made so far: the items of the dict
    in order.  [is_available] and [get_remaining_cooldown] read the clock
    once each. *)
Definition to_dict (a : Account.t) (k : nat) : list (string * json) * nat :=
  ([("name", JStr (Account.name a));
    ("secure_c_ses", JStr (masked (Account.secure_c_ses a)));
    ("csesidx", JStr (Account.csesidx a));
    ("config_id", JStr (Account.config_id a));
    ("host_c_oses",
     JStr (match Account.host_c_oses a with
           | Some h => masked h
           | None => EmptyString
           end));
    ("is_available", JBool (Account.is_available (clock k) a));
    ("fail_count", JInt (Account.fail_count a));
    ("last_error",
     match Account.last_error a with
     | Some e => JStr e
     | None => JNull
     end);
    ("last_used_at", optional_date (Account.last_used_at a));
    ("remaining_cooldown", JInt (Account.get_remaining_cooldown (clock (S k)) a));
    ("cookie_status", JStr (Account.cookie_status a));
    ("cookie_expires_at", optional_date (Account.cookie_expires_at a))],
   S (S k)).

End View.

End AccountView.

(** ** More sample data *)

Module Fixture.

(** A key exchange that is granted: the body carries a key and its id. *)
Definition granted_loads : string -> outcome json :=
  fun _ => Return (JDict [("xsrfToken", JStr "a2V5"); ("keyId", JStr "kid-1")]).

Definition upstream_granted : nat -> outcome Response :=
  fun _ => Return {| status_code := 200; text := ")]}'{}" |}.

(** Account [A] with a token that ran out at 500. *)
Definition stale : SessionManager.State :=
  {| SessionManager.ticks := 0; SessionManager.requests := 0;
     SessionManager.objects := []; SessionManager._sessions := ∅;
     SessionManager.account :=
       Account.with_jwt_mgr
         (Some {| JWTManager.jwt := "old"; JWTManager.expires := 500 |})
         Sample.account_A |}.

(** A body whose [addContextFileResponse] is null. *)
Definition null_loads : string -> outcome json :=
  fun _ => Return (JDict [("addContextFileResponse", JNull)]).

End Fixture.
(** * Properties *)

(** ** Cooldown tiers of [mark_quota_error] *)

Lemma cooldown_of_auth cfg status :
  status = 401 \/ status = 403 ->
  Account.cooldown_of cfg status = Config.AUTH_ERROR_COOLDOWN_SECONDS cfg.
Proof.
  intros [-> | ->]; reflexivity.
Qed.

Lemma cooldown_of_other cfg status :
  status <> 401 -> status <> 403 -> status <> 429 ->
  Account.cooldown_of cfg status = Config.ACCOUNT_COOLDOWN_SECONDS cfg.
Proof.
  intros H1 H2 H3. unfold Account.cooldown_of.
  destruct (Z.eqb_spec status 401); [lia|].
  destruct (Z.eqb_spec status 403); [lia|].
  destruct (Z.eqb_spec status 429); [lia|].
  reflexivity.
Qed.

(** C2, as stated, fails: with the configuration the code ships, status 429
    and any status outside 401/403/429 (here 500) get the same cooldown, so
    the default tier is not shorter than the 429 tier. *)
Lemma C2_tiers_not_strict :
  ~ (Account.cooldown_of Config.default 500 < Account.cooldown_of Config.default 429
     /\ Account.cooldown_of Config.default 429 < Account.cooldown_of Config.default 401).
Proof.
  vm_compute. intros [H _]. discriminate H.
Qed.

(** C2, amended: [mark_quota_error] picks the cooldown by status class
    (401/403: [AUTH_ERROR_COOLDOWN_SECONDS]; 429:
    [RATE_LIMIT_COOLDOWN_SECONDS]; anything else:
    [ACCOUNT_COOLDOWN_SECONDS]).  With the shipped defaults these are 900,
    300 and 300 seconds: the auth tier is the longest, and the 429 tier
    equals the default tier instead of lying strictly between the two.  In
    every case [disabled_until] becomes [max(disabled_until, now + cooldown)],
    which never shortens a cooldown, and [fail_count] grows by one. *)
Theorem C2_mark_quota_error_tiers :
  forall (cfg : Config.t) (now status : Z) (detail : string) (a : Account.t),
    let a' := Account.mark_quota_error cfg now status detail a in
    Account.disabled_until a'
      = Z.max (Account.disabled_until a) (now + Account.cooldown_of cfg status)
    /\ Account.fail_count a' = Account.fail_count a + 1
    /\ Account.disabled_until a <= Account.disabled_until a'
    /\ (status = 401 \/ status = 403 ->
        Account.cooldown_of cfg status = Config.AUTH_ERROR_COOLDOWN_SECONDS cfg)
    /\ (status = 429 ->
        Account.cooldown_of cfg status = Config.RATE_LIMIT_COOLDOWN_SECONDS cfg)
    /\ (status <> 401 -> status <> 403 -> status <> 429 ->
        Account.cooldown_of cfg status = Config.ACCOUNT_COOLDOWN_SECONDS cfg)
    /\ Account.cooldown_of Config.default 401 = 900
    /\ Account.cooldown_of Config.default 403 = 900
    /\ Account.cooldown_of Config.default 429 = 300
    /\ (status <> 401 -> status <> 403 -> status <> 429 ->
        Account.cooldown_of Config.default status = 300).
Proof.
  intros cfg now status detail a a'. subst a'. cbn.
  repeat split; try reflexivity.
  - lia.
  - apply cooldown_of_auth.
  - intros ->. reflexivity.
  - apply cooldown_of_other.
  - apply cooldown_of_other.
Qed.

(** The theorem at a concrete account and status. *)
Lemma C2_mark_quota_error_tiers_witness :
  let a := Account.new "acc-1" "s" "42" "cfg" None in
  let a' := Account.mark_quota_error Config.default 1000 429 "quota" a in
  Account.disabled_until a' = 1300 /\ Account.fail_count a' = 1.
Proof.
  intros a a'.
  destruct (C2_mark_quota_error_tiers Config.default 1000 429 "quota" a)
    as (Hd & Hf & _).
  split; [exact Hd | exact Hf].
Defined.

(** ** Round-robin selection *)

Section PoolFacts.

Variable clock : nat -> Z.

Lemma list_getitem_in_range {A : Type} (l : list A) (i : Z) :
  0 <= i < Z.of_nat (length l) ->
  exists x, list_getitem l i = Return x /\ l !! Z.to_nat i = Some x.
Proof.
  intros Hi. unfold list_getitem.
  rewrite (proj2 (Z.ltb_ge i 0)) by lia.
  rewrite (proj2 (Z.ltb_ge i 0)) by lia.
  rewrite (proj2 (Z.leb_gt (Z.of_nat (length l)) i)) by lia. cbn.
  destruct (l !! Z.to_nat i) as [x|] eqn:Hx.
  - exists x. split; reflexivity.
  - apply lookup_ge_None in Hx. lia.
Qed.

Lemma pos_lt n rr s : 0 < n -> (AccountPool.pos n rr s < Z.to_nat n)%nat.
Proof.
  intros Hn. unfold AccountPool.pos.
  pose proof (Z.mod_pos_bound (rr + Z.of_nat s) n Hn). lia.
Qed.

Lemma pos_shift n rr s : 0 < n -> AccountPool.pos n ((rr + 1) mod n) s = AccountPool.pos n rr (S s).
Proof.
  intros Hn. unfold AccountPool.pos. f_equal.
  rewrite Zplus_mod_idemp_l. f_equal; lia.
Qed.

Lemma scan_spec accs n steps rr k :
  n = Z.of_nat (length accs) -> 0 < n ->
  AccountPool.scan_post clock accs n steps rr k (AccountPool.scan clock accs n steps rr k).
Proof.
  intros Hn Hpos. revert rr k.
  induction steps as [|steps IH]; intros rr k.
  - right. exists rr. cbn. repeat split; try congruence; try (intros; lia).
    do 2 f_equal. lia.
  - cbn [AccountPool.scan].
    pose proof (Z.mod_pos_bound rr n Hpos) as Hb.
    destruct (list_getitem_in_range accs (rr mod n)) as (acc & -> & Hacc); [lia|].
    assert (Hp0 : AccountPool.pos n rr 0 = Z.to_nat (rr mod n)).
    { unfold AccountPool.pos. do 2 f_equal. lia. }
    destruct (Account.is_available (clock k) acc) eqn:Hav.
    + left. exists O, acc. repeat split.
      * lia.
      * rewrite Hp0. exact Hacc.
      * replace (k + 0)%nat with k by lia. exact Hav.
      * intros; lia.
      * f_equal; [f_equal; f_equal; lia | lia].
    + destruct (IH ((rr + 1) mod n) (S k))
        as [(s & acc1 & Hs & Hl & Ha & Hbefore & ->) | (rr' & Hall & H0 & HS & ->)].
      * left. exists (S s), acc1. repeat split.
        -- lia.
        -- rewrite <- pos_shift by exact Hpos. exact Hl.
        -- replace (k + S s)%nat with (S k + s)%nat by lia. exact Ha.
        -- intros s' acc' Hs' Hl'. destruct s' as [|s'].
           ++ rewrite Hp0 in Hl'. rewrite Hacc in Hl'. inversion Hl'; subst.
              replace (k + 0)%nat with k by lia. exact Hav.
           ++ replace (k + S s')%nat with (S k + s')%nat by lia.
              apply (Hbefore s' acc'); [lia|].
              rewrite pos_shift by exact Hpos. exact Hl'.
        -- f_equal; [f_equal|lia].
           rewrite <- (Zplus_mod_idemp_l (_ + Z.of_nat s)).
           rewrite (Zplus_mod_idemp_l (rr + 1)).
           rewrite Zplus_mod_idemp_l. f_equal; lia.
      * right. exists rr'. repeat split.
        -- intros s acc' Hs Hl'. destruct s as [|s].
           ++ rewrite Hp0 in Hl'. rewrite Hacc in Hl'. inversion Hl'; subst.
              replace (k + 0)%nat with k by lia. exact Hav.
           ++ replace (k + S s)%nat with (S k + s)%nat by lia.
              apply (Hall s acc'); [lia|].
              rewrite pos_shift by exact Hpos. exact Hl'.
        -- discriminate.
        -- intros _. destruct steps as [|steps'].
           ++ rewrite (H0 eq_refl). f_equal; lia.
           ++ rewrite HS by discriminate.
              rewrite Zplus_mod_idemp_l. f_equal; lia.
        -- f_equal. lia.
Qed.

End PoolFacts.

Section Counting.

Lemma pos_eq_iff K rr j i :
  0 < K -> (Z.of_nat j < K) ->
  AccountPool.pos K rr i = j <-> Z.of_nat i mod K = (Z.of_nat j - rr) mod K.
Proof.
  intros HK Hj. unfold AccountPool.pos.
  pose proof (Z.mod_pos_bound (rr + Z.of_nat i) K HK) as Hb.
  split; intros H.
  - assert (E : (rr + Z.of_nat i) mod K = Z.of_nat j) by lia.
    rewrite <- E. rewrite Zminus_mod_idemp_l.
    f_equal. lia.
  - assert (E : (rr + Z.of_nat i) mod K = Z.of_nat j); [|lia].
    rewrite Zplus_mod, H, <- Zplus_mod.
    replace (rr + (Z.of_nat j - rr)) with (Z.of_nat j) by lia.
    apply Z.mod_small. lia.
Qed.

Lemma visits_exact K rr j N :
  0 < K -> Z.of_nat j < K ->
  Z.of_nat (AccountPool.visits K rr j N)
  = Z.of_nat N / K + (if (Z.of_nat j - rr) mod K <? Z.of_nat N mod K then 1 else 0).
Proof.
  intros HK Hj. unfold AccountPool.visits.
  induction N as [|N IH].
  - cbn. rewrite Z.div_0_l, Z.mod_0_l by lia.
    pose proof (Z.mod_pos_bound (Z.of_nat j - rr) K HK).
    destruct (Z.ltb_spec ((Z.of_nat j - rr) mod K) 0); lia.
  - rewrite seq_S, List.filter_app, length_app, Nat2Z.inj_add, IH. cbn [List.filter Nat.add].
    set (d := (Z.of_nat j - rr) mod K).
    pose proof (Z.mod_pos_bound (Z.of_nat j - rr) K HK) as Hd. fold d in Hd.
    pose proof (pos_eq_iff K rr j N HK Hj) as Hiff. fold d in Hiff.
    pose proof (Z.mod_pos_bound (Z.of_nat N) K HK) as Hr.
    pose proof (Z.div_mod (Z.of_nat N) K ltac:(lia)) as HN.
    assert (HS : Z.of_nat (S N) = Z.of_nat N + 1) by lia. rewrite HS.
    destruct (Z.eq_dec (Z.of_nat N mod K) (K - 1)) as [Hlast | Hnot].
    + assert (Hq : (Z.of_nat N + 1) / K = Z.of_nat N / K + 1).
      { symmetry. apply (Z.div_unique _ _ _ 0); lia. }
      assert (Hm : (Z.of_nat N + 1) mod K = 0).
      { symmetry. apply (Z.mod_unique _ _ (Z.of_nat N / K + 1)); lia. }
      rewrite Hq, Hm.
      destruct (Nat.eqb_spec (AccountPool.pos K rr N) j) as [E | E]; cbn [length];
        destruct (Z.ltb_spec d (Z.of_nat N mod K));
        destruct (Z.ltb_spec d 0); lia.
    + assert (Hq : (Z.of_nat N + 1) / K = Z.of_nat N / K).
      { symmetry. apply (Z.div_unique _ _ _ (Z.of_nat N mod K + 1)); lia. }
      assert (Hm : (Z.of_nat N + 1) mod K = Z.of_nat N mod K + 1).
      { symmetry. apply (Z.mod_unique _ _ (Z.of_nat N / K)); lia. }
      rewrite Hq, Hm.
      destruct (Nat.eqb_spec (AccountPool.pos K rr N) j) as [E | E]; cbn [length];
        destruct (Z.ltb_spec d (Z.of_nat N mod K));
        destruct (Z.ltb_spec d (Z.of_nat N mod K + 1)); lia.
Qed.

Lemma visits_bounds (K : nat) rr j N :
  (0 < K)%nat -> (j < K)%nat ->
  (N / K <= AccountPool.visits (Z.of_nat K) rr j N <= ceil_div N K)%nat.
Proof.
  intros HK Hj.
  pose proof (visits_exact (Z.of_nat K) rr j N ltac:(lia) ltac:(lia)) as E.
  assert (Hfl : Z.of_nat (N / K) = Z.of_nat N / Z.of_nat K) by apply Nat2Z.inj_div.
  assert (Hce : Z.of_nat (ceil_div N K) = (Z.of_nat N + Z.of_nat K - 1) / Z.of_nat K).
  { unfold ceil_div. rewrite Nat2Z.inj_div. f_equal. lia. }
  pose proof (Z.mod_pos_bound (Z.of_nat N) (Z.of_nat K) ltac:(lia)) as Hr.
  pose proof (Z.div_mod (Z.of_nat N) (Z.of_nat K) ltac:(lia)) as HN.
  set (q := Z.of_nat N / Z.of_nat K) in *.
  set (r := Z.of_nat N mod Z.of_nat K) in *.
  assert (Hc : (if r =? 0 then q else q + 1) = (Z.of_nat N + Z.of_nat K - 1) / Z.of_nat K).
  { destruct (Z.eqb_spec r 0).
    - apply (Z.div_unique _ _ _ (Z.of_nat K - 1)); lia.
    - apply (Z.div_unique _ _ _ (r - 1)); lia. }
  pose proof (Z.mod_pos_bound (Z.of_nat j - rr) (Z.of_nat K) ltac:(lia)) as Hd.
  destruct (Z.ltb_spec ((Z.of_nat j - rr) mod Z.of_nat K) r);
    destruct (Z.eqb_spec r 0); lia.
Qed.

End Counting.

Section Selection.

Variable clock : nat -> Z.

Lemma min_from_elem {A : Type} (key : A -> Z) (l : list A) (best : A) :
  min_from key best l ∈ best :: l.
Proof.
  revert best. induction l as [|x l IH]; intros best; cbn.
  - apply list_elem_of_here.
  - destruct (key x <? key best).
    + apply list_elem_of_further. apply IH.
    + specialize (IH best). apply elem_of_cons in IH as [-> | IH].
      * apply list_elem_of_here.
      * do 2 apply list_elem_of_further. exact IH.
Qed.

Lemma min_from_least {A : Type} (key : A -> Z) (l : list A) (best x : A) :
  x ∈ best :: l -> key (min_from key best l) <= key x.
Proof.
  revert best x. induction l as [|y l IH]; intros best x Hx; cbn.
  - apply elem_of_cons in Hx as [-> | Hx]; [lia | inversion Hx].
  - destruct (Z.ltb_spec (key y) (key best)) as [Hlt | Hge].
    + apply elem_of_cons in Hx as [-> | Hx].
      * specialize (IH y y (list_elem_of_here _ _)). lia.
      * apply IH. exact Hx.
    + apply elem_of_cons in Hx as [-> | Hx].
      * apply IH. apply list_elem_of_here.
      * apply elem_of_cons in Hx as [-> | Hx].
        -- specialize (IH best best (list_elem_of_here _ _)). lia.
        -- apply IH. apply list_elem_of_further. exact Hx.
Qed.

(** Every position is visited within [n] steps. *)
Lemma pos_covers (n : nat) rr j :
  (j < n)%nat -> exists s, (s < n)%nat /\ AccountPool.pos (Z.of_nat n) rr s = j.
Proof.
  intros Hj.
  pose proof (Z.mod_pos_bound (Z.of_nat j - rr) (Z.of_nat n) ltac:(lia)) as Hb.
  exists (Z.to_nat ((Z.of_nat j - rr) mod Z.of_nat n)). split; [lia|].
  apply pos_eq_iff; [lia | lia |].
  rewrite Z2Nat.id by lia. apply Z.mod_mod. lia.
Qed.

Lemma pos_lookup (accs : list Account.t) rr s :
  accs <> [] -> exists acc, accs !! AccountPool.pos (Z.of_nat (length accs)) rr s = Some acc.
Proof.
  intros Hne. apply lookup_lt_is_Some_2.
  pose proof (pos_lt (Z.of_nat (length accs)) rr s) as H.
  destruct accs; [done|]. cbn [length] in *. lia.
Qed.

(** [get_next_available] on a non-empty pool: the first account of the
    walk that is available when looked at, or the fallback. *)
Lemma get_next_available_spec (p : AccountPool.t) (k : nat) :
  AccountPool.accounts p <> [] ->
  let accs := AccountPool.accounts p in
  let n := Z.of_nat (length accs) in
  let rr := AccountPool._rr_index p in
  (exists s acc,
      (s < length accs)%nat
      /\ accs !! AccountPool.pos n rr s = Some acc
      /\ Account.is_available (clock (k + s)) acc = true
      /\ (forall s' acc', (s' < s)%nat -> accs !! AccountPool.pos n rr s' = Some acc' ->
                          Account.is_available (clock (k + s')) acc' = false)
      /\ AccountPool.get_next_available clock p k
         = (Return (Some acc),
            {| AccountPool.accounts := accs;
               AccountPool._rr_index := (rr + Z.of_nat s + 1) mod n |},
            (k + s + 1)%nat))
  \/ (exists acc,
        (forall s acc', (s < length accs)%nat -> accs !! AccountPool.pos n rr s = Some acc' ->
                        Account.is_available (clock (k + s)) acc' = false)
        /\ py_min Account.disabled_until accs = Return acc
        /\ AccountPool.get_next_available clock p k
           = (Return (Some acc),
              {| AccountPool.accounts := accs;
                 AccountPool._rr_index := (rr + n) mod n |},
              (k + length accs)%nat)).
Proof.
  intros Hne accs n rr.
  assert (Hn : 0 < n).
  { subst n accs. destruct (AccountPool.accounts p); [done|]. cbn [length]. lia. }
  unfold AccountPool.get_next_available. fold accs. fold n. fold rr.
  rewrite (proj2 (Z.eqb_neq n 0)) by lia.
  replace (Z.to_nat n) with (length accs) by (subst n; lia).
  destruct (scan_spec clock accs n (length accs) rr k eq_refl Hn)
    as [(s & acc & Hs & Hl & Ha & Hbefore & ->) | (rr' & Hall & H0 & HS & ->)].
  - left. exists s, acc. repeat split; assumption.
  - right. destruct accs as [|a0 rest] eqn:E; [done|].
    exists (min_from Account.disabled_until a0 rest). repeat split.
    + exact Hall.
    + cbn [py_min]. rewrite HS by discriminate. reflexivity.
Qed.

(** With every account available, a call returns the account under the
    cursor and moves the cursor by one. *)
Lemma get_next_available_first (p : AccountPool.t) (k : nat) :
  AccountPool.accounts p <> [] ->
  (forall acc, acc ∈ AccountPool.accounts p -> Account.is_available (clock k) acc = true) ->
  let n := Z.of_nat (length (AccountPool.accounts p)) in
  exists acc,
    AccountPool.accounts p !! AccountPool.pos n (AccountPool._rr_index p) 0 = Some acc
    /\ AccountPool.get_next_available clock p k
       = (Return (Some acc),
          {| AccountPool.accounts := AccountPool.accounts p;
             AccountPool._rr_index := (AccountPool._rr_index p + 1) mod n |},
          S k).
Proof.
  intros Hne Hav n.
  destruct (pos_lookup (AccountPool.accounts p) (AccountPool._rr_index p) 0 Hne) as [a0 Ha0].
  assert (Hav0 : Account.is_available (clock (k + 0)) a0 = true).
  { replace (k + 0)%nat with k by lia. apply Hav. eapply list_elem_of_lookup_2, Ha0. }
  destruct (get_next_available_spec p k Hne)
    as [(s & acc & Hs & Hl & Ha & Hbefore & E) | (acc & Hall & _ & _)].
  - destruct s as [|s].
    + exists acc. split; [exact Hl|]. rewrite E. repeat f_equal; lia.
    + specialize (Hbefore O a0 ltac:(lia) Ha0). congruence.
  - assert (Hlen : (0 < length (AccountPool.accounts p))%nat).
    { destruct (AccountPool.accounts p); [done | cbn; lia]. }
    specialize (Hall O a0 Hlen Ha0). congruence.
Qed.

Lemma calls_all_available (N : nat) :
  forall (p : AccountPool.t) (k : nat),
    AccountPool.accounts p <> [] ->
    (forall t acc, (k <= t < k + N)%nat -> acc ∈ AccountPool.accounts p ->
                   Account.is_available (clock t) acc = true) ->
    (AccountPool.calls clock N p k).1.1
    = map (fun i => Return (AccountPool.accounts p
                            !! AccountPool.pos (Z.of_nat (length (AccountPool.accounts p)))
                                   (AccountPool._rr_index p) i))
          (seq 0 N).
Proof.
  induction N as [|N IH]; intros p k Hne Hav; [reflexivity|].
  cbn [AccountPool.calls].
  destruct (get_next_available_first p k Hne) as (acc & Hl & ->).
  { intros a Ha. apply (Hav k a); [lia | exact Ha]. }
  cbv beta iota zeta.
  set (p1 := AccountPool.mk _ _).
  specialize (IH p1 (S k) Hne).
  destruct (AccountPool.calls clock N p1 (S k)) as [[rs p2] k2].
  cbn [fst] in *. rewrite IH.
  2:{ intros t a Ht Ha. apply (Hav t a); [lia | exact Ha]. }
  cbn [seq map]. rewrite Hl. f_equal.
  rewrite <- seq_shift, map_map.
  apply map_ext. intros i. cbn [AccountPool.accounts AccountPool._rr_index p1].
  rewrite pos_shift; [reflexivity|].
  destruct (AccountPool.accounts p); [done | cbn [length]; lia].
Qed.

End Selection.

Lemma filter_map_length {A B : Type} (P : B -> bool) (f : A -> B) (l : list A) :
  length (List.filter P (map f l)) = length (List.filter (fun x => P (f x)) l).
Proof.
  induction l as [|x l IH]; cbn; [reflexivity|].
  destruct (P (f x)); cbn; rewrite IH; reflexivity.
Qed.

(** C1: on a pool of [K] accounts that are all available at every clock
    reading of the run, [N] consecutive calls of [get_next_available] return
    the accounts in insertion order from the cursor on, wrapping after the
    last ([i]-th call: position [(cursor + i) mod K]); every position, and
    with unique names every account, is returned at least [floor(N/K)] and
    at most [ceil(N/K)] times. *)
Theorem C1_round_robin_fairness :
  forall (clock : nat -> Z) (p : AccountPool.t) (N k : nat),
    AccountPool.accounts p <> [] ->
    (forall t acc, (k <= t < k + N)%nat -> acc ∈ AccountPool.accounts p ->
                   Account.is_available (clock t) acc = true) ->
    let accs := AccountPool.accounts p in
    let K := length accs in
    let rr := AccountPool._rr_index p in
    let rs := (AccountPool.calls clock N p k).1.1 in
    length rs = N
    /\ (forall i, (i < N)%nat ->
          exists acc, accs !! AccountPool.pos (Z.of_nat K) rr i = Some acc
                      /\ rs !! i = Some (Return (Some acc)))
    /\ (forall j, (j < K)%nat ->
          (N / K <= AccountPool.visits (Z.of_nat K) rr j N <= ceil_div N K)%nat)
    /\ (NoDup (Account.name <$> accs) ->
        forall acc, acc ∈ accs ->
          (N / K <= AccountPool.times_returned (Account.name acc) rs <= ceil_div N K)%nat).
Proof.
  intros clock p N k Hne Hav accs K rr rs.
  assert (HK : (0 < K)%nat).
  { subst K accs. destruct (AccountPool.accounts p); [done | cbn; lia]. }
  assert (Hrs : rs = map (fun i => Return (accs !! AccountPool.pos (Z.of_nat K) rr i)) (seq 0 N)).
  { subst rs. apply calls_all_available; assumption. }
  split; [|split; [|split]].
  - rewrite Hrs, length_map, length_seq. reflexivity.
  - intros i Hi.
    destruct (pos_lookup accs rr i Hne) as [acc Hacc]. fold K in Hacc.
    exists acc. split; [exact Hacc|].
    rewrite Hrs, list_lookup_fmap, lookup_seq_lt by exact Hi.
    cbn. rewrite Hacc. reflexivity.
  - intros j Hj. apply visits_bounds; assumption.
  - intros Hnd acc Hacc.
    apply list_elem_of_lookup in Hacc as [j Hj].
    assert (HjK : (j < K)%nat) by (eapply lookup_lt_Some, Hj).
    replace (AccountPool.times_returned (Account.name acc) rs)
      with (AccountPool.visits (Z.of_nat K) rr j N); [apply visits_bounds; assumption|].
    unfold AccountPool.times_returned, AccountPool.visits.
    rewrite Hrs, filter_map_length. f_equal.
    apply List.filter_ext. intros i.
    destruct (pos_lookup accs rr i Hne) as [ai Hai]. fold K in Hai.
    rewrite Hai. cbn.
    destruct (Nat.eqb_spec (AccountPool.pos (Z.of_nat K) rr i) j) as [E | E].
    + rewrite E in Hai. rewrite Hj in Hai. inversion Hai; subst.
      symmetry. apply bool_decide_eq_true. reflexivity.
    + symmetry. apply bool_decide_eq_false. intros Heq. apply E.
      apply (NoDup_lookup _ _ _ (Account.name acc) Hnd).
      * rewrite list_lookup_fmap, Hai. cbn. rewrite Heq. reflexivity.
      * rewrite list_lookup_fmap, Hj. reflexivity.
Qed.

(** The scenario of the specification: pool [A, B, C], cursor at [A]; four
    calls return [A], [B], [C] and then [A] again. *)
Lemma C1_round_robin_fairness_witness :
  let A := Account.new "A" "sa" "1" "cfg" None in
  let B := Account.new "B" "sb" "2" "cfg" None in
  let C := Account.new "C" "sc" "3" "cfg" None in
  let p := {| AccountPool.accounts := [A; B; C]; AccountPool._rr_index := 0 |} in
  let rs := (AccountPool.calls (fun _ => 1000) 4 p 0).1.1 in
  rs = [Return (Some A); Return (Some B); Return (Some C); Return (Some A)]
  /\ (1 <= AccountPool.times_returned "B" rs <= 2)%nat.
Proof.
  intros A B C p rs.
  assert (Hne : AccountPool.accounts p <> []) by discriminate.
  assert (Hav : forall (t : nat) (acc : Account.t),
             (0 <= t < 0 + 4)%nat -> acc ∈ AccountPool.accounts p ->
             Account.is_available ((fun _ : nat => 1000) t) acc = true).
  { intros t acc _ Hin. cbn in Hin.
    repeat (apply elem_of_cons in Hin as [-> | Hin]); [reflexivity .. | inversion Hin]. }
  destruct (C1_round_robin_fairness (fun _ => 1000) p 4 0 Hne Hav) as (_ & _ & _ & Hname).
  split; [reflexivity|].
  assert (Hnd : NoDup (Account.name <$> AccountPool.accounts p)).
  { apply (bool_decide_unpack _). vm_compute. exact I. }
  apply (Hname Hnd B).
  apply list_elem_of_further, list_elem_of_here.
Defined.

Lemma get_next_available_empty (clock : nat -> Z) (p : AccountPool.t) (k : nat) :
  AccountPool.accounts p = [] ->
  AccountPool.get_next_available clock p k = (Return None, p, k).
Proof.
  intros E. unfold AccountPool.get_next_available. rewrite E. reflexivity.
Qed.

Lemma py_min_spec {A : Type} (key : A -> Z) (l : list A) (m : A) :
  py_min key l = Return m ->
  m ∈ l /\ forall x, x ∈ l -> key m <= key x.
Proof.
  destruct l as [|a0 rest]; cbn; [discriminate|].
  intros [= <-]. split.
  - apply min_from_elem.
  - intros x Hx. apply min_from_least. exact Hx.
Qed.

(** C4: [get_next_available] answers [None] exactly on the empty pool.  On a
    non-empty pool it always returns an account of the pool: the account
    with the least [disabled_until] when no account is available during the
    call, and an account that is available at the call's last clock reading
    when some account is available during the call. *)
Theorem C4_get_next_available_fallback :
  forall (clock : nat -> Z) (p : AccountPool.t) (k : nat),
    let accs := AccountPool.accounts p in
    let n := length accs in
    let r := (AccountPool.get_next_available clock p k).1.1 in
    let k' := (AccountPool.get_next_available clock p k).2 in
    (r = Return None <-> accs = [])
    /\ (accs <> [] -> exists acc, r = Return (Some acc) /\ acc ∈ accs)
    /\ (accs <> [] ->
        (forall t acc, (k <= t < k + n)%nat -> acc ∈ accs ->
                       Account.is_available (clock t) acc = false) ->
        exists acc, r = Return (Some acc) /\ acc ∈ accs
                    /\ forall b, b ∈ accs ->
                         Account.disabled_until acc <= Account.disabled_until b)
    /\ (accs <> [] ->
        (exists a, a ∈ accs
                   /\ forall t, (k <= t < k + n)%nat ->
                        Account.is_available (clock t) a = true) ->
        exists acc, r = Return (Some acc) /\ acc ∈ accs
                    /\ (k < k')%nat
                    /\ Account.is_available (clock (k' - 1)%nat) acc = true).
Proof.
  intros clock p k accs n r k'.
  assert (Hnonempty : accs <> [] ->
            (exists s acc, (s < n)%nat /\ acc ∈ accs
                 /\ Account.is_available (clock (k + s)%nat) acc = true
                 /\ r = Return (Some acc) /\ (k' = k + s + 1)%nat)
            \/ (exists acc,
                 (forall s acc', (s < n)%nat ->
                      accs !! AccountPool.pos (Z.of_nat n) (AccountPool._rr_index p) s = Some acc' ->
                      Account.is_available (clock (k + s)%nat) acc' = false)
                 /\ r = Return (Some acc) /\ acc ∈ accs
                 /\ forall b, b ∈ accs ->
                      Account.disabled_until acc <= Account.disabled_until b)).
  { intros Hne.
    destruct (get_next_available_spec clock p k Hne)
      as [(s & acc & Hs & Hl & Ha & _ & E) | (acc & Hall & Hmin & E)].
    - left. exists s, acc. subst r k'. rewrite E. cbn.
      repeat split; try assumption. eapply list_elem_of_lookup_2, Hl.
    - right. exists acc. apply py_min_spec in Hmin as [Hin Hleast].
      subst r. rewrite E. cbn. repeat split; assumption. }
  split; [|split; [|split]].
  - split.
    + intros Hr. destruct accs as [|a0 rest] eqn:E; [reflexivity|].
      destruct Hnonempty as [(s & acc & _ & _ & _ & Hr' & _) | (acc & _ & Hr' & _)];
        [discriminate | congruence | congruence].
    + intros E. subst r. rewrite get_next_available_empty by exact E. reflexivity.
  - intros Hne.
    destruct (Hnonempty Hne) as [(s & acc & _ & Hin & _ & Hr & _) | (acc & _ & Hr & Hin & _)];
      exists acc; split; assumption.
  - intros Hne Hnone.
    destruct (Hnonempty Hne) as [(s & acc & Hs & Hin & Ha & _) | (acc & _ & Hr & Hin & Hleast)].
    + rewrite (Hnone (k + s)%nat acc) in Ha by (assumption || lia). discriminate.
    + exists acc. repeat split; assumption.
  - intros Hne (a & Hin & Hav).
    destruct (Hnonempty Hne) as [(s & acc & Hs & Hacc & Ha & Hr & Hk) | (acc & Hall & _)].
    + exists acc. repeat split; try assumption; [lia|].
      replace (k' - 1)%nat with (k + s)%nat by lia. exact Ha.
    + apply list_elem_of_lookup in Hin as [j Hj].
      assert (Hjn : (j < n)%nat) by (eapply lookup_lt_Some, Hj).
      destruct (pos_covers n (AccountPool._rr_index p) j Hjn) as (s & Hs & Hp).
      specialize (Hall s a Hs). rewrite Hp in Hall. specialize (Hall Hj).
      rewrite Hav in Hall by lia. discriminate.
Qed.

(** A pool whose two accounts are both cooling down: the one that recovers
    first is returned. *)
Lemma C4_get_next_available_fallback_witness :
  let A := Account.with_health 5000 1 None None (Account.new "A" "sa" "1" "cfg" None) in
  let B := Account.with_health 2000 1 None None (Account.new "B" "sb" "2" "cfg" None) in
  let p := {| AccountPool.accounts := [A; B]; AccountPool._rr_index := 0 |} in
  exists acc,
    (AccountPool.get_next_available (fun _ => 1000) p 0).1.1 = Return (Some acc)
    /\ acc ∈ [A; B]
    /\ forall b, b ∈ [A; B] -> Account.disabled_until acc <= Account.disabled_until b.
Proof.
  intros A B p.
  destruct (C4_get_next_available_fallback (fun _ => 1000) p 0) as (_ & _ & Hfallback & _).
  apply Hfallback.
  - discriminate.
  - intros t acc _ Hin. cbn in Hin.
    repeat (apply elem_of_cons in Hin as [-> | Hin]); [reflexivity .. | inversion Hin].
Defined.

Lemma get_next_available_effect (clock : nat -> Z) (p : AccountPool.t) (k : nat) :
  (AccountPool.accounts p = [] ->
   AccountPool.get_next_available clock p k = (Return None, p, k))
  /\ (AccountPool.accounts p <> [] ->
      exists acc rr' k',
        AccountPool.get_next_available clock p k
        = (Return (Some acc),
           {| AccountPool.accounts := AccountPool.accounts p; AccountPool._rr_index := rr' |},
           k')
        /\ acc ∈ AccountPool.accounts p
        /\ 0 <= rr' < Z.of_nat (length (AccountPool.accounts p))).
Proof.
  split; [apply get_next_available_empty|].
  intros Hne.
  assert (Hn : 0 < Z.of_nat (length (AccountPool.accounts p))).
  { destruct (AccountPool.accounts p); [done | cbn [length]; lia]. }
  destruct (get_next_available_spec clock p k Hne)
    as [(s & acc & Hs & Hl & _ & _ & E) | (acc & _ & Hmin & E)].
  - exists acc. eexists. eexists. split; [exact E|]. split.
    + eapply list_elem_of_lookup_2, Hl.
    + apply Z.mod_pos_bound. exact Hn.
  - exists acc. eexists. eexists. split; [exact E|]. split.
    + apply py_min_spec in Hmin. apply Hmin.
    + apply Z.mod_pos_bound. exact Hn.
Qed.

(** C5, as stated, fails: [remove_account] leaves the cursor where it was.
    After two selections on a pool of three the cursor is 2; removing the
    third account leaves a pool of two with the cursor still at 2. *)
Lemma C5_cursor_left_out_of_range :
  let A := Account.new "A" "sa" "1" "cfg" None in
  let B := Account.new "B" "sb" "2" "cfg" None in
  let C := Account.new "C" "sc" "3" "cfg" None in
  let ops := [AccountPool.Add A; AccountPool.Add B; AccountPool.Add C;
              AccountPool.Select; AccountPool.Select; AccountPool.Remove "C"] in
  let p := (AccountPool.run (fun _ => 1000) ops AccountPool.init 0).1.2 in
  AccountPool.accounts p <> [] /\ ~ AccountPool.cursor_in_range p.
Proof.
  intros A B C ops p. split.
  - discriminate.
  - unfold AccountPool.cursor_in_range. intros [_ H].
    vm_compute in H. discriminate H.
Qed.

(** C5, amended: a selection never indexes out of range, because the cursor
    is reduced modulo the pool size before it is used: on the empty pool it
    answers [None] and changes nothing, on a non-empty pool it returns an
    account of the pool and leaves the cursor in [[0, len(accounts))].  No
    selection of any sequence of operations raises, and a sequence without
    removals keeps the cursor in range once it is.  ([remove_account] does
    not adjust the cursor, which can stay beyond the end of the list until
    the next selection.) *)
Theorem C5_cursor_invariant :
  forall (clock : nat -> Z) (p : AccountPool.t) (k : nat),
    (AccountPool.accounts p = [] ->
     AccountPool.get_next_available clock p k = (Return None, p, k))
    /\ (AccountPool.accounts p <> [] ->
        (exists acc, (AccountPool.get_next_available clock p k).1.1 = Return (Some acc)
                     /\ acc ∈ AccountPool.accounts p)
        /\ AccountPool.accounts (AccountPool.get_next_available clock p k).1.2
           = AccountPool.accounts p
        /\ AccountPool.cursor_in_range (AccountPool.get_next_available clock p k).1.2)
    /\ (forall ops : list AccountPool.op,
          Forall (fun a => AccountPool.raised a = false) (AccountPool.run clock ops p k).1.1
          /\ (forallb (fun o => negb (AccountPool.is_removal o)) ops = true ->
              AccountPool.cursor_settled p ->
              AccountPool.cursor_settled (AccountPool.run clock ops p k).1.2)).
Proof.
  intros clock p k. split; [|split].
  - apply get_next_available_empty.
  - intros Hne.
    destruct (get_next_available_effect clock p k) as [_ H].
    destruct (H Hne) as (acc & rr' & k' & -> & Hin & Hrr). cbn.
    split; [exists acc; split; [reflexivity | exact Hin]|].
    split; [reflexivity | exact Hrr].
  - intros ops. revert p k.
    induction ops as [|o ops IH]; intros p k.
    + cbn. split; [constructor | auto].
    + cbn [AccountPool.run].
      destruct (AccountPool.apply_op clock o p k) as [[a p1] k1] eqn:Ea.
      specialize (IH p1 k1).
      destruct (AccountPool.run clock ops p1 k1) as [[rest p2] k2].
      cbn [fst snd] in *. destruct IH as [IHr IHs].
      assert (Hstep : AccountPool.raised a = false
                      /\ (AccountPool.is_removal o = false -> AccountPool.cursor_settled p -> AccountPool.cursor_settled p1)).
      { destruct o as [|account|nm]; cbn in Ea.
        - destruct (get_next_available_effect clock p k) as [He Hn].
          destruct (AccountPool.accounts p) as [|a0 l0] eqn:Eaccs.
          + rewrite (He eq_refl) in Ea. inversion Ea; subst. split; [reflexivity | auto].
          + destruct (Hn ltac:(done)) as (acc & rr' & k' & E & _ & Hrr).
            rewrite E in Ea. inversion Ea; subst. split; [reflexivity|].
            intros _ _. unfold AccountPool.cursor_settled. cbn. cbn [length] in Hrr. lia.
        - inversion Ea; subst. split; [reflexivity|].
          intros _. unfold AccountPool.cursor_settled, AccountPool.add_account. cbn.
          rewrite length_app. cbn. lia.
        - destruct (AccountPool.remove_account nm p) as [b p'].
          inversion Ea; subst. split; [reflexivity | discriminate]. }
      destruct Hstep as [Hr Hs]. split.
      * constructor; assumption.
      * cbn [forallb]. intros Hops Hp.
        apply andb_prop in Hops as [Ho Hops].
        apply IHs; [exact Hops|]. apply Hs; [|exact Hp].
        destruct (AccountPool.is_removal o); [discriminate | reflexivity].
Qed.

(** Additions and selections from the empty initial pool keep the cursor in
    range. *)
Lemma C5_cursor_invariant_witness :
  let A := Account.new "A" "sa" "1" "cfg" None in
  let B := Account.new "B" "sb" "2" "cfg" None in
  let ops := [AccountPool.Add A; AccountPool.Select; AccountPool.Add B; AccountPool.Select] in
  AccountPool.cursor_settled (AccountPool.run (fun _ => 1000) ops AccountPool.init 0).1.2.
Proof.
  intros A B ops.
  destruct (C5_cursor_invariant (fun _ => 1000) AccountPool.init 0) as (_ & _ & Hrun).
  destruct (Hrun ops) as [_ Hkeep].
  apply Hkeep.
  - reflexivity.
  - unfold AccountPool.cursor_settled. cbn. lia.
Defined.

(** ** Token minting *)

Lemma append_cons (x : ascii) (a b : string) : String x a +:+ b = String x (a +:+ b).
Proof. reflexivity. Qed.

Lemma append_nil_l (b : string) : EmptyString +:+ b = b.
Proof. reflexivity. Qed.

Lemma append_assoc (a b c : string) : (a +:+ b) +:+ c = a +:+ (b +:+ c).
Proof.
  induction a as [|x a IH]; [reflexivity|].
  rewrite !append_cons, IH. reflexivity.
Qed.

Lemma append_nil_r (a : string) : a +:+ EmptyString = a.
Proof.
  induction a as [|x a IH]; [reflexivity|].
  rewrite append_cons, IH. reflexivity.
Qed.

(** [kq_encode] never takes its two-byte branch on a string of code points
    below 256, and never raises. *)
Lemma kq_bytes_total (s : string) (b : list byte) :
  kq_bytes s b = Return (b ++ list_byte_of_string s)%list.
Proof.
  revert b. induction s as [|ch s IH]; intros b; cbn [kq_bytes].
  - cbn. rewrite app_nil_r. reflexivity.
  - pose proof (N_ascii_bounded ch) as Hb.
    destruct (N.ltb_spec 255 (N_of_ascii ch)) as [H | _]; [lia|].
    unfold bytearray_append.
    rewrite <- byte_of_ascii_via_N.
    rewrite IH. rewrite <- List.app_assoc. reflexivity.
Qed.

Lemma kq_encode_total (s : string) :
  kq_encode s = Return (urlsafe_b64encode (list_byte_of_string s)).
Proof.
  unfold kq_encode. rewrite kq_bytes_total. reflexivity.
Qed.

Section Base64Facts.

Import Base64.

Lemma below_64_cases (P : N -> Prop) :
  Forall P (map N.of_nat (seq 0 64)) -> forall i, (i < 64)%N -> P i.
Proof.
  intros HF i Hi. rewrite Forall_forall in HF. apply HF.
  apply list_elem_of_In. apply in_map_iff. exists (N.to_nat i). split; [lia|].
  apply in_seq. lia.
Qed.

Lemma char_of_index (i : N) :
  (i < 64)%N -> index_of (char_of i) = Some i /\ char_of i <> pad /\ char_of i <> "."%char.
Proof.
  revert i. apply below_64_cases.
  repeat (apply Forall_cons; split;
          [split; [reflexivity | split; discriminate]|]).
  apply Forall_nil. exact I.
Qed.

Lemma char_of_alphabet (i : N) : (i < 64)%N -> is_alphabet_char (char_of i) = true.
Proof.
  intros Hi. unfold is_alphabet_char.
  destruct (char_of_index i Hi) as [-> _]. reflexivity.
Qed.

Lemma rstrip_cons (c x : ascii) (s : string) :
  x <> c -> rstrip c (String x s) = String x (rstrip c s).
Proof.
  intros Hx. cbn. destruct (rstrip c s); [|reflexivity].
  destruct (Ascii.eqb_spec x c); [contradiction | reflexivity].
Qed.

Lemma list_ind3 {A : Type} (P : list A -> Prop) :
  P [] -> (forall a, P [a]) -> (forall a b, P [a; b]) ->
  (forall a b c l, P l -> P (a :: b :: c :: l)) ->
  forall l, P l.
Proof.
  intros H0 H1 H2 H3.
  assert (H : forall n l, (length l <= n)%nat -> P l).
  { induction n as [|n IH]; intros l Hl.
    - destruct l; [exact H0 | cbn in Hl; lia].
    - destruct l as [|a [|b [|c l]]]; auto.
      apply H3, IH. cbn in Hl. lia. }
  intros l. apply (H (length l)). lia.
Qed.

Ltac euclid := zify; Z.to_euclidean_division_equations; lia.

Lemma split_digit (b r q : N) :
  (q < b -> (r * b + q) / b = r /\ (r * b + q) mod b = q)%N.
Proof.
  intros Hq. split; symmetry.
  - apply (N.div_unique _ _ _ q); lia.
  - apply (N.mod_unique _ _ r); lia.
Qed.

Lemma byte_quarters (x : N) :
  (x <= 255 ->
   x / 4 < 64 /\ x mod 4 < 4 /\ x / 16 < 16 /\ x mod 16 < 16
   /\ x / 64 < 4 /\ x mod 64 < 64
   /\ x / 4 * 4 + x mod 4 = x /\ x / 16 * 16 + x mod 16 = x
   /\ x / 64 * 64 + x mod 64 = x)%N.
Proof.
  intros Hx. repeat split; euclid.
Qed.

Lemma sextet_bounds (x y z : N) :
  (x <= 255 -> y <= 255 -> z <= 255 ->
   x / 4 < 64 /\ x mod 4 * 16 < 64 /\ x mod 4 * 16 + y / 16 < 64
   /\ y mod 16 * 4 < 64 /\ y mod 16 * 4 + z / 64 < 64 /\ z mod 64 < 64)%N.
Proof.
  intros Hx Hy Hz.
  pose proof (byte_quarters x Hx). pose proof (byte_quarters y Hy).
  pose proof (byte_quarters z Hz).
  generalize dependent (x / 4)%N. generalize dependent (x mod 4)%N.
  generalize dependent (y / 16)%N. generalize dependent (y mod 16)%N.
  generalize dependent (z / 64)%N. generalize dependent (z mod 64)%N.
  intros. lia.
Qed.

Lemma sextet_inverse (x y z : N) :
  (x <= 255 -> y <= 255 -> z <= 255 ->
   x / 4 * 4 + (x mod 4 * 16 + y / 16) / 16 = x
   /\ x / 4 * 4 + (x mod 4 * 16) / 16 = x
   /\ (x mod 4 * 16 + y / 16) mod 16 * 16 + (y mod 16 * 4 + z / 64) / 4 = y
   /\ (x mod 4 * 16 + y / 16) mod 16 * 16 + (y mod 16 * 4) / 4 = y
   /\ (y mod 16 * 4 + z / 64) mod 4 * 64 + z mod 64 = z)%N.
Proof.
  intros Hx Hy Hz.
  destruct (byte_quarters x Hx) as (_ & _ & _ & _ & _ & _ & Ex & _).
  destruct (byte_quarters y Hy) as (_ & _ & Hy16 & _ & _ & _ & _ & Ey & _).
  destruct (byte_quarters z Hz) as (_ & _ & _ & _ & Hz64 & _ & _ & _ & Ez).
  destruct (split_digit 16 (x mod 4) (y / 16) Hy16) as [D1 M1].
  destruct (split_digit 16 (x mod 4) 0 ltac:(lia)) as [D2 _].
  destruct (split_digit 4 (y mod 16) (z / 64) Hz64) as [D3 M3].
  destruct (split_digit 4 (y mod 16) 0 ltac:(lia)) as [D4 _].
  rewrite N.add_0_r in D2, D4.
  rewrite D1, D2, M1, D3, D4, M3.
  repeat split; assumption.
Qed.

(** Stripping the padding of the standard encoding gives the unpadded
    text. *)
Lemma urlsafe_b64encode_unpadded (bs : list byte) :
  urlsafe_b64encode bs = encode_unpadded bs.
Proof.
  unfold urlsafe_b64encode.
  induction bs as [|a|a b|a b c l IH] using list_ind3.
  - reflexivity.
  - pose proof (Byte.to_N_bounded a) as Ha.
    destruct (sextet_bounds (Byte.to_N a) 0 0 Ha ltac:(lia) ltac:(lia)) as (H1 & H2 & _).
    cbn [encode_padded encode_unpadded].
    rewrite !rstrip_cons by (apply char_of_index; assumption).
    reflexivity.
  - pose proof (Byte.to_N_bounded a) as Ha. pose proof (Byte.to_N_bounded b) as Hb.
    destruct (sextet_bounds (Byte.to_N a) (Byte.to_N b) 0 Ha Hb ltac:(lia))
      as (H1 & _ & H2 & H3 & _).
    cbn [encode_padded encode_unpadded].
    rewrite !rstrip_cons by (apply char_of_index; assumption).
    reflexivity.
  - pose proof (Byte.to_N_bounded a) as Ha. pose proof (Byte.to_N_bounded b) as Hb.
    pose proof (Byte.to_N_bounded c) as Hc.
    destruct (sextet_bounds (Byte.to_N a) (Byte.to_N b) (Byte.to_N c) Ha Hb Hc)
      as (H1 & _ & H2 & _ & H3 & H4).
    cbn [encode_padded encode_unpadded].
    rewrite !rstrip_cons by (apply char_of_index; assumption).
    rewrite IH. reflexivity.
Qed.

Lemma encode_unpadded_alphabet (bs : list byte) :
  is_alphabet_string (encode_unpadded bs) = true.
Proof.
  induction bs as [|a|a b|a b c l IH] using list_ind3.
  - reflexivity.
  - pose proof (Byte.to_N_bounded a) as Ha.
    destruct (sextet_bounds (Byte.to_N a) 0 0 Ha ltac:(lia) ltac:(lia)) as (H1 & H2 & _).
    cbn [encode_unpadded is_alphabet_string].
    rewrite !char_of_alphabet by assumption. reflexivity.
  - pose proof (Byte.to_N_bounded a) as Ha. pose proof (Byte.to_N_bounded b) as Hb.
    destruct (sextet_bounds (Byte.to_N a) (Byte.to_N b) 0 Ha Hb ltac:(lia))
      as (H1 & _ & H2 & H3 & _).
    cbn [encode_unpadded is_alphabet_string].
    rewrite !char_of_alphabet by assumption. reflexivity.
  - pose proof (Byte.to_N_bounded a) as Ha. pose proof (Byte.to_N_bounded b) as Hb.
    pose proof (Byte.to_N_bounded c) as Hc.
    destruct (sextet_bounds (Byte.to_N a) (Byte.to_N b) (Byte.to_N c) Ha Hb Hc)
      as (H1 & _ & H2 & _ & H3 & H4).
    cbn [encode_unpadded is_alphabet_string].
    rewrite !char_of_alphabet by assumption. rewrite IH. reflexivity.
Qed.

Lemma decode_encode_unpadded (bs : list byte) :
  decode_unpadded (encode_unpadded bs) = Some bs.
Proof.
  induction bs as [|a|a b|a b c l IH] using list_ind3.
  - reflexivity.
  - pose proof (Byte.to_N_bounded a) as Ha.
    destruct (sextet_bounds (Byte.to_N a) 0 0 Ha ltac:(lia) ltac:(lia)) as (H1 & H2 & _).
    destruct (sextet_inverse (Byte.to_N a) 0 0 Ha ltac:(lia) ltac:(lia)) as (_ & E1 & _).
    cbn [encode_unpadded decode_unpadded].
    rewrite (proj1 (char_of_index _ H1)), (proj1 (char_of_index _ H2)).
    rewrite E1, Byte.of_to_N. reflexivity.
  - pose proof (Byte.to_N_bounded a) as Ha. pose proof (Byte.to_N_bounded b) as Hb.
    destruct (sextet_bounds (Byte.to_N a) (Byte.to_N b) 0 Ha Hb ltac:(lia))
      as (H1 & _ & H2 & H3 & _).
    destruct (sextet_inverse (Byte.to_N a) (Byte.to_N b) 0 Ha Hb ltac:(lia))
      as (E1 & _ & _ & E2 & _).
    cbn [encode_unpadded decode_unpadded].
    rewrite (proj1 (char_of_index _ H1)), (proj1 (char_of_index _ H2)),
      (proj1 (char_of_index _ H3)).
    rewrite E1, E2, !Byte.of_to_N. reflexivity.
  - pose proof (Byte.to_N_bounded a) as Ha. pose proof (Byte.to_N_bounded b) as Hb.
    pose proof (Byte.to_N_bounded c) as Hc.
    destruct (sextet_bounds (Byte.to_N a) (Byte.to_N b) (Byte.to_N c) Ha Hb Hc)
      as (H1 & _ & H2 & _ & H3 & H4).
    destruct (sextet_inverse (Byte.to_N a) (Byte.to_N b) (Byte.to_N c) Ha Hb Hc)
      as (E1 & _ & E2 & _ & E3).
    cbn [encode_unpadded decode_unpadded].
    rewrite (proj1 (char_of_index _ H1)), (proj1 (char_of_index _ H2)),
      (proj1 (char_of_index _ H3)), (proj1 (char_of_index _ H4)).
    rewrite E1, E2, E3, !Byte.of_to_N, IH. reflexivity.
Qed.

End Base64Facts.

Section JsonFacts.

Import Decode.

Lemma scan_string_escape_char (c : ascii) (tail : string) :
  scan_string (Json.escape_char c +:+ tail) = push c (scan_string tail).
Proof.
  destruct c as [[] [] [] [] [] [] [] []]; reflexivity.
Qed.

Lemma scan_string_escape (s rest : string) :
  scan_string (Json.escape s +:+ String dquote rest) = Some (s, rest).
Proof.
  induction s as [|c s IH].
  - reflexivity.
  - cbn [Json.escape]. rewrite append_assoc, scan_string_escape_char, IH.
    reflexivity.
Qed.

Lemma span_digits_uint (u : Decimal.uint) (rest : string) :
  ends_number rest ->
  span_digits (NilEmpty.string_of_uint u +:+ rest) = (NilEmpty.string_of_uint u, rest).
Proof.
  intros Hrest. induction u as [|u IH|u IH|u IH|u IH|u IH|u IH|u IH|u IH|u IH|u IH];
    cbn [NilEmpty.string_of_uint];
    try (rewrite append_cons; cbn [span_digits];
         match goal with |- context [is_digit ?c] => change (is_digit c) with true end;
         cbv iota; rewrite IH; reflexivity).
  rewrite append_nil_l. destruct rest as [|c rest]; [reflexivity|].
  cbn in Hrest. cbn [span_digits]. rewrite Hrest. reflexivity.
Qed.

Lemma parse_uint_string_of_uint (u : Decimal.uint) (rest : string) :
  u <> Decimal.Nil -> ends_number rest ->
  parse_uint (NilEmpty.string_of_uint u +:+ rest) = Some (u, rest).
Proof.
  intros Hu Hrest. unfold parse_uint.
  rewrite span_digits_uint by exact Hrest.
  rewrite NilEmpty.usu.
  destruct u; [congruence | reflexivity ..].
Qed.

Lemma string_of_uint_head (u : Decimal.uint) :
  u <> Decimal.Nil ->
  exists c tl, NilEmpty.string_of_uint u = String c tl /\ Ascii.eqb c "-" = false.
Proof.
  intros Hu. destruct u; [congruence | ..]; cbn [NilEmpty.string_of_uint];
    eexists; eexists; (split; [reflexivity | reflexivity]).
Qed.

Lemma parse_int_unsigned (u : Decimal.uint) (rest : string) :
  u <> Decimal.Nil -> ends_number rest ->
  parse_int (NilEmpty.string_of_uint u +:+ rest) = Some (Z.of_int (Decimal.Pos u), rest).
Proof.
  intros Hu Hrest.
  destruct (string_of_uint_head _ Hu) as (c & tl & E & Hc).
  unfold parse_int. rewrite E, append_cons, Hc, <- append_cons, <- E.
  rewrite parse_uint_string_of_uint by assumption. reflexivity.
Qed.

Lemma parse_int_str_of_int (z : Z) (rest : string) :
  ends_number rest ->
  parse_int (str_of_int z +:+ rest) = Some (z, rest).
Proof.
  intros Hrest. unfold str_of_int.
  pose proof (DecimalZ.of_to z) as Hz.
  destruct z as [|p|p]; cbn [Z.to_int NilZero.string_of_int] in *.
  - change (NilZero.string_of_uint Decimal.zero)
      with (NilEmpty.string_of_uint Decimal.zero).
    rewrite parse_int_unsigned by (assumption || discriminate).
    rewrite Hz. reflexivity.
  - pose proof (DecimalPos.Unsigned.to_uint_nonnil p) as Hn.
    replace (NilZero.string_of_uint (Pos.to_uint p))
      with (NilEmpty.string_of_uint (Pos.to_uint p))
      by (destruct (Pos.to_uint p); [congruence | reflexivity ..]).
    rewrite parse_int_unsigned by assumption.
    rewrite Hz. reflexivity.
  - pose proof (DecimalPos.Unsigned.to_uint_nonnil p) as Hn.
    replace (NilZero.string_of_uint (Pos.to_uint p))
      with (NilEmpty.string_of_uint (Pos.to_uint p))
      by (destruct (Pos.to_uint p); [congruence | reflexivity ..]).
    rewrite append_cons. cbn [parse_int]. change (Ascii.eqb "-" "-") with true. cbv iota.
    rewrite parse_uint_string_of_uint by assumption.
    rewrite Hz. reflexivity.
Qed.

Lemma str_of_int_head (z : Z) :
  exists c tl, str_of_int z = String c tl /\ (is_digit c || Ascii.eqb c "-") = true.
Proof.
  unfold str_of_int. destruct z as [|p|p]; cbn [Z.to_int NilZero.string_of_int].
  - eexists. eexists. split; reflexivity.
  - pose proof (DecimalPos.Unsigned.to_uint_nonnil p) as Hn.
    destruct (Pos.to_uint p); [congruence | ..];
      eexists; eexists; (split; [reflexivity | reflexivity]).
  - eexists. eexists. split; reflexivity.
Qed.

Lemma number_head_dispatch (c : ascii) :
  (is_digit c || Ascii.eqb c "-") = true ->
  Ascii.eqb c dquote = false /\ Ascii.eqb c "{" = false /\ Ascii.eqb c "[" = false
  /\ Ascii.eqb c "n" = false /\ Ascii.eqb c "t" = false /\ Ascii.eqb c "f" = false.
Proof.
  destruct c as [[] [] [] [] [] [] [] []]; cbv; intros H;
    first [discriminate H | repeat split].
Qed.

Lemma parse_value_int (fuel : nat) (z : Z) (rest : string) :
  ends_number rest ->
  parse_value (S fuel) (str_of_int z +:+ rest) = Some (JInt z, rest).
Proof.
  intros Hrest.
  pose proof (parse_int_str_of_int z rest Hrest) as Hp.
  destruct (str_of_int_head z) as (c & tl & E & Hc).
  destruct (number_head_dispatch c Hc) as (H1 & H2 & H3 & H4 & H5 & H6).
  rewrite E, append_cons in *. cbn [parse_value].
  rewrite H1, H2, H3, H4, H5, H6, Hp. reflexivity.
Qed.

Lemma parse_value_str (fuel : nat) (s rest : string) :
  parse_value (S fuel) (Json.encode_basestring_ascii s +:+ rest) = Some (JStr s, rest).
Proof.
  unfold Json.encode_basestring_ascii.
  rewrite (append_cons dquote), append_assoc.
  change (String dquote EmptyString +:+ rest) with (String dquote rest).
  cbn [parse_value]. change (Ascii.eqb dquote dquote) with true. cbv iota.
  rewrite scan_string_escape. reflexivity.
Qed.

Lemma parse_value_flat (fuel : nat) (v : json) (rest : string) :
  flat_value v -> ends_number rest ->
  parse_value (S fuel) (Json.dumps v +:+ rest) = Some (v, rest).
Proof.
  intros Hv Hrest. destruct v; try contradiction; cbn [Json.dumps].
  - apply parse_value_int. exact Hrest.
  - apply parse_value_str.
Qed.

Lemma member_text_app (k : string) (v : json) (rest : string) :
  member_text (k, v) +:+ rest
  = String dquote (Json.escape k +:+ String dquote (String ":" (Json.dumps v +:+ rest))).
Proof.
  unfold member_text, Json.encode_basestring_ascii. cbn [fst snd].
  rewrite !append_assoc. rewrite (append_cons dquote). rewrite append_assoc.
  reflexivity.
Qed.

Lemma parse_member (fuel : nat) (k : string) (v : json) (rest : string) :
  flat_value v -> ends_number rest -> (0 < fuel)%nat ->
  exists body,
    scan_string body = Some (k, String ":" (Json.dumps v +:+ rest))
    /\ member_text (k, v) +:+ rest = String dquote body
    /\ parse_value fuel (Json.dumps v +:+ rest) = Some (v, rest).
Proof.
  intros Hv Hrest Hfuel. eexists. split; [|split].
  - apply scan_string_escape.
  - apply member_text_app.
  - destruct fuel as [|fuel]; [lia|]. apply parse_value_flat; assumption.
Qed.

Lemma join_cons2 (sep x y : string) (l : list string) :
  join sep (x :: y :: l) = x +:+ sep +:+ join sep (y :: l).
Proof. reflexivity. Qed.

Lemma parse_members_flat (m : list (string * json)) :
  m <> [] -> Forall (fun kv => flat_value (snd kv)) m ->
  forall (fuel : nat) (rest : string),
    (length m < fuel)%nat ->
    parse_members fuel (join "," (map member_text m) +:+ String "}" rest) = Some (m, rest).
Proof.
  induction m as [|[k v] m IH]; [congruence|].
  intros _ Hflat fuel rest Hfuel.
  apply Forall_cons in Hflat as [Hv Hflat]. cbn [snd] in Hv.
  destruct fuel as [|fuel]; [cbn in Hfuel; lia|].
  assert (Hpos : (0 < fuel)%nat) by (cbn [length] in Hfuel; lia).
  destruct m as [|kv2 m].
  - cbn [map join].
    destruct (parse_member fuel k v (String "}" rest) Hv eq_refl Hpos)
      as (body & Hs & -> & Hp).
    cbn [parse_members]. change (Ascii.eqb dquote dquote) with true. cbv iota.
    rewrite Hs. change (Ascii.eqb ":" ":") with true. cbv iota.
    rewrite Hp. reflexivity.
  - cbn [map]. rewrite join_cons2, !append_assoc, append_cons, append_nil_l.
    set (tail := join "," (member_text kv2 :: map member_text m) +:+ String "}" rest).
    destruct (parse_member fuel k v (String "," tail) Hv eq_refl Hpos)
      as (body & Hs & -> & Hp).
    cbn [parse_members]. change (Ascii.eqb dquote dquote) with true. cbv iota.
    rewrite Hs. change (Ascii.eqb ":" ":") with true. cbv iota.
    rewrite Hp. change (Ascii.eqb "," ",") with true. cbv iota.
    subst tail. cbn [map] in IH.
    rewrite IH; [reflexivity | discriminate | exact Hflat |].
    cbn [length] in *. lia.
Qed.

Lemma length_append (a b : string) :
  String.length (a +:+ b) = (String.length a + String.length b)%nat.
Proof.
  induction a as [|x a IH]; [reflexivity|].
  rewrite append_cons. cbn [String.length]. rewrite IH. reflexivity.
Qed.

Lemma members_length (m : list (string * json)) :
  (length m <= S (String.length (join "," (map member_text m))))%nat.
Proof.
  induction m as [|kv m IH]; [cbn; lia|].
  destruct m as [|kv2 m]; [cbn; lia|].
  cbn [map length] in *. rewrite join_cons2, !length_append. cbn [String.length]. lia.
Qed.

Lemma dumps_dict (m : list (string * json)) :
  Json.dumps (JDict m) = String "{" (join "," (map member_text m) +:+ "}").
Proof. reflexivity. Qed.

(** A non-empty flat dict is read back from its compact text. *)
Lemma json_loads_dumps_flat (m : list (string * json)) :
  m <> [] -> Forall (fun kv => flat_value (snd kv)) m ->
  json_loads (Json.dumps (JDict m)) = Some (JDict m).
Proof.
  intros Hne Hflat. unfold json_loads. rewrite dumps_dict.
  cbn [String.length]. rewrite length_append. cbn [String.length].
  pose proof (members_length m) as Hlen.
  set (n := String.length (join "," (map member_text m))) in *.
  set (fuel := S (n + 1)).
  cbn [parse_value].
  change (Ascii.eqb "{" dquote) with false. change (Ascii.eqb "{" "{") with true.
  cbv iota.
  destruct m as [|[k v] m]; [congruence|].
  pose proof (parse_members_flat ((k, v) :: m) Hne Hflat fuel EmptyString
                ltac:(subst fuel; lia)) as Hp.
  destruct (join "," (map member_text ((k, v) :: m)) +:+ "}") as [|c1 s2] eqn:E.
  - destruct m; cbn [map] in E; rewrite ?join_cons2 in E; cbn [join] in E;
      rewrite ?append_assoc, member_text_app in E; discriminate E.
  - assert (Hc1 : c1 = dquote).
    { destruct m; cbn [map] in E; rewrite ?join_cons2 in E; cbn [join] in E;
        rewrite ?append_assoc, member_text_app in E; inversion E; reflexivity. }
    subst c1. change (Ascii.eqb dquote "}") with false. cbv iota.
    rewrite Hp. reflexivity.
Qed.

End JsonFacts.

Section TokenFacts.

Import Base64.

Lemma alphabet_char_not_dot (x : ascii) :
  is_alphabet_char x = true -> Ascii.eqb x "." = false.
Proof.
  intros H. destruct (Ascii.eqb_spec x "."%char) as [-> | _]; [|reflexivity].
  vm_compute in H. discriminate H.
Qed.

Lemma split_on_alphabet (s : string) :
  is_alphabet_string s = true -> split_on "." s = [s].
Proof.
  induction s as [|x s IH]; [reflexivity|].
  cbn [is_alphabet_string]. intros H. apply andb_prop in H as [Hx Hs].
  cbn [split_on]. rewrite (alphabet_char_not_dot x Hx), (IH Hs). reflexivity.
Qed.

Lemma split_on_alphabet_head (h t : string) :
  is_alphabet_string h = true ->
  split_on "." (h +:+ String "." t) = h :: split_on "." t.
Proof.
  induction h as [|x h IH].
  - intros _. reflexivity.
  - cbn [is_alphabet_string]. intros H. apply andb_prop in H as [Hx Hh].
    rewrite append_cons. cbn [split_on].
    rewrite (alphabet_char_not_dot x Hx), (IH Hh). reflexivity.
Qed.

Lemma urlsafe_b64encode_alphabet (bs : list byte) :
  is_alphabet_string (urlsafe_b64encode bs) = true.
Proof.
  rewrite urlsafe_b64encode_unpadded. apply encode_unpadded_alphabet.
Qed.

Lemma urlsafe_b64encode_decode (bs : list byte) :
  decode_unpadded (urlsafe_b64encode bs) = Some bs.
Proof.
  rewrite urlsafe_b64encode_unpadded. apply decode_encode_unpadded.
Qed.

Lemma alphabet_no_padding :
  is_alphabet_char pad = false.
Proof. reflexivity. Qed.

End TokenFacts.

(** C6: whatever the key material, the key id (a string or any other JSON
    value), [csesidx] and the time [now],
    [create_jwt] returns a token [h.p.s] of exactly three dot-separated
    parts, each made of base64url characters only (no padding); [h] and [p]
    are the unpadded base64url of the compact JSON of the header and of the
    payload; decoding [p] gives back the payload object, whose [sub] is
    ["csesidx/" + csesidx] and whose [exp] and [iat] differ by 300; and [s]
    is the unpadded base64url of the HMAC-SHA256 of ["h.p"] under the key. *)
Theorem C6_create_jwt_token :
  forall (hmac_sha256 : list byte -> list byte -> list byte)
         (key_bytes : list byte) (key_id : json) (csesidx : string) (now : Z),
  exists header_b64 payload_b64 sig_b64 : string,
    let token := header_b64 +:+ "." +:+ payload_b64 +:+ "." +:+ sig_b64 in
    create_jwt hmac_sha256 key_bytes key_id csesidx now = Return token
    /\ split_on "." token = [header_b64; payload_b64; sig_b64]
    /\ Base64.is_alphabet_string header_b64 = true
    /\ Base64.is_alphabet_string payload_b64 = true
    /\ Base64.is_alphabet_string sig_b64 = true
    /\ Base64.is_alphabet_char Base64.pad = false
    /\ option_map string_of_list_byte (Base64.decode_unpadded header_b64)
       = Some (Json.dumps (jwt_header key_id))
    /\ option_map string_of_list_byte (Base64.decode_unpadded payload_b64)
       = Some (Json.dumps (jwt_payload csesidx now))
    /\ Decode.claims_of token = Some (jwt_payload csesidx now)
    /\ Decode.claim "sub" token = Some (JStr ("csesidx/" +:+ csesidx))
    /\ (exists iat exp : Z,
          Decode.claim "iat" token = Some (JInt iat)
          /\ Decode.claim "exp" token = Some (JInt exp)
          /\ exp - iat = 300)
    /\ sig_b64
       = urlsafe_b64encode
           (hmac_sha256 key_bytes (utf8_encode (header_b64 +:+ "." +:+ payload_b64))).
Proof.
  intros hmac_sha256 key_bytes key_id csesidx now.
  set (h := urlsafe_b64encode (list_byte_of_string (Json.dumps (jwt_header key_id)))).
  set (p := urlsafe_b64encode (list_byte_of_string (Json.dumps (jwt_payload csesidx now)))).
  set (s := urlsafe_b64encode (hmac_sha256 key_bytes (utf8_encode (h +:+ "." +:+ p)))).
  exists h, p, s. intros token.
  assert (Hh : Base64.is_alphabet_string h = true) by apply urlsafe_b64encode_alphabet.
  assert (Hp : Base64.is_alphabet_string p = true) by apply urlsafe_b64encode_alphabet.
  assert (Hs : Base64.is_alphabet_string s = true) by apply urlsafe_b64encode_alphabet.
  assert (Hsplit : split_on "." token = [h; p; s]).
  { subst token.
    change (h +:+ "." +:+ p +:+ "." +:+ s) with (h +:+ String "." (p +:+ String "." s)).
    rewrite split_on_alphabet_head by exact Hh.
    rewrite split_on_alphabet_head by exact Hp.
    rewrite split_on_alphabet by exact Hs. reflexivity. }
  assert (Hclaims : Decode.claims_of token = Some (jwt_payload csesidx now)).
  { unfold Decode.claims_of. rewrite Hsplit. subst p.
    rewrite urlsafe_b64encode_decode, string_of_list_byte_of_string.
    unfold jwt_payload. apply json_loads_dumps_flat.
    - discriminate.
    - repeat (apply Forall_cons; split; [exact I|]). apply Forall_nil. exact I. }
  split; [|split; [|split; [|split; [|split; [|split; [|split; [|split;
    [|split; [|split; [|split]]]]]]]]]].
  - unfold create_jwt. rewrite !kq_encode_total. fold h. fold p. fold s.
    subst token. rewrite !append_assoc. reflexivity.
  - exact Hsplit.
  - exact Hh.
  - exact Hp.
  - exact Hs.
  - reflexivity.
  - subst h. rewrite urlsafe_b64encode_decode. cbn [option_map].
    rewrite string_of_list_byte_of_string. reflexivity.
  - subst p. rewrite urlsafe_b64encode_decode. cbn [option_map].
    rewrite string_of_list_byte_of_string. reflexivity.
  - exact Hclaims.
  - unfold Decode.claim. rewrite Hclaims. reflexivity.
  - exists now, (now + 300). unfold Decode.claim. rewrite Hclaims.
    split; [reflexivity | split; [reflexivity | lia]].
  - reflexivity.
Qed.

(** ** Session registry *)

Section SessionFacts.

Import SessionManager.

Variable cfg : Config.t.
Variable clock : nat -> Z.
Variable upstream : nat -> outcome Response.
Variable json_loads : string -> outcome json.
Variable urlsafe_b64decode : string -> outcome (list byte).
Variable hmac_sha256 : list byte -> list byte -> list byte.

#[local] Abbreviation jwt_refresh := (jwt_refresh cfg clock upstream json_loads urlsafe_b64decode hmac_sha256).
#[local] Abbreviation jwt_get := (jwt_get cfg clock upstream json_loads urlsafe_b64decode hmac_sha256).
#[local] Abbreviation create_session :=
  (create_session cfg clock upstream json_loads urlsafe_b64decode hmac_sha256).
#[local] Abbreviation get_or_create_session :=
  (get_or_create_session cfg clock upstream json_loads urlsafe_b64decode hmac_sha256).
#[local] Abbreviation upload_file :=
  (upload_file cfg clock upstream json_loads urlsafe_b64decode hmac_sha256).
#[local] Abbreviation list_session_files :=
  (list_session_files cfg clock upstream json_loads urlsafe_b64decode hmac_sha256).
#[local] Abbreviation create_and_cache :=
  (create_and_cache cfg clock upstream json_loads urlsafe_b64decode hmac_sha256).
#[local] Abbreviation penalty := (penalty cfg).
#[local] Abbreviation reused := (reused clock).
#[local] Abbreviation reusable := (reusable clock).

Lemma frame_refl st : frame st st.
Proof. repeat split. Qed.

Lemma frame_trans st1 st2 st3 : frame st1 st2 -> frame st2 st3 -> frame st1 st3.
Proof.
  intros (H1 & H2 & H3) (H4 & H5 & H6). repeat split; congruence.
Qed.

Lemma bind_inv {A B : Type} (c : M A) (k : A -> M B) st r st' :
  bind c k st = (r, st') ->
  (exists a st1, c st = (Return a, st1) /\ k a st1 = (r, st'))
  \/ (exists e, c st = (Raise e, st') /\ r = Raise e).
Proof.
  unfold bind. destruct (c st) as [[a | e] st1].
  - intros H. left. exists a, st1. split; [reflexivity | exact H].
  - intros [= <- <-]. right. exists e. split; reflexivity.
Qed.

Lemma lift_inv {A : Type} (o : outcome A) st r st' :
  lift o st = (r, st') -> r = o /\ st' = st.
Proof. intros [= <- <-]. split; reflexivity. Qed.

Lemma penalise_spec (response : Response) st :
  penalise cfg clock response st
  = (Return tt,
     if is_quota_status (status_code response)
     then {| ticks := S (ticks st); requests := requests st; objects := objects st;
             _sessions := _sessions st;
             account := Account.mark_quota_error cfg (clock (ticks st))
                          (status_code response) (text response) (account st) |}
     else st).
Proof.
  unfold penalise. destruct (is_quota_status (status_code response)); reflexivity.
Qed.

Lemma penalise_frame (response : Response) st :
  frame st (penalise cfg clock response st).2.
Proof.
  rewrite penalise_spec. cbn.
  destruct (is_quota_status (status_code response)); repeat split.
Qed.

Ltac break_match H :=
  repeat match type of H with
         | context [match ?x with _ => _ end] =>
             let E := fresh "E" in destruct x eqn:E; cbn in H
         end.

Lemma jwt_refresh_frame st r st' :
  jwt_refresh st = (r, st') -> frame st st'.
Proof.
  unfold SessionManager.jwt_refresh, bind, lift, http_request, raise, get_account,
    set_account, time_time, with_account.
  intros H. cbn in H.
  destruct (upstream (requests st)) as [response | e]; cbn in H.
  - destruct (negb (status_code response =? 200)); cbn in H.
    + rewrite penalise_spec in H. inversion H; subst; clear H.
      destruct (is_quota_status (status_code response)); repeat split.
    + break_match H; inversion H; subst; repeat split.
  - inversion H; subst. repeat split.
Qed.

Lemma jwt_get_frame st r st' :
  jwt_get st = (r, st') -> frame st st'.
Proof.
  unfold SessionManager.jwt_get, bind, get_account, raise, ret.
  intros H. cbn in H.
  destruct (Account.jwt_mgr (account st)) as [mgr|]; cbn in H.
  - destruct (JWTManager.expires mgr <? clock (ticks st)).
    + destruct (SessionManager.jwt_refresh _ _ _ _ _ _ _) as [[[] | e] st1] eqn:Er.
      * apply jwt_refresh_frame in Er. cbn in Er.
        break_match H; inversion H; subst; exact Er.
      * apply jwt_refresh_frame in Er. inversion H; subst. exact Er.
    + cbn in H. break_match H; inversion H; subst; repeat split.
  - inversion H; subst. repeat split.
Qed.

Lemma penalise_penalty (response : Response) st :
  account (penalise cfg clock response st).2 = penalty (clock (ticks st)) response (account st)
  /\ requests (penalise cfg clock response st).2 = requests st.
Proof.
  rewrite penalise_spec. unfold SessionManager.penalty. cbn.
  destruct (is_quota_status (status_code response)); split; reflexivity.
Qed.

Lemma not_200 (response : Response) :
  status_code response <> 200 -> negb (status_code response =? 200) = true.
Proof.
  intros H. destruct (Z.eqb_spec (status_code response) 200); [contradiction | reflexivity].
Qed.

Lemma create_session_failure st jwt st1 response :
  jwt_get st = (Return jwt, st1) ->
  upstream (requests st1) = Return response ->
  status_code response <> 200 ->
  exists st',
    create_session st
    = (Raise (Exception ("createSession failed: " +:+ str_of_int (status_code response))), st')
    /\ requests st' = S (requests st1)
    /\ account st' = penalty (clock (ticks st1)) response (account st1)
    /\ frame st1 st'.
Proof.
  intros Hjwt Hup Hs.
  unfold SessionManager.create_session, bind. rewrite Hjwt.
  unfold http_request at 1. rewrite Hup, (not_200 _ Hs).
  set (st2 := mkState _ _ _ _ _).
  pose proof (penalise_penalty response st2) as [Ha Hr].
  pose proof (penalise_frame response st2) as Hf.
  destruct (penalise cfg clock response st2) as [[[] | e] st3] eqn:Ep.
  - eexists. split; [reflexivity|]. cbn [snd] in *.
    split; [rewrite Hr; reflexivity|]. split; [exact Ha | exact Hf].
  - rewrite penalise_spec in Ep. discriminate Ep.
Qed.

Lemma upload_file_failure st jwt st1 response session mime_type content s sid :
  jwt_get st = (Return jwt, st1) ->
  objects st1 !! session = Some s ->
  Session.session_id s = Return sid ->
  upstream (requests st1) = Return response ->
  status_code response <> 200 ->
  exists st',
    upload_file session mime_type content st
    = (Raise (Exception ("Upload failed: " +:+ str_of_int (status_code response))), st')
    /\ requests st' = S (requests st1)
    /\ account st' = penalty (clock (S (ticks st1))) response (account st1)
    /\ frame st1 st'.
Proof.
  intros Hjwt Hobj Hsid Hup Hs.
  unfold SessionManager.upload_file, bind. rewrite Hjwt.
  unfold time_time at 1. unfold load at 1. cbn [objects]. rewrite Hobj.
  unfold lift at 1. rewrite Hsid.
  unfold http_request at 1. cbn [requests]. rewrite Hup, (not_200 _ Hs).
  set (st2 := mkState _ _ _ _ _).
  pose proof (penalise_penalty response st2) as [Ha Hr].
  pose proof (penalise_frame response st2) as Hf.
  destruct (penalise cfg clock response st2) as [[[] | e] st3] eqn:Ep.
  - eexists. split; [reflexivity|]. cbn [snd] in *.
    split; [rewrite Hr; reflexivity|]. split; [exact Ha | exact Hf].
  - rewrite penalise_spec in Ep. discriminate Ep.
Qed.

Lemma list_session_files_failure st jwt st1 response session filter_type s :
  jwt_get st = (Return jwt, st1) ->
  objects st1 !! session = Some s ->
  upstream (requests st1) = Return response ->
  status_code response <> 200 ->
  exists st',
    list_session_files session filter_type st = (Return (JList []), st')
    /\ requests st' = S (requests st1)
    /\ account st' = account st1
    /\ ticks st' = ticks st1
    /\ frame st1 st'.
Proof.
  intros Hjwt Hobj Hup Hs.
  unfold SessionManager.list_session_files, bind. rewrite Hjwt.
  unfold load at 1. rewrite Hobj.
  unfold http_request at 1. rewrite Hup, (not_200 _ Hs).
  eexists. split; [reflexivity|]. repeat split.
Qed.

Ltac bind_step H a st1 Hc :=
  apply bind_inv in H as [(a & st1 & Hc & H) | (? & Hc & ->)].

Lemma time_time_inv st r st' :
  time_time clock st = (r, st') ->
  r = Return (clock (ticks st)) /\ frame st st' /\ account st' = account st.
Proof. intros [= <- <-]. repeat split. Qed.

Lemma http_request_inv st r st' :
  http_request upstream st = (r, st') ->
  r = upstream (requests st) /\ frame st st' /\ account st' = account st.
Proof. intros [= <- <-]. repeat split. Qed.

Lemma load_inv addr st r st' :
  load addr st = (r, st') ->
  st' = st /\ (forall s, r = Return s -> objects st !! addr = Some s).
Proof.
  unfold load. destruct (objects st !! addr) eqn:E; intros [= <- <-];
    (split; [reflexivity|]); intros s0 [= <-]. reflexivity.
Qed.

(** [upload_file] either returns a truthy file id and appends it to the
    file ids of the session, or leaves every [Session] object as it was. *)
Lemma upload_file_effect session mime_type content st r st' s0 :
  upload_file session mime_type content st = (r, st') ->
  objects st !! session = Some s0 ->
  (exists file_id,
      r = Return file_id /\ Json.truthy file_id = true
      /\ objects st'
         = <[session := Session.with_file_ids (Session.file_ids s0 ++ [file_id]) s0]>
             (objects st))
  \/ (match r with Return file_id => Json.truthy file_id = false | Raise _ => True end
      /\ objects st' = objects st).
Proof.
  intros H Hs0. unfold SessionManager.upload_file in H.
  bind_step H jwt st1 Hjwt.
  2:{ right. apply jwt_get_frame in Hjwt as (Ho & _). split; [exact I | exact Ho]. }
  apply jwt_get_frame in Hjwt as (Ho1 & _).
  bind_step H now st2 Ht.
  2:{ apply time_time_inv in Ht as (Hr & _). discriminate Hr. }
  apply time_time_inv in Ht as (_ & (Ho2 & _) & _).
  bind_step H s st3 Hl.
  2:{ right. apply load_inv in Hl as [-> _]. split; [exact I | congruence]. }
  apply load_inv in Hl as [-> Hl]. clear Hl.
  bind_step H sid st3 Hsid.
  2:{ right. apply lift_inv in Hsid as [_ ->]. split; [exact I | congruence]. }
  apply lift_inv in Hsid as [_ ->].
  bind_step H response st3 Hq.
  2:{ right. apply http_request_inv in Hq as (_ & (Ho3 & _) & _).
      split; [exact I | congruence]. }
  apply http_request_inv in Hq as (_ & (Ho3 & _) & _).
  assert (Ho : objects st3 = objects st) by congruence.
  destruct (negb (status_code response =? 200)).
  - right. bind_step H u st4 Hp.
    + inversion H; subst. pose proof (penalise_frame response st3) as (Hf & _).
      rewrite Hp in Hf. cbn in Hf. split; [exact I | congruence].
    + rewrite penalise_spec in Hp. discriminate Hp.
  - bind_step H data st4 Hd.
    2:{ right. apply lift_inv in Hd as [_ ->]. split; [exact I | exact Ho]. }
    apply lift_inv in Hd as [_ ->].
    bind_step H resp st4 Hd.
    2:{ right. apply lift_inv in Hd as [_ ->]. split; [exact I | exact Ho]. }
    apply lift_inv in Hd as [_ ->].
    bind_step H file_id st4 Hd.
    2:{ right. apply lift_inv in Hd as [_ ->]. split; [exact I | exact Ho]. }
    apply lift_inv in Hd as [_ ->].
    destruct (Json.truthy file_id) eqn:Etruthy.
    + left. unfold bind, load, store, ret in H. rewrite Ho, Hs0 in H.
      inversion H; subst. exists file_id.
      split; [reflexivity|]. split; [exact Etruthy|].
      cbn [objects with_objects]. rewrite Ho. reflexivity.
    + right. unfold bind, ret in H. inversion H; subst.
      split; [exact Etruthy | exact Ho].
Qed.

(** What [upload_file] does with a 200 answer, once the token is there
    and the session has an id to log: the two [get] of
    [data.get("addContextFileResponse", {}).get("fileId")] decide. *)
Lemma upload_file_answered session mime_type content st jwt st1 s sid response data :
  jwt_get st = (Return jwt, st1) ->
  objects st1 !! session = Some s ->
  Session.session_id s = Return sid ->
  upstream (requests st1) = Return response ->
  status_code response = 200 ->
  json_loads (text response) = Return data ->
  upload_file session mime_type content st
  = match py_get data "addContextFileResponse" (JDict []) with
    | Raise e => (Raise e, answered st1)
    | Return resp =>
        match py_get resp "fileId" JNull with
        | Raise e => (Raise e, answered st1)
        | Return file_id =>
            (Return file_id,
             if Json.truthy file_id
             then with_objects
                    (<[session := Session.with_file_ids
                                    (Session.file_ids s ++ [file_id]) s]> (objects st1))
                    (answered st1)
             else answered st1)
        end
    end.
Proof.
  intros Hjwt Hobj Hsid Hup Hs Hbody.
  unfold SessionManager.upload_file, bind. rewrite Hjwt.
  unfold time_time at 1. unfold load at 1. cbn [objects]. rewrite Hobj.
  unfold lift at 1. rewrite Hsid.
  unfold http_request at 1. cbn [requests]. rewrite Hup, Hs.
  cbn [Z.eqb Pos.eqb negb]. unfold lift. rewrite Hbody.
  fold (answered st1).
  destruct (py_get data "addContextFileResponse" (JDict [])) as [resp|e]; [|reflexivity].
  destruct (py_get resp "fileId" JNull) as [file_id|e]; [|reflexivity].
  destruct (Json.truthy file_id); [|reflexivity].
  unfold load, store, ret. cbn [answered objects]. rewrite Hobj. reflexivity.
Qed.

Lemma get_or_create_session_unfold (key : string) (st : State) :
  get_or_create_session key st
  = match _sessions st !! key with
    | Some addr =>
        match objects st !! addr with
        | Some s =>
            if reusable st s then (Return addr, reused addr s st)
            else create_and_cache key (evicted key st)
        | None => (Raise (Exception "no such object"), st)
        end
    | None => create_and_cache key st
    end.
Proof.
  unfold SessionManager.get_or_create_session, bind, cached_session,
    SessionManager.create_and_cache.
  destruct (_sessions st !! key) as [addr|].
  - unfold load. destruct (objects st !! addr) as [s|]; [|reflexivity].
    unfold time_time at 1. unfold get_account at 1. unfold SessionManager.reusable. cbn [ticks account].
    destruct (negb (Session.is_expired (clock (ticks st)) 3600 s)
              && bool_decide (Session.account_name s = Account.name (account st))).
    + reflexivity.
    + unfold del_session at 1.
      change (with_sessions (delete key _) _) with (evicted key st).
      destruct (create_session (evicted key st)) as [[a | e] st']; reflexivity.
  - destruct (create_session st) as [[a | e] st']; reflexivity.
Qed.

Lemma reusable_iff (st : State) (s : Session.t) :
  reusable st s = true
  <-> clock (ticks st) - Session.last_used_at s <= 3600
      /\ Session.account_name s = Account.name (account st).
Proof.
  unfold SessionManager.reusable, Session.is_expired. rewrite andb_true_iff, negb_true_iff.
  rewrite Z.ltb_ge, bool_decide_eq_true. reflexivity.
Qed.

(** [create_session] returns the address of a new object bound to the
    account of the call, or raises and creates nothing; it never touches
    [_sessions]. *)
Lemma create_session_effect st r st' :
  create_session st = (r, st') ->
  _sessions st' = _sessions st
  /\ Account.name (account st') = Account.name (account st)
  /\ match r with
     | Return addr =>
         addr = length (objects st)
         /\ exists s : Session.t,
               objects st' = (objects st ++ [s])%list
               /\ Session.account_name s = Account.name (account st)
                      /\ Session.file_ids s = []
     | Raise _ => objects st' = objects st
     end.
Proof.
  intros H. unfold SessionManager.create_session in H.
  bind_step H jwt st1 Hjwt.
  2:{ apply jwt_get_frame in Hjwt as (Ho & Hm & Hn). repeat split; assumption. }
  apply jwt_get_frame in Hjwt as (Ho1 & Hm1 & Hn1).
  bind_step H response st2 Hq.
  2:{ apply http_request_inv in Hq as (_ & (Ho2 & Hm2 & Hn2) & _).
      repeat split; congruence. }
  apply http_request_inv in Hq as (_ & (Ho2 & Hm2 & Hn2) & _).
  destruct (negb (status_code response =? 200)).
  - bind_step H u st3 Hp.
    + inversion H; subst. pose proof (penalise_frame response st2) as (Ho3 & Hm3 & Hn3).
      rewrite Hp in *. cbn [snd] in *. repeat split; congruence.
    + rewrite penalise_spec in Hp. discriminate Hp.
  - bind_step H data st3 Hd.
    2:{ apply lift_inv in Hd as [_ ->]. repeat split; congruence. }
    apply lift_inv in Hd as [_ ->].
    bind_step H sess st3 Hd.
    2:{ apply lift_inv in Hd as [_ ->]. repeat split; congruence. }
    apply lift_inv in Hd as [_ ->].
    bind_step H session_name st3 Hd.
    2:{ apply lift_inv in Hd as [_ ->]. repeat split; congruence. }
    apply lift_inv in Hd as [_ ->].
    unfold bind, get_account, time_time, lift, alloc in H. cbn in H.
    destruct (Session.session_id _) as [sid|e]; inversion H; subst; cbn;
      repeat split; try congruence;
      eexists; (split; [rewrite Ho2, Ho1; reflexivity|]); cbn; split; congruence.
Qed.

(** A returned session is an object bound to the account of the call and
    cached under the key. *)
Lemma get_or_create_session_returns key st addr st' :
  get_or_create_session key st = (Return addr, st') ->
  _sessions st' !! key = Some addr
  /\ Account.name (account st') = Account.name (account st)
  /\ exists s, objects st' !! addr = Some s
               /\ Session.account_name s = Account.name (account st).
Proof.
  rewrite get_or_create_session_unfold.
  assert (Hcc : forall st0, create_and_cache key st0 = (Return addr, st') ->
            _sessions st' !! key = Some addr
            /\ Account.name (account st') = Account.name (account st0)
            /\ exists s, objects st' !! addr = Some s
                         /\ Session.account_name s = Account.name (account st0)).
  { intros st0 H. unfold SessionManager.create_and_cache in H.
    destruct (create_session st0) as [[a | e] st1] eqn:Ec; [|discriminate H].
    inversion H; subst. apply create_session_effect in Ec as (Hm & Hn & -> & s & Ho & Hs & _).
    cbn. rewrite lookup_insert_eq. repeat split; try assumption.
    exists s. rewrite Ho. split; [|exact Hs].
    rewrite lookup_app_r by lia. rewrite Nat.sub_diag. reflexivity. }
  destruct (_sessions st !! key) as [a|] eqn:Ek.
  - destruct (objects st !! a) as [s|] eqn:Eo; [|discriminate].
    destruct (reusable st s) eqn:Er.
    + intros [= <- <-]. cbn. apply reusable_iff in Er as [_ Hn].
      repeat split; try assumption.
      exists (Session.with_last_used_at (clock (S (ticks st))) s). split; [|exact Hn].
      apply list_lookup_insert_eq. eapply lookup_lt_Some, Eo.
    + intros H. apply (Hcc (evicted key st)) in H. exact H.
  - apply Hcc.
Qed.

End SessionFacts.

Section SessionClaims.

Import SessionManager.

Variable cfg : Config.t.
Variable clock : nat -> Z.
Variable upstream : nat -> outcome Response.
Variable json_loads : string -> outcome json.
Variable urlsafe_b64decode : string -> outcome (list byte).
Variable hmac_sha256 : list byte -> list byte -> list byte.

#[local] Abbreviation jwt_get :=
  (jwt_get cfg clock upstream json_loads urlsafe_b64decode hmac_sha256).
#[local] Abbreviation create_session :=
  (create_session cfg clock upstream json_loads urlsafe_b64decode hmac_sha256).
#[local] Abbreviation create_and_cache :=
  (create_and_cache cfg clock upstream json_loads urlsafe_b64decode hmac_sha256).
#[local] Abbreviation get_or_create_session :=
  (get_or_create_session cfg clock upstream json_loads urlsafe_b64decode hmac_sha256).
#[local] Abbreviation upload_file :=
  (upload_file cfg clock upstream json_loads urlsafe_b64decode hmac_sha256).
#[local] Abbreviation list_session_files :=
  (list_session_files cfg clock upstream json_loads urlsafe_b64decode hmac_sha256).

Lemma create_and_cache_effect (key : string) st r st' :
  create_and_cache key st = (r, st') ->
  match r with
  | Return addr =>
      addr = length (objects st)
      /\ _sessions st' = <[key := addr]> (_sessions st)
      /\ exists s : Session.t,
           objects st' = (objects st ++ [s])%list
           /\ Session.account_name s = Account.name (account st)
           /\ Session.file_ids s = []
  | Raise _ => objects st' = objects st /\ _sessions st' = _sessions st
  end.
Proof.
  unfold SessionManager.create_and_cache.
  destruct (create_session st) as [[a | e] st1] eqn:Ec; intros [= <- <-];
    apply create_session_effect in Ec as (Hm & _ & Hr).
  - destruct Hr as (-> & s & Ho & Hs & Hf). cbn. rewrite Hm.
    split; [reflexivity|]. split; [reflexivity|]. exists s. repeat split; assumption.
  - split; assumption.
Qed.


(** C7, amended: when the upstream answers a non-200 status to the request
    of [create_session] or [upload_file] (the latter sent for a session
    whose id the log line before the request can compute), the call makes
    no further request and raises, after
    [account.mark_quota_error(status, text)] if the status is 401, 403 or
    429 and with the account untouched otherwise.  [list_session_files]
    does neither: on any non-200 status it returns the empty list and
    leaves the account as it is. *)
Theorem C7_upstream_failure_handling :
  forall (st : State) (jwt : string) (st1 : State) (response : Response),
    jwt_get st = (Return jwt, st1) ->
    upstream (requests st1) = Return response ->
    status_code response <> 200 ->
    (exists st',
        create_session st
        = (Raise (Exception ("createSession failed: " +:+ str_of_int (status_code response))),
           st')
        /\ requests st' = S (requests st1)
        /\ account st' = penalty cfg (clock (ticks st1)) response (account st1))
    /\ (forall session mime_type content s sid,
          objects st1 !! session = Some s ->
          Session.session_id s = Return sid ->
          exists st',
            upload_file session mime_type content st
            = (Raise (Exception ("Upload failed: " +:+ str_of_int (status_code response))),
               st')
            /\ requests st' = S (requests st1)
            /\ account st' = penalty cfg (clock (S (ticks st1))) response (account st1))
    /\ (forall session filter_type s,
          objects st1 !! session = Some s ->
          exists st',
            list_session_files session filter_type st = (Return (JList []), st')
            /\ requests st' = S (requests st1)
            /\ account st' = account st1).
Proof.
  intros st jwt st1 response Hjwt Hup Hs. split; [|split].
  - destruct (create_session_failure cfg clock upstream json_loads urlsafe_b64decode
                hmac_sha256 st jwt st1 response Hjwt Hup Hs) as (st' & E & Hr & Ha & _).
    exists st'. repeat split; assumption.
  - intros session mime_type content s sid Ho Hsid.
    destruct (upload_file_failure cfg clock upstream json_loads urlsafe_b64decode
                hmac_sha256 st jwt st1 response session mime_type content s sid
                Hjwt Ho Hsid Hup Hs) as (st' & E & Hr & Ha & _).
    exists st'. repeat split; assumption.
  - intros session filter_type s Ho.
    destruct (list_session_files_failure cfg clock upstream json_loads urlsafe_b64decode
                hmac_sha256 st jwt st1 response session filter_type s
                Hjwt Ho Hup Hs) as (st' & E & Hr & Ha & _).
    exists st'. repeat split; assumption.
Qed.

(** C10, amended: [upload_file], once the token is there and the session
    has an id to log, does with a 200 answer what the two [get] of
    [data.get("addContextFileResponse", {}).get("fileId")] give.  When the
    body is an object without [addContextFileResponse], or whose
    [addContextFileResponse] is an object without [fileId] or with a null
    one, it returns [None] and leaves the file ids alone.  When the body
    is not an object, or its [addContextFileResponse] is there but is not
    an object (null, say), it does not return [None]: it raises
    [AttributeError], the file ids left alone.  When the [fileId] is
    there, it is the value returned, and it is appended to the file ids of
    the session exactly when it is true.  And in every run, answered or
    not, a file id is appended exactly when a true file id is returned,
    and it is that id. *)
Theorem C10_upload_without_file_id :
  forall (session : nat) (mime_type content : string) (st : State),
    (forall jwt st1 s sid response data,
        jwt_get st = (Return jwt, st1) ->
        objects st1 !! session = Some s ->
        Session.session_id s = Return sid ->
        upstream (requests st1) = Return response ->
        status_code response = 200 ->
        json_loads (text response) = Return data ->
        (forall m,
            data = JDict m ->
            (Json.dict_get "addContextFileResponse" m = None
             \/ exists r, Json.dict_get "addContextFileResponse" m = Some (JDict r)
                          /\ (Json.dict_get "fileId" r = None
                              \/ Json.dict_get "fileId" r = Some JNull)) ->
            upload_file session mime_type content st = (Return JNull, answered st1))
        /\ ((forall m, data <> JDict m)
            \/ (exists m v, data = JDict m
                            /\ Json.dict_get "addContextFileResponse" m = Some v
                            /\ forall r, v <> JDict r) ->
            upload_file session mime_type content st = (Raise AttributeError, answered st1))
        /\ (forall m r file_id,
              data = JDict m ->
              Json.dict_get "addContextFileResponse" m = Some (JDict r) ->
              Json.dict_get "fileId" r = Some file_id ->
              upload_file session mime_type content st
              = (Return file_id,
                 if Json.truthy file_id
                 then with_objects
                        (<[session := Session.with_file_ids
                                        (Session.file_ids s ++ [file_id]) s]> (objects st1))
                        (answered st1)
                 else answered st1)))
    /\ (forall s0 r st',
          objects st !! session = Some s0 ->
          upload_file session mime_type content st = (r, st') ->
          (exists file_id,
              r = Return file_id /\ Json.truthy file_id = true
              /\ objects st'
                 = <[session := Session.with_file_ids (Session.file_ids s0 ++ [file_id]) s0]>
                     (objects st))
          \/ (match r with
              | Return file_id => Json.truthy file_id = false
              | Raise _ => True
              end
              /\ objects st' = objects st)).
Proof.
  intros session mime_type content st. split.
  - intros jwt st1 s sid response data Hjwt Hobj Hsid Hup Hs Hbody.
    pose proof (upload_file_answered cfg clock upstream json_loads urlsafe_b64decode
                  hmac_sha256 session mime_type content st jwt st1 s sid response data
                  Hjwt Hobj Hsid Hup Hs Hbody) as E.
    split; [|split].
    + intros m -> Hno. rewrite E. cbn [py_get].
      destruct Hno as [Hnone | (r & Hsome & [Hfid | Hfid])].
      * rewrite Hnone. reflexivity.
      * rewrite Hsome. cbn [py_get]. rewrite Hfid. reflexivity.
      * rewrite Hsome. cbn [py_get]. rewrite Hfid. reflexivity.
    + intros [Hnot | (m & v & -> & Hv & Hnot)]; rewrite E.
      * destruct data as [| | | | |m]; try reflexivity.
        exfalso. apply (Hnot m). reflexivity.
      * cbn [py_get]. rewrite Hv.
        destruct v as [| | | | |r]; try reflexivity.
        exfalso. apply (Hnot r). reflexivity.
    + intros m r file_id -> Hr Hfid. rewrite E. cbn [py_get]. rewrite Hr.
      cbn [py_get]. rewrite Hfid. reflexivity.
  - intros s0 r st' Hs0 H. eapply upload_file_effect; eassumption.
Qed.

End SessionClaims.

(** ** Streaming JSON parser *)

Section StreamFacts.

Import JSONStreamParser.

Variable obj : Type.
Variable raw_decode : string -> option (obj * nat).

(** What is assumed of [json.JSONDecoder.raw_decode]: a decoded value
    ends after at least one character and within the buffer; an object is
    delimited by its own braces, so what follows it does not change how
    it is read; and nothing is decoded at a closing bracket. *)
Hypothesis raw_decode_progress :
  forall s o idx, raw_decode s = Some (o, idx) -> (0 < idx <= String.length s)%nat.
Hypothesis raw_decode_object :
  forall rest o idx more,
    raw_decode (String "{" rest) = Some (o, idx) ->
    raw_decode (String "{" rest +:+ more) = Some (o, idx).
Hypothesis raw_decode_close :
  forall rest, raw_decode (String "]" rest) = None.

#[local] Abbreviation decode_loop := (decode_loop obj raw_decode).
#[local] Abbreviation run_loop := (run_loop obj raw_decode).
#[local] Abbreviation decode := (decode obj raw_decode).
#[local] Abbreviation feed := (feed obj raw_decode).
#[local] Abbreviation payload := (payload obj raw_decode).

Lemma lstrip_length (s : string) : (String.length (lstrip s) <= String.length s)%nat.
Proof.
  induction s as [|c s IH]; cbn; [lia|].
  destruct (is_space c); cbn; lia.
Qed.

Lemma lstrip_head (s : string) (c : ascii) (rest : string) :
  lstrip s = String c rest -> is_space c = false.
Proof.
  induction s as [|x s IH]; cbn; [discriminate|].
  destruct (is_space x) eqn:E; [exact IH|].
  intros [= <- <-]. exact E.
Qed.

Lemma lstrip_fixed (c : ascii) (rest : string) :
  is_space c = false -> lstrip (String c rest) = String c rest.
Proof. intros H. cbn. rewrite H. reflexivity. Qed.

Lemma drop_length (n : nat) (s : string) :
  String.length (drop n s) = (String.length s - n)%nat.
Proof.
  revert s. induction n as [|n IH]; intros s; cbn; [lia|].
  destruct s as [|c s]; cbn; [reflexivity | apply IH].
Qed.

Lemma drop_append (a b : string) : drop (String.length a) (a +:+ b) = b.
Proof.
  induction a as [|c a IH]; [reflexivity|].
  rewrite append_cons. cbn. exact IH.
Qed.

Lemma append_eq_append (a b c d : string) :
  a +:+ b = c +:+ d ->
  exists l, (a = c +:+ l /\ d = l +:+ b) \/ (c = a +:+ l /\ b = l +:+ d).
Proof.
  revert c. induction a as [|x a IH]; intros c H.
  - exists c. right. split; [reflexivity | exact H].
  - destruct c as [|y c].
    + exists (String x a). left. split; [reflexivity|]. symmetry. exact H.
    + rewrite !append_cons in H. inversion H as [[Hxy Hrest]]. subst y.
      destruct (IH c Hrest) as (l & [[-> ->] | [-> ->]]); exists l.
      * left. split; reflexivity.
      * right. split; reflexivity.
Qed.

(** The loop does not depend on its fuel once there is more fuel than
    characters. *)
Lemma decode_loop_fuel (fuel1 : nat) :
  forall (fuel2 : nat) (b : string) (acc : list obj),
    (String.length b < fuel1)%nat -> (String.length b < fuel2)%nat ->
    decode_loop fuel1 b acc = decode_loop fuel2 b acc.
Proof.
  induction fuel1 as [|fuel1 IH]; intros fuel2 b acc H1 H2; [lia|].
  destruct fuel2 as [|fuel2]; [lia|].
  cbn [JSONStreamParser.decode_loop].
  pose proof (lstrip_length b) as Hl.
  destruct (lstrip b) as [|c rest] eqn:E; [reflexivity|].
  cbn [String.length] in Hl.
  destruct (is_separator c).
  - apply IH; lia.
  - destruct (raw_decode (String c rest)) as [[o idx]|] eqn:Ed; [|reflexivity].
    apply raw_decode_progress in Ed. cbn [String.length] in Ed.
    apply IH; rewrite drop_length; cbn [String.length]; lia.
Qed.

Lemma decode_loop_acc (fuel : nat) :
  forall (b : string) (acc : list obj),
    decode_loop fuel b acc
    = ((acc ++ (decode_loop fuel b []).1)%list, (decode_loop fuel b []).2).
Proof.
  induction fuel as [|fuel IH]; intros b acc.
  - cbn. rewrite app_nil_r. reflexivity.
  - cbn [JSONStreamParser.decode_loop].
    destruct (lstrip b) as [|c rest]; [cbn; rewrite app_nil_r; reflexivity|].
    destruct (is_separator c); [apply IH|].
    destruct (raw_decode (String c rest)) as [[o idx]|].
    + rewrite (IH _ (acc ++ [o])%list), (IH _ ([] ++ [o])%list).
      cbn [fst snd]. rewrite <- List.app_assoc. reflexivity.
    + cbn. rewrite app_nil_r. reflexivity.
Qed.

Lemma lstrip_idempotent (s : string) : lstrip (lstrip s) = lstrip s.
Proof.
  induction s as [|c s IH]; [reflexivity|].
  cbn [lstrip]. destruct (is_space c) eqn:E; [exact IH|].
  cbn [lstrip]. rewrite E. reflexivity.
Qed.

Lemma decode_loop_lstrip (fuel : nat) (b : string) (acc : list obj) :
  decode_loop (S fuel) (lstrip b) acc = decode_loop (S fuel) b acc.
Proof.
  cbn [JSONStreamParser.decode_loop]. rewrite lstrip_idempotent. reflexivity.
Qed.

Lemma decode_loop_step (fuel : nat) (c : ascii) (s : string) (acc : list obj) :
  is_space c = false ->
  decode_loop (S fuel) (String c s) acc
  = if is_separator c then decode_loop fuel s acc
    else match raw_decode (String c s) with
         | Some (o, idx) => decode_loop fuel (drop idx (String c s)) (acc ++ [o])%list
         | None => (acc, String c s)
         end.
Proof.
  intros Hs. cbn [JSONStreamParser.decode_loop]. rewrite (lstrip_fixed c s Hs).
  reflexivity.
Qed.

Lemma run_loop_nil : run_loop EmptyString = ([], EmptyString).
Proof. reflexivity. Qed.

Lemma run_loop_space (c : ascii) (s : string) :
  is_space c = true -> run_loop (String c s) = run_loop s.
Proof.
  intros Hc. unfold JSONStreamParser.run_loop. cbn [String.length].
  rewrite <- decode_loop_lstrip. cbn [lstrip]. rewrite Hc.
  rewrite decode_loop_lstrip.
  apply decode_loop_fuel; lia.
Qed.

Lemma run_loop_separator (c : ascii) (s : string) :
  is_space c = false -> is_separator c = true -> run_loop (String c s) = run_loop s.
Proof.
  intros Hs Hc. unfold JSONStreamParser.run_loop. cbn [String.length].
  rewrite (decode_loop_step _ c s [] Hs), Hc. reflexivity.
Qed.

Lemma run_loop_skip (c : ascii) (s : string) :
  is_space c || is_separator c = true -> run_loop (String c s) = run_loop s.
Proof.
  intros H. destruct (is_space c) eqn:Hs.
  - apply run_loop_space. exact Hs.
  - apply run_loop_separator; [exact Hs | exact H].
Qed.

Lemma run_loop_stuck (c : ascii) (s : string) :
  is_space c = false -> is_separator c = false -> raw_decode (String c s) = None ->
  run_loop (String c s) = ([], String c s).
Proof.
  intros Hs Hc Hd. unfold JSONStreamParser.run_loop. cbn [String.length].
  rewrite (decode_loop_step _ c s [] Hs), Hc, Hd. reflexivity.
Qed.

Lemma run_loop_value (c : ascii) (s : string) (o : obj) (idx : nat) :
  is_space c = false -> is_separator c = false ->
  raw_decode (String c s) = Some (o, idx) ->
  run_loop (String c s)
  = (o :: (run_loop (drop idx (String c s))).1, (run_loop (drop idx (String c s))).2).
Proof.
  intros Hs Hc Hd. unfold JSONStreamParser.run_loop. cbn [String.length].
  rewrite (decode_loop_step _ c s [] Hs), Hc, Hd.
  rewrite decode_loop_acc.
  pose proof (raw_decode_progress _ _ _ Hd) as Hi. cbn [String.length] in Hi.
  rewrite (decode_loop_fuel (S (String.length s))
             (S (String.length (drop idx (String c s))))).
  - reflexivity.
  - rewrite drop_length. cbn [String.length]. lia.
  - lia.
Qed.

Lemma drop_all (s : string) : drop (String.length s) s = EmptyString.
Proof.
  rewrite <- (append_nil_r s) at 2. apply drop_append.
Qed.

(** The buffer left by the loop is one on which the loop stops at once. *)
Lemma run_loop_settled (n : nat) :
  forall b, (String.length b <= n)%nat ->
            run_loop (run_loop b).2 = ([], (run_loop b).2).
Proof.
  induction n as [|n IH]; intros b Hb.
  - destruct b; [reflexivity | cbn in Hb; lia].
  - destruct b as [|c s]; [reflexivity|]. cbn [String.length] in Hb.
    destruct (is_space c || is_separator c) eqn:Hskip.
    + rewrite (run_loop_skip c s Hskip). apply IH. lia.
    + apply orb_false_elim in Hskip as [Hs Hc].
      destruct (raw_decode (String c s)) as [[o idx]|] eqn:Hd.
      * rewrite (run_loop_value c s o idx Hs Hc Hd). cbn [snd].
        apply IH. rewrite drop_length. cbn [String.length].
        apply raw_decode_progress in Hd. lia.
      * rewrite (run_loop_stuck c s Hs Hc Hd). cbn [snd].
        apply (run_loop_stuck c s Hs Hc Hd).
Qed.

Lemma pair_eta {A B : Type} (p : A * B) : p = (p.1, p.2).
Proof. destruct p; reflexivity. Qed.

(** Running the loop on a payload is running it on a prefix and then on
    what it left followed by the rest, which is a payload again. *)
Lemma run_loop_split (full : string) (objs : list obj) :
  payload full objs ->
  forall b c, full = b +:+ c ->
    (exists objs', payload ((run_loop b).2 +:+ c) objs')
    /\ run_loop full
       = (((run_loop b).1 ++ (run_loop ((run_loop b).2 +:+ c)).1)%list,
          (run_loop ((run_loop b).2 +:+ c)).2).
Proof.
  assert (Hempty : forall full objs c, payload full objs -> full = EmptyString +:+ c ->
            (exists objs', payload ((run_loop EmptyString).2 +:+ c) objs')
            /\ run_loop full
               = (((run_loop EmptyString).1
                   ++ (run_loop ((run_loop EmptyString).2 +:+ c)).1)%list,
                  (run_loop ((run_loop EmptyString).2 +:+ c)).2)).
  { intros full0 objs0 c Hp ->. rewrite run_loop_nil. cbn [fst snd].
    rewrite !append_nil_l. split; [exists objs0; exact Hp | apply pair_eta]. }
  induction 1
    as [|rest|c0 rest objs Hskip Hrest IH|text o rest objs [[t0 Ht] Hd] Hrest IH];
    intros b c E.
  - destruct b; [|discriminate E]. eapply Hempty; [constructor | exact E].
  - destruct b as [|x b']; [eapply Hempty; [constructor | exact E]|].
    rewrite append_cons in E. inversion E as [[Hx Hr]]. subst x.
    rewrite (run_loop_stuck "]" b' eq_refl eq_refl (raw_decode_close b')).
    cbn [fst snd]. rewrite append_cons, <- Hr.
    split; [eexists; constructor | apply pair_eta].
  - destruct b as [|x b'];
      [eapply Hempty; [constructor; eassumption | exact E]|].
    rewrite append_cons in E. inversion E as [[Hx Hr]]. subst x.
    rewrite !(run_loop_skip c0) by exact Hskip.
    destruct (IH b' c Hr) as [Hp Hq]. split; [exact Hp|].
    rewrite <- Hr. exact Hq.
  - assert (Hfull : payload (text +:+ rest) (o :: objs)).
    { constructor; [split; [exists t0; exact Ht | exact Hd] | exact Hrest]. }
    destruct b as [|x b']; [eapply Hempty; [exact Hfull | exact E]|].
    assert (Hwhole : run_loop (text +:+ rest)
                     = (o :: (run_loop rest).1, (run_loop rest).2)).
    { pose proof (raw_decode_object t0 o _ rest ltac:(rewrite <- Ht; exact Hd)) as Hd'.
      rewrite Ht in *. rewrite append_cons in *.
      rewrite (run_loop_value "{" _ o _ eq_refl eq_refl Hd').
      rewrite <- append_cons, drop_append. reflexivity. }
    destruct (append_eq_append _ _ _ _ E) as (l & [[Ea Eb] | [Ea Eb]]).
    + (* the prefix ends inside the object, or at its end *)
      assert (Hx : x = "{"%char).
      { rewrite Ht, append_cons in Ea. inversion Ea. reflexivity. }
      subst x.
      destruct l as [|y l].
      * rewrite append_nil_r in Ea. rewrite append_nil_l in Eb. subst c.
        rewrite <- Ea. rewrite Ht in Hd |- *.
        rewrite (run_loop_value "{" t0 o _ eq_refl eq_refl Hd).
        rewrite drop_all, run_loop_nil. cbn [fst snd].
        rewrite append_nil_l, <- Ht, Hwhole.
        split; [exists objs; exact Hrest | reflexivity].
      * destruct (raw_decode (String "{" b')) as [[o' idx]|] eqn:Hb.
        -- exfalso.
           pose proof (raw_decode_progress _ _ _ Hb) as Hi.
           pose proof (raw_decode_object b' o' idx (String y l) Hb) as Hb'.
           rewrite <- Ea, Hd in Hb'. inversion Hb'; subst.
           rewrite Ea, length_append in Hi. cbn [String.length] in Hi. lia.
        -- rewrite (run_loop_stuck "{" b' eq_refl eq_refl Hb). cbn [fst snd].
           rewrite <- E. split; [exists (o :: objs); exact Hfull | apply pair_eta].
    + (* the prefix contains the object *)
      assert (Hb : run_loop (String x b') = (o :: (run_loop l).1, (run_loop l).2)).
      { rewrite Ea, Ht, append_cons.
        pose proof (raw_decode_object t0 o _ l ltac:(rewrite <- Ht; exact Hd)) as Hd'.
        rewrite append_cons in Hd'.
        rewrite (run_loop_value "{" _ o _ eq_refl eq_refl Hd').
        rewrite <- append_cons, <- Ht, drop_append. reflexivity. }
      rewrite Hb, Hwhole. cbn [fst snd].
      destruct (IH l c Eb) as [Hp Hr]. split; [exact Hp|].
      rewrite Hr. reflexivity.
Qed.

(** One run of the loop over a payload returns its objects, in order. *)
Lemma run_loop_payload (full : string) (objs : list obj) :
  payload full objs -> (run_loop full).1 = objs.
Proof.
  induction 1 as [|rest|c0 rest objs Hskip Hrest IH|text o rest objs [[t0 Ht] Hd] Hrest IH].
  - reflexivity.
  - rewrite (run_loop_stuck "]" rest eq_refl eq_refl (raw_decode_close rest)).
    reflexivity.
  - rewrite (run_loop_skip c0 rest Hskip). exact IH.
  - pose proof (raw_decode_object t0 o _ rest ltac:(rewrite <- Ht; exact Hd)) as Hd'.
    rewrite Ht in *. rewrite append_cons in *.
    rewrite (run_loop_value "{" _ o _ eq_refl eq_refl Hd').
    rewrite <- append_cons, drop_append. cbn [fst]. rewrite IH. reflexivity.
Qed.

Lemma decode_run_loop (chunk buffer : string) :
  decode chunk buffer = run_loop (buffer +:+ chunk).
Proof. reflexivity. Qed.

Lemma feed_run_loop (chunks : list string) :
  forall b0 objs,
    run_loop b0 = ([], b0) ->
    payload (b0 +:+ whole chunks) objs ->
    feed chunks b0 = run_loop (b0 +:+ whole chunks).
Proof.
  induction chunks as [|chunk chunks IH]; intros b0 objs Hb0 Hp.
  - cbn [JSONStreamParser.feed whole]. rewrite append_nil_r, Hb0. reflexivity.
  - cbn [JSONStreamParser.feed whole] in *. rewrite decode_run_loop.
    rewrite <- append_assoc in Hp.
    destruct (run_loop_split _ _ Hp (b0 +:+ chunk) (whole chunks) eq_refl)
      as [[objs' Hp'] Hr].
    rewrite <- append_assoc, Hr.
    specialize (IH (run_loop (b0 +:+ chunk)).2 objs'
                  (run_loop_settled _ _ (Nat.le_refl _)) Hp').
    destruct (run_loop (b0 +:+ chunk)) as [r1 b1]. cbn [fst snd] in *.
    rewrite IH. destruct (run_loop (b1 +:+ whole chunks)); reflexivity.
Qed.

(** C8: for a payload that is a sequence of complete JSON objects with
    white space, [[] and [,] between them (up to its end or to a closing
    []]), cut into chunks in any way, feeding the chunks to [decode] one at
    a time and concatenating the lists it returns gives what one call of
    [decode] on the whole payload returns, namely the objects of the
    payload in order, and leaves the same buffer.  The loop of [decode]
    ends within [len(buffer) + 1] iterations. *)
Theorem C8_stream_chunking :
  forall (chunks : list string) (objs : list obj),
    payload (whole chunks) objs ->
    feed chunks EmptyString = decode (whole chunks) EmptyString
    /\ (feed chunks EmptyString).1 = objs
    /\ (decode (whole chunks) EmptyString).1 = objs
    /\ (forall (b : string) (extra : nat) (acc : list obj),
          decode_loop (S (String.length b) + extra) b acc
          = decode_loop (S (String.length b)) b acc).
Proof.
  intros chunks objs Hp.
  assert (Hfeed : feed chunks EmptyString = decode (whole chunks) EmptyString).
  { rewrite decode_run_loop.
    apply (feed_run_loop chunks EmptyString objs); [reflexivity | exact Hp]. }
  assert (Hobjs : (decode (whole chunks) EmptyString).1 = objs).
  { rewrite decode_run_loop. apply (run_loop_payload _ _ Hp). }
  split; [exact Hfeed|]. split; [rewrite Hfeed; exact Hobjs|]. split; [exact Hobjs|].
  intros b extra acc. apply decode_loop_fuel; lia.
Qed.

End StreamFacts.

(** ** Examples *)

Section SampleRuns.

Import SessionManager.

#[local] Abbreviation jwt_get up :=
  (jwt_get Config.default Sample.clock up Sample.json_loads Sample.urlsafe_b64decode
     Sample.hmac_sha256).
#[local] Abbreviation create_session up :=
  (create_session Config.default Sample.clock up Sample.json_loads
     Sample.urlsafe_b64decode Sample.hmac_sha256).
#[local] Abbreviation get_or_create_session up :=
  (get_or_create_session Config.default Sample.clock up Sample.json_loads
     Sample.urlsafe_b64decode Sample.hmac_sha256).
#[local] Abbreviation upload_file up :=
  (upload_file Config.default Sample.clock up Sample.json_loads
     Sample.urlsafe_b64decode Sample.hmac_sha256).
#[local] Abbreviation list_session_files up :=
  (list_session_files Config.default Sample.clock up Sample.json_loads
     Sample.urlsafe_b64decode Sample.hmac_sha256).


(** C7, as stated, fails for the listing: a 429 answer to
    [list_session_files] is neither raised nor charged to the account. *)
Lemma C7_listing_failure_is_swallowed :
  (list_session_files Sample.upstream_429 0%nat "filter" Sample.serving).1
  = Return (JList [])
  /\ Account.fail_count
       (account (list_session_files Sample.upstream_429 0%nat "filter" Sample.serving).2)
     = Account.fail_count Sample.account_A
  /\ Account.disabled_until
       (account (list_session_files Sample.upstream_429 0%nat "filter" Sample.serving).2)
     = Account.disabled_until Sample.account_A.
Proof.
  vm_compute. repeat split.
Qed.

(** A 429 answer to [create_session] is raised and charged to the
    account. *)
Lemma C7_upstream_failure_handling_witness :
  exists st',
    create_session Sample.upstream_429 Sample.fresh
    = (Raise (Exception "createSession failed: 429"), st')
    /\ Account.fail_count (account st') = 1
    /\ Account.disabled_until (account st') = 1300.
Proof.
  destruct (C7_upstream_failure_handling Config.default Sample.clock Sample.upstream_429
              Sample.json_loads Sample.urlsafe_b64decode Sample.hmac_sha256
              Sample.fresh "token" (jwt_get Sample.upstream_429 Sample.fresh).2
              {| status_code := 429; text := "quota" |})
    as ((st' & E & _ & Ha) & _).
  - vm_compute. reflexivity.
  - reflexivity.
  - discriminate.
  - exists st'. split; [exact E|]. rewrite Ha. split; reflexivity.
Defined.

(** C10, as stated, fails: a 200 answer whose body is
    [{"addContextFileResponse": null}] has no file id, yet [upload_file]
    does not return [None] for it: the second [get] is called on [None]
    and raises [AttributeError]. *)
Lemma C10_null_response_raises :
  (SessionManager.upload_file Config.default Sample.clock Sample.upstream_empty
     Fixture.null_loads Sample.urlsafe_b64decode Sample.hmac_sha256
     0%nat "image/png" "AAAA" Sample.serving).1
  = Raise AttributeError.
Proof.
  vm_compute. reflexivity.
Qed.

(** A 200 answer whose body is an object without
    [addContextFileResponse]: [None] is returned and the session keeps its
    file ids. *)
Lemma C10_upload_without_file_id_witness :
  upload_file Sample.upstream_empty 0%nat "image/png" "AAAA" Sample.serving
  = (Return JNull, answered (jwt_get Sample.upstream_empty Sample.serving).2)
  /\ objects (answered (jwt_get Sample.upstream_empty Sample.serving).2)
     = [Sample.session_1].
Proof.
  destruct (C10_upload_without_file_id Config.default Sample.clock Sample.upstream_empty
              Sample.json_loads Sample.urlsafe_b64decode Sample.hmac_sha256
              0%nat "image/png" "AAAA" Sample.serving)
    as [H _].
  destruct (H "token" (jwt_get Sample.upstream_empty Sample.serving).2
              Sample.session_1 (JStr "1")
              {| status_code := 200; text := "empty" |} (JDict []))
    as (Hnone & _).
  - vm_compute. reflexivity.
  - reflexivity.
  - reflexivity.
  - reflexivity.
  - reflexivity.
  - reflexivity.
  - split; [|reflexivity].
    apply (Hnone []); [reflexivity | left; reflexivity].
Defined.

End SampleRuns.

Section BracesDecoder.

Import JSONStreamParser.

Lemma until_close_progress (s : string) (body : string) (n : nat) :
  until_close s = Some (body, n) -> (0 < n <= String.length s)%nat.
Proof.
  revert body n. induction s as [|c s IH]; intros body n; cbn; [discriminate|].
  destruct (Ascii.eqb c "}"); [intros [= <- <-]; lia|].
  destruct (Ascii.eqb c "{"); [discriminate|].
  destruct (until_close s) as [[b m]|]; [|discriminate].
  intros [= <- <-]. specialize (IH b m eq_refl). lia.
Qed.

Lemma until_close_stable (s more : string) (body : string) (n : nat) :
  until_close s = Some (body, n) -> until_close (s +:+ more) = Some (body, n).
Proof.
  revert body n. induction s as [|c s IH]; intros body n; [discriminate|].
  rewrite append_cons. cbn [until_close].
  destruct (Ascii.eqb c "}"); [intros H; exact H|].
  destruct (Ascii.eqb c "{"); [discriminate|].
  destruct (until_close s) as [[b m]|]; [|discriminate].
  intros [= <- <-]. rewrite (IH b m eq_refl). reflexivity.
Qed.

Lemma braces_decode_progress (s : string) (o : string) (idx : nat) :
  braces_decode s = Some (o, idx) -> (0 < idx <= String.length s)%nat.
Proof.
  destruct s as [|c s]; cbn; [discriminate|].
  destruct (Ascii.eqb c "{"); [|discriminate].
  destruct (until_close s) as [[b m]|] eqn:E; [|discriminate].
  intros [= <- <-]. apply until_close_progress in E. lia.
Qed.

Lemma braces_decode_object (rest : string) (o : string) (idx : nat) (more : string) :
  braces_decode (String "{" rest) = Some (o, idx) ->
  braces_decode (String "{" rest +:+ more) = Some (o, idx).
Proof.
  rewrite append_cons. cbn.
  destruct (until_close rest) as [[b m]|] eqn:E; [|discriminate].
  intros [= <- <-]. rewrite (until_close_stable rest more b m E). reflexivity.
Qed.

Lemma braces_decode_close (rest : string) : braces_decode (String "]" rest) = None.
Proof. reflexivity. Qed.

Lemma sample_payload :
  payload string braces_decode (whole Sample.chunks) ["ab"; "c"; "d"].
Proof.
  change (whole Sample.chunks)
    with (String "[" ("{ab}" +:+ ",  " +:+ "{c}" +:+ "," +:+ "{d}" +:+ "]")).
  apply payload_skip; [reflexivity|].
  apply (payload_object _ _ "{ab}" "ab");
    [split; [eexists; reflexivity | reflexivity]|].
  do 3 (apply payload_skip; [reflexivity|]).
  apply (payload_object _ _ "{c}" "c");
    [split; [eexists; reflexivity | reflexivity]|].
  apply payload_skip; [reflexivity|].
  apply (payload_object _ _ "{d}" "d");
    [split; [eexists; reflexivity | reflexivity]|].
  apply payload_close.
Qed.

(** Three objects in four chunks, two of them cut: the same objects as in
    one piece. *)
Lemma C8_stream_chunking_witness :
  feed string braces_decode Sample.chunks EmptyString
  = decode string braces_decode (whole Sample.chunks) EmptyString
  /\ (feed string braces_decode Sample.chunks EmptyString).1 = ["ab"; "c"; "d"].
Proof.
  destruct (C8_stream_chunking string braces_decode braces_decode_progress
              braces_decode_object braces_decode_close Sample.chunks _ sample_payload)
    as (H1 & H2 & _).
  split; [exact H1 | exact H2].
Defined.

End BracesDecoder.

(** ** Token refresh under the lock *)

Section RefreshFacts.

Import SessionManager.
Import SessionCalls.

Variable cfg : Config.t.
Variable clock : nat -> Z.
Variable upstream : nat -> outcome Response.
Variable json_loads : string -> outcome json.
Variable urlsafe_b64decode : string -> outcome (list byte).
Variable hmac_sha256 : list byte -> list byte -> list byte.

#[local] Abbreviation jwt_get :=
  (jwt_get cfg clock upstream json_loads urlsafe_b64decode hmac_sha256).
#[local] Abbreviation gets :=
  (gets cfg clock upstream json_loads urlsafe_b64decode hmac_sha256).

(** A token that has not expired is returned as it is. *)
Lemma jwt_get_cached (st : State) (mgr : JWTManager.t) :
  Account.jwt_mgr (account st) = Some mgr ->
  clock (ticks st) <= JWTManager.expires mgr ->
  jwt_get st = (Return (JWTManager.jwt mgr), ticked st).
Proof.
  intros Hmgr Hexp. unfold SessionManager.jwt_get, bind, get_account.
  rewrite Hmgr. unfold time_time at 1.
  rewrite (proj2 (Z.ltb_ge _ _)) by lia.
  unfold ret. cbn [account]. rewrite Hmgr. reflexivity.
Qed.

(** A key exchange that is refused. *)
Lemma jwt_get_refused (st : State) (mgr : JWTManager.t) (response : Response) :
  Account.jwt_mgr (account st) = Some mgr ->
  JWTManager.expires mgr < clock (ticks st) ->
  upstream (requests st) = Return response ->
  status_code response <> 200 ->
  exists st',
    jwt_get st
    = (Raise (Exception ("getoxsrf failed: " +:+ str_of_int (status_code response))), st')
    /\ requests st' = S (requests st)
    /\ Account.jwt_mgr (account st') = Some mgr.
Proof.
  intros Hmgr Hexp Hup Hs.
  unfold SessionManager.jwt_get, bind, get_account. rewrite Hmgr.
  unfold time_time at 1. rewrite (proj2 (Z.ltb_lt _ _)) by lia.
  unfold SessionManager.jwt_refresh, bind. unfold http_request at 1.
  cbn [requests]. rewrite Hup, (not_200 _ Hs).
  rewrite penalise_spec. unfold raise.
  eexists. split; [reflexivity|].
  destruct (is_quota_status (status_code response)); cbn; split; try reflexivity;
    exact Hmgr.
Qed.

(** A key exchange that is granted. *)
Lemma jwt_get_granted (st : State) (mgr : JWTManager.t) (response : Response)
    (data : json) (xsrf : string) (key_bytes : list byte) (key_id : json) :
  Account.jwt_mgr (account st) = Some mgr ->
  JWTManager.expires mgr < clock (ticks st) ->
  upstream (requests st) = Return response ->
  status_code response = 200 ->
  json_loads (unguarded (text response)) = Return data ->
  py_getitem data "xsrfToken" = Return (JStr xsrf) ->
  urlsafe_b64decode (xsrf +:+ "==") = Return key_bytes ->
  py_getitem data "keyId" = Return key_id ->
  exists (tok : string) (st' : State),
    jwt_get st = (Return tok, st')
    /\ create_jwt hmac_sha256 key_bytes key_id (Account.csesidx (account st))
         (clock (S (ticks st))) = Return tok
    /\ Account.jwt_mgr (account st')
       = Some {| JWTManager.jwt := tok;
                 JWTManager.expires :=
                   clock (S (S (ticks st))) + Config.JWT_TTL_SECONDS cfg |}
    /\ ticks st' = (ticks st + 3)%nat
    /\ requests st' = S (requests st).
Proof.
  intros Hmgr Hexp Hup Hs Hbody Hx Hkey Hid.
  assert (Htok : exists tok,
             create_jwt hmac_sha256 key_bytes key_id (Account.csesidx (account st))
               (clock (S (ticks st))) = Return tok).
  { unfold create_jwt. rewrite !kq_encode_total. eexists. reflexivity. }
  destruct Htok as [tok Htok]. exists tok.
  unfold SessionManager.jwt_get, bind, get_account. rewrite Hmgr.
  unfold time_time at 1. rewrite (proj2 (Z.ltb_lt _ _)) by lia.
  unfold SessionManager.jwt_refresh, bind. unfold http_request at 1.
  cbn [requests]. rewrite Hup, Hs. cbn [Z.eqb Pos.eqb negb].
  unfold unguarded in Hbody. unfold lift. rewrite Hbody, Hx, Hkey, Hid.
  unfold get_account, time_time. cbn [account ticks]. rewrite Htok.
  unfold set_account, ret, with_account. cbn.
  eexists. split; [reflexivity|]. cbn. repeat split. lia.
Qed.

(** No call of [get] makes more than one request. *)
Lemma jwt_get_requests (st : State) :
  requests (jwt_get st).2 = requests st \/ requests (jwt_get st).2 = S (requests st).
Proof.
  unfold SessionManager.jwt_get, bind, get_account.
  destruct (Account.jwt_mgr (account st)) as [mgr|]; [|left; reflexivity].
  unfold time_time. cbv beta iota.
  destruct (JWTManager.expires mgr <? clock (ticks st)); cbv beta iota.
  - right.
    destruct (SessionManager.jwt_refresh cfg clock upstream json_loads urlsafe_b64decode
                hmac_sha256 _) as [[[] | e] st1] eqn:Er.
    + assert (Hreq : requests st1 = S (requests st)).
      { revert Er. unfold SessionManager.jwt_refresh, bind.
        unfold http_request at 1. cbn [requests].
        destruct (upstream (requests st)) as [response|e0]; [|intros [= <-]; reflexivity].
        destruct (negb (status_code response =? 200)).
        - rewrite penalise_spec. unfold raise. intros [= <-].
        - unfold lift, get_account, time_time, set_account, with_account.
          intros H.
          repeat match type of H with
                 | context [match ?x with _ => _ end] => destruct x; cbn in H
                 end; inversion H; subst; reflexivity. }
      unfold ret. destruct (Account.jwt_mgr (account st1)); exact Hreq.
    + cbn [snd].
      revert Er. unfold SessionManager.jwt_refresh, bind.
      unfold http_request at 1. cbn [requests].
      destruct (upstream (requests st)) as [response|e0]; [|intros [= <- <-]; reflexivity].
      destruct (negb (status_code response =? 200)).
      * rewrite penalise_spec. unfold raise. intros [= <- <-].
        destruct (is_quota_status (status_code response)); reflexivity.
      * unfold lift, get_account, time_time, set_account, with_account.
        intros H.
        repeat match type of H with
               | context [match ?x with _ => _ end] => destruct x; cbn in H
               end; inversion H; subst; reflexivity.
  - left. unfold ret. cbn. destruct (Account.jwt_mgr (account st)); reflexivity.
Qed.

Lemma gets_length (n : nat) : forall st, length (gets n st).1 = n.
Proof.
  induction n as [|n IH]; intros st; [reflexivity|].
  cbn [SessionCalls.gets]. destruct (jwt_get st) as [r st1].
  specialize (IH st1). destruct (gets n st1) as [rs st2]. cbn in *. lia.
Qed.

Lemma gets_requests (n : nat) :
  forall st, (requests st <= requests (gets n st).2 <= requests st + n)%nat.
Proof.
  induction n as [|n IH]; intros st; [cbn; lia|].
  cbn [SessionCalls.gets]. pose proof (jwt_get_requests st) as Hr.
  destruct (jwt_get st) as [r st1]. cbn [snd] in Hr.
  specialize (IH st1). destruct (gets n st1) as [rs st2]. cbn [snd] in *. lia.
Qed.

(** Callers that find the token in date all get it, without a request. *)
Lemma gets_cached (n : nat) :
  forall (st : State) (mgr : JWTManager.t),
    Account.jwt_mgr (account st) = Some mgr ->
    (forall j, (j < n)%nat -> clock (ticks st + j) <= JWTManager.expires mgr) ->
    (gets n st).1 = repeat (Return (JWTManager.jwt mgr)) n
    /\ requests (gets n st).2 = requests st
    /\ account (gets n st).2 = account st.
Proof.
  induction n as [|n IH]; intros st mgr Hmgr Hclock; [repeat split|].
  cbn [SessionCalls.gets repeat].
  rewrite (jwt_get_cached st mgr Hmgr).
  2:{ specialize (Hclock 0%nat ltac:(lia)). rewrite Nat.add_0_r in Hclock. exact Hclock. }
  destruct (IH (ticked st) mgr Hmgr) as (H1 & H2 & H3).
  { intros j Hj. cbn [ticked ticks].
    replace (S (ticks st) + j)%nat with (ticks st + S j)%nat by lia.
    apply Hclock. lia. }
  destruct (gets n (ticked st)) as [rs st2]. cbn [fst snd] in *.
  rewrite H1. repeat split; assumption.
Qed.

(** Callers that all meet a refusal each make their own request. *)
Lemma gets_refused (n : nat) :
  forall (st : State) (mgr : JWTManager.t),
    Account.jwt_mgr (account st) = Some mgr ->
    (forall i, JWTManager.expires mgr < clock i) ->
    (forall j, (j < n)%nat ->
               exists response, upstream (requests st + j) = Return response
                                /\ status_code response <> 200) ->
    requests (gets n st).2 = (requests st + n)%nat
    /\ Forall (fun r => exists msg, r = Raise (Exception ("getoxsrf failed: " +:+ msg)))
         (gets n st).1
    /\ Account.jwt_mgr (account (gets n st).2) = Some mgr.
Proof.
  induction n as [|n IH]; intros st mgr Hmgr Hexp Hup.
  - cbn. split; [lia|]. split; [constructor | exact Hmgr].
  - destruct (Hup 0%nat ltac:(lia)) as (response & Hr & Hs).
    rewrite Nat.add_0_r in Hr.
    destruct (jwt_get_refused st mgr response Hmgr (Hexp _) Hr Hs)
      as (st1 & E & Hreq & Hmgr1).
    cbn [SessionCalls.gets]. rewrite E.
    destruct (IH st1 mgr Hmgr1 Hexp) as (H1 & H2 & H3).
    { intros j Hj. rewrite Hreq.
      replace (S (requests st) + j)%nat with (requests st + S j)%nat by lia.
      apply Hup. lia. }
    destruct (gets n st1) as [rs st2]. cbn [fst snd] in *.
    split; [lia|]. split; [|exact H3].
    constructor; [eexists; reflexivity | exact H2].
Qed.

(** C9, amended: [get] holds the lock of the account over its whole body,
    so the callers that ask for a token at once run one after another, and
    no call makes more than one request.  When the token has expired and
    the key exchange of the first caller is granted, that caller alone
    makes a request, and it and every caller that follows before the new
    expiry receive the token it made.  When the exchange is refused,
    nothing is kept: the call raises, and the next caller makes a key
    exchange of its own, so that [n] callers that are all refused make [n]
    requests in the same expiry window. *)
Theorem C9_single_flight_refresh :
  forall (n : nat) (st : State) (mgr : JWTManager.t),
    Account.jwt_mgr (account st) = Some mgr ->
    (requests st <= requests (gets n st).2 <= requests st + n)%nat
    /\ (forall response data xsrf key_bytes key_id,
          JWTManager.expires mgr < clock (ticks st) ->
          upstream (requests st) = Return response ->
          status_code response = 200 ->
          json_loads (unguarded (text response)) = Return data ->
          py_getitem data "xsrfToken" = Return (JStr xsrf) ->
          urlsafe_b64decode (xsrf +:+ "==") = Return key_bytes ->
          py_getitem data "keyId" = Return key_id ->
          (forall j, (j < n)%nat ->
                     clock (ticks st + 3 + j)
                     <= clock (S (S (ticks st))) + Config.JWT_TTL_SECONDS cfg) ->
          exists tok,
            create_jwt hmac_sha256 key_bytes key_id (Account.csesidx (account st))
              (clock (S (ticks st))) = Return tok
            /\ (gets (S n) st).1 = repeat (Return tok) (S n)
            /\ requests (gets (S n) st).2 = S (requests st))
    /\ ((forall i, JWTManager.expires mgr < clock i) ->
        (forall j, (j < n)%nat ->
                   exists response, upstream (requests st + j) = Return response
                                    /\ status_code response <> 200) ->
        requests (gets n st).2 = (requests st + n)%nat
        /\ length (gets n st).1 = n
        /\ Forall (fun r => exists msg, r = Raise (Exception ("getoxsrf failed: " +:+ msg)))
             (gets n st).1
        /\ Account.jwt_mgr (account (gets n st).2) = Some mgr).
Proof.
  intros n st mgr Hmgr. split; [apply gets_requests|]. split.
  - intros response data xsrf key_bytes key_id Hexp Hup Hs Hbody Hx Hkey Hid Hclock.
    destruct (jwt_get_granted st mgr response data xsrf key_bytes key_id
                Hmgr Hexp Hup Hs Hbody Hx Hkey Hid)
      as (tok & st1 & E & Htok & Hnew & Ht & Hr).
    exists tok. split; [exact Htok|].
    cbn [SessionCalls.gets repeat]. rewrite E.
    destruct (gets_cached n st1 _ Hnew) as (H1 & H2 & _).
    { intros j Hj. rewrite Ht. cbn [JWTManager.expires]. apply Hclock. exact Hj. }
    destruct (gets n st1) as [rs st2]. cbn [fst snd] in *.
    rewrite H1. split; [reflexivity | congruence].
  - intros Hexp Hup.
    destruct (gets_refused n st mgr Hmgr Hexp Hup) as (H1 & H2 & H3).
    split; [exact H1|]. split; [apply gets_length|]. split; assumption.
Qed.

End RefreshFacts.

(** C9, as stated, fails when the key exchange is refused: of two callers
    that find the token of the account expired, the second does not receive
    a token refreshed by the first; each makes a key exchange of its own,
    two round trips in one expiry window, and each raises. *)
Lemma C9_refused_exchange_is_repeated :
  (SessionCalls.gets Config.default Sample.clock Sample.upstream_429 Sample.json_loads
     Sample.urlsafe_b64decode Sample.hmac_sha256 2 Fixture.stale).1
  = [Raise (Exception "getoxsrf failed: 429"); Raise (Exception "getoxsrf failed: 429")]
  /\ SessionManager.requests
       (SessionCalls.gets Config.default Sample.clock Sample.upstream_429 Sample.json_loads
          Sample.urlsafe_b64decode Sample.hmac_sha256 2 Fixture.stale).2
     = 2%nat.
Proof.
  vm_compute. split; reflexivity.
Qed.

(** Three callers and a granted exchange: one request, one token for all. *)
Lemma C9_single_flight_refresh_witness :
  exists tok,
    (SessionCalls.gets Config.default Sample.clock Fixture.upstream_granted
       Fixture.granted_loads Sample.urlsafe_b64decode Sample.hmac_sha256 3 Fixture.stale).1
    = [Return tok; Return tok; Return tok]
    /\ SessionManager.requests
         (SessionCalls.gets Config.default Sample.clock Fixture.upstream_granted
            Fixture.granted_loads Sample.urlsafe_b64decode Sample.hmac_sha256 3
            Fixture.stale).2
       = 1%nat.
Proof.
  destruct (C9_single_flight_refresh Config.default Sample.clock Fixture.upstream_granted
              Fixture.granted_loads Sample.urlsafe_b64decode Sample.hmac_sha256
              2 Fixture.stale {| JWTManager.jwt := "old"; JWTManager.expires := 500 |}
              eq_refl) as (_ & H & _).
  destruct (H {| status_code := 200; text := ")]}'{}" |}
              (JDict [("xsrfToken", JStr "a2V5"); ("keyId", JStr "kid-1")])
              "a2V5" [] (JStr "kid-1")) as (tok & _ & Hres & Hreq).
  - vm_compute. reflexivity.
  - reflexivity.
  - reflexivity.
  - reflexivity.
  - reflexivity.
  - reflexivity.
  - reflexivity.
  - intros j Hj. vm_compute. discriminate.
  - exists tok. split; [exact Hres | exact Hreq].
Defined.

(** * Further properties of the code *)

(** ** Account health *)

(** X1: A penalised account stays out until its cooldown has run: after
    [mark_quota_error] at [now] the account is unavailable at every time
    before [now + cooldown], and a penalty never turns an unavailable account
    into an available one. *)
Theorem mark_quota_error_blocks :
  forall (cfg : Config.t) (now status : Z) (detail : string) (a : Account.t) (t : Z),
    (t < now + Account.cooldown_of cfg status ->
     Account.is_available t (Account.mark_quota_error cfg now status detail a) = false)
    /\ (Account.is_available t (Account.mark_quota_error cfg now status detail a) = true ->
        Account.is_available t a = true).
Proof.
  intros cfg now status detail a t. unfold Account.is_available. cbn.
  split.
  - intros Ht. apply andb_false_iff. left. apply Z.leb_gt. lia.
  - intros H. apply andb_true_iff in H as [H1 H2].
    apply Z.leb_le in H1. apply Z.ltb_lt in H2.
    apply andb_true_iff. split; [apply Z.leb_le | apply Z.ltb_lt]; lia.
Qed.

Lemma mark_quota_error_blocks_witness :
  Account.is_available 1299
    (Account.mark_quota_error Config.default 1000 429 "quota"
       (Account.new "acc-1" "s" "42" "cfg" None)) = false.
Proof.
  apply (mark_quota_error_blocks Config.default 1000 429 "quota"
           (Account.new "acc-1" "s" "42" "cfg" None) 1299).
  vm_compute. reflexivity.
Defined.

Lemma mark_quota_errors_fail_count cfg marks :
  forall a,
    Account.fail_count (mark_quota_errors cfg marks a)
    = Account.fail_count a + Z.of_nat (length marks).
Proof.
  unfold mark_quota_errors.
  induction marks as [|m marks IH]; intros a; cbn [fold_left length].
  - lia.
  - rewrite IH. cbn. lia.
Qed.

Lemma mark_quota_errors_disabled_until cfg marks :
  forall a,
    Account.disabled_until a <= Account.disabled_until (mark_quota_errors cfg marks a).
Proof.
  unfold mark_quota_errors.
  induction marks as [|m marks IH]; intros a; cbn [fold_left].
  - lia.
  - etransitivity; [|apply IH]. cbn. lia.
Qed.

(** X2: Three strikes: an account whose failure count is not negative (it starts
    at 0 and is only ever incremented or reset to 0) is unavailable at every
    time once [mark_quota_error] has been called three times or more,
    whatever the statuses and however long ago; its cooldown has not become
    shorter either. *)
Theorem three_strikes :
  forall (cfg : Config.t) (marks : list (Z * Z * string)) (a : Account.t),
    0 <= Account.fail_count a ->
    (3 <= length marks)%nat ->
    (forall t, Account.is_available t (mark_quota_errors cfg marks a) = false)
    /\ Account.fail_count (mark_quota_errors cfg marks a)
       = Account.fail_count a + Z.of_nat (length marks)
    /\ Account.disabled_until a <= Account.disabled_until (mark_quota_errors cfg marks a).
Proof.
  intros cfg marks a Hf Hn.
  pose proof (mark_quota_errors_fail_count cfg marks a) as Hc.
  split; [|split; [exact Hc | apply mark_quota_errors_disabled_until]].
  intros t. unfold Account.is_available.
  apply andb_false_iff. right. apply Z.ltb_ge. lia.
Qed.

Lemma three_strikes_witness :
  Account.is_available 1000000
    (mark_quota_errors Config.default
       [(10, 500, "a"); (20, 500, "b"); (30, 500, "c")]
       (Account.new "acc-1" "s" "42" "cfg" None)) = false.
Proof.
  apply (three_strikes Config.default
           [(10, 500, "a"); (20, 500, "b"); (30, 500, "c")]
           (Account.new "acc-1" "s" "42" "cfg" None)).
  - cbn. lia.
  - cbn. lia.
Defined.

(** X3: [mark_success] forgives the strikes but not the cooldown: after it the
    account is available exactly from [disabled_until] on, so a success that
    follows a penalty does not bring the account back before the penalty has
    run.  [reset_cooldown] forgives both: the account is available at every
    time from 0 on. *)
Theorem mark_success_keeps_cooldown :
  forall (cfg : Config.t) (a : Account.t) (now t : Z),
    Account.is_available t (Account.mark_success now a)
    = (Account.disabled_until a <=? t)
    /\ Account.is_available t (Account.reset_cooldown a) = (0 <=? t)
    /\ (forall at_ status detail,
          t < at_ + Account.cooldown_of cfg status ->
          Account.is_available t
            (Account.mark_success now (Account.mark_quota_error cfg at_ status detail a))
          = false
          /\ Account.is_available t
               (Account.reset_cooldown (Account.mark_quota_error cfg at_ status detail a))
             = (0 <=? t)).
Proof.
  intros cfg a now t. unfold Account.is_available. cbn.
  split; [apply andb_true_r|]. split; [apply andb_true_r|].
  intros at_ status detail Ht. split; [|apply andb_true_r].
  rewrite andb_true_r. apply Z.leb_gt. lia.
Qed.

Lemma mark_success_keeps_cooldown_witness :
  Account.is_available 1100
    (Account.mark_success 1050
       (Account.mark_quota_error Config.default 1000 429 "quota"
          (Account.new "acc-1" "s" "42" "cfg" None))) = false.
Proof.
  destruct (mark_success_keeps_cooldown Config.default
              (Account.new "acc-1" "s" "42" "cfg" None) 1050 1100) as (_ & _ & H).
  apply (H 1000 429 "quota"). vm_compute. reflexivity.
Defined.

(** ** Adding, finding and removing accounts *)

Lemma find_by_name_app nm l1 l2 :
  AccountPool.find_by_name nm (l1 ++ l2)%list
  = match AccountPool.find_by_name nm l1 with
    | Some acc => Some acc
    | None => AccountPool.find_by_name nm l2
    end.
Proof.
  induction l1 as [|x l1 IH]; cbn; [reflexivity|].
  destruct (bool_decide (Account.name x = nm)); [reflexivity | exact IH].
Qed.

Lemma find_by_name_none nm l :
  AccountPool.find_by_name nm l = None <-> Forall (fun a => Account.name a <> nm) l.
Proof.
  induction l as [|x l IH]; cbn.
  - split; [constructor | reflexivity].
  - destruct (bool_decide_reflect (Account.name x = nm)) as [E|E].
    + split; [discriminate|]. intros H. inversion H; subst. contradiction.
    + rewrite IH. split; [intros H; constructor; assumption|].
      intros H. inversion H; assumption.
Qed.

Lemma pop_first_spec nm l :
  match AccountPool.find_by_name nm l with
  | Some acc =>
      exists l1 l2,
        l = (l1 ++ acc :: l2)%list
        /\ Forall (fun a => Account.name a <> nm) l1
        /\ Account.name acc = nm
        /\ AccountPool.pop_first nm l = Some (l1 ++ l2)%list
  | None => AccountPool.pop_first nm l = None
  end.
Proof.
  induction l as [|x l IH]; cbn; [reflexivity|].
  destruct (bool_decide_reflect (Account.name x = nm)) as [E|E].
  - exists [], l. repeat split; [constructor | exact E].
  - destruct (AccountPool.find_by_name nm l) as [acc|].
    + destruct IH as (l1 & l2 & -> & Hl1 & Hacc & ->).
      exists (x :: l1), l2. repeat split; [constructor; assumption | exact Hacc].
    + rewrite IH. reflexivity.
Qed.

(** X4: [remove_account] removes the account that [get_account] finds, and only
    it: when the name is in the pool the first account of that name is
    dropped, the others keep their order (a later account of the same name
    stays), the cursor is not touched and the answer is [True]; when it is
    not, the pool is unchanged and the answer is [False]. *)
Theorem remove_account_removes_first :
  forall (nm : string) (p : AccountPool.t),
    match AccountPool.get_account nm p with
    | Some acc =>
        exists l1 l2,
          AccountPool.accounts p = (l1 ++ acc :: l2)%list
          /\ Forall (fun a => Account.name a <> nm) l1
          /\ Account.name acc = nm
          /\ AccountPool.remove_account nm p
             = (true, {| AccountPool.accounts := (l1 ++ l2)%list;
                         AccountPool._rr_index := AccountPool._rr_index p |})
          /\ AccountPool.get_account nm (snd (AccountPool.remove_account nm p))
             = AccountPool.find_by_name nm l2
    | None =>
        Forall (fun a => Account.name a <> nm) (AccountPool.accounts p)
        /\ AccountPool.remove_account nm p = (false, p)
    end.
Proof.
  intros nm p. unfold AccountPool.get_account, AccountPool.remove_account.
  pose proof (pop_first_spec nm (AccountPool.accounts p)) as H.
  destruct (AccountPool.find_by_name nm (AccountPool.accounts p)) as [acc|] eqn:E.
  - destruct H as (l1 & l2 & Hl & Hl1 & Hacc & Hpop).
    exists l1, l2. rewrite Hpop. cbn.
    repeat split; try assumption.
    rewrite find_by_name_app.
    rewrite (proj2 (find_by_name_none nm l1) Hl1). reflexivity.
  - rewrite H. split; [apply find_by_name_none; exact E | reflexivity].
Qed.

Lemma find_by_name_alter (objs : list Account.t) (addr : nat) (m : option JWTManager.t)
    (nm : string) (l : list nat) :
  PoolObjects.find_by_name (alter (Account.with_jwt_mgr m) addr objs) nm l
  = PoolObjects.find_by_name objs nm l.
Proof.
  induction l as [|x l IH]; [reflexivity|]. cbn [PoolObjects.find_by_name].
  rewrite IH. destruct (decide (addr = x)) as [->|Hne].
  - rewrite list_lookup_alter_eq. destruct (objs !! x) as [acc|]; reflexivity.
  - rewrite list_lookup_alter_ne by exact Hne. reflexivity.
Qed.

Lemma find_by_name_objects_app (objs : list Account.t) (nm : string) (l1 l2 : list nat) :
  PoolObjects.find_by_name objs nm (l1 ++ l2)%list
  = match PoolObjects.find_by_name objs nm l1 with
    | Some x => Some x
    | None => PoolObjects.find_by_name objs nm l2
    end.
Proof.
  induction l1 as [|x l1 IH]; [reflexivity|]. cbn [app PoolObjects.find_by_name].
  destruct (objs !! x) as [acc|]; [|exact IH].
  destruct (bool_decide (Account.name acc = nm)); [reflexivity | exact IH].
Qed.

Lemma values_alter_other (objs : list Account.t) (addr : nat) (f : Account.t -> Account.t)
    (l : list nat) :
  addr ∉ l -> PoolObjects.values (alter f addr objs) l = PoolObjects.values objs l.
Proof.
  induction l as [|x l IH]; intros Hnot; [reflexivity|]. cbn [PoolObjects.values].
  rewrite not_elem_of_cons in Hnot. destruct Hnot as [Hne Hnot].
  rewrite list_lookup_alter_ne by exact Hne. rewrite (IH Hnot). reflexivity.
Qed.

Lemma values_app (objs : list Account.t) (l1 l2 : list nat) :
  PoolObjects.values objs (l1 ++ l2)%list
  = (PoolObjects.values objs l1 ++ PoolObjects.values objs l2)%list.
Proof.
  induction l1 as [|x l1 IH]; [reflexivity|]. cbn [app PoolObjects.values].
  destruct (objs !! x); [cbn; rewrite IH|]; [reflexivity | exact IH].
Qed.

(** X5: [add_account] appends and never replaces, and it changes the object
    it is given in place.  With the [Account] objects told apart: looking a
    name up after [add_account(account)] gives the very object that was found
    under that name before if there was one, and otherwise the object added
    if the name is its own; the object added has a new token manager, also
    when the pool held it already, in which case [get_account] now returns
    it with the new manager and without its token; no other object is
    changed.  When the object added is not yet held, the accounts held are,
    by value, those that the pool by value gets. *)
Theorem add_account_then_get :
  forall (nm : string) (addr : nat) (p : PoolObjects.t) (a : Account.t),
    PoolObjects.objects p !! addr = Some a ->
    PoolObjects.get_account nm (PoolObjects.add_account addr p)
    = match PoolObjects.get_account nm p with
      | Some x => Some x
      | None => if bool_decide (Account.name a = nm) then Some addr else None
      end
    /\ PoolObjects.objects (PoolObjects.add_account addr p) !! addr
       = Some (Account.with_jwt_mgr (Some JWTManager.init) a)
    /\ (forall x, x <> addr ->
                  PoolObjects.objects (PoolObjects.add_account addr p) !! x
                  = PoolObjects.objects p !! x)
    /\ (PoolObjects.get_account nm p = Some addr ->
        exists acc,
          PoolObjects.get_account nm (PoolObjects.add_account addr p) = Some addr
          /\ PoolObjects.objects (PoolObjects.add_account addr p) !! addr = Some acc
          /\ Account.jwt_mgr acc = Some JWTManager.init)
    /\ (addr ∉ PoolObjects.accounts p ->
        forall rr,
          PoolObjects.held (PoolObjects.add_account addr p)
          = AccountPool.accounts
              (AccountPool.add_account a
                 {| AccountPool.accounts := PoolObjects.held p;
                    AccountPool._rr_index := rr |})).
Proof.
  intros nm addr p a Ha.
  assert (Hget : PoolObjects.get_account nm (PoolObjects.add_account addr p)
                 = match PoolObjects.get_account nm p with
                   | Some x => Some x
                   | None => if bool_decide (Account.name a = nm) then Some addr else None
                   end).
  { unfold PoolObjects.get_account, PoolObjects.add_account.
    cbn [PoolObjects.objects PoolObjects.accounts].
    rewrite find_by_name_alter, find_by_name_objects_app.
    cbn [PoolObjects.find_by_name]. rewrite Ha. reflexivity. }
  assert (Hnew : PoolObjects.objects (PoolObjects.add_account addr p) !! addr
                 = Some (Account.with_jwt_mgr (Some JWTManager.init) a)).
  { unfold PoolObjects.add_account. cbn [PoolObjects.objects].
    rewrite list_lookup_alter_eq, Ha. reflexivity. }
  split; [exact Hget|]. split; [exact Hnew|]. split; [|split].
  - intros x Hne. unfold PoolObjects.add_account. cbn [PoolObjects.objects].
    apply list_lookup_alter_ne. congruence.
  - intros Hfound. eexists. rewrite Hget, Hfound. split; [reflexivity|].
    split; [exact Hnew | reflexivity].
  - intros Hnot rr. unfold PoolObjects.held, PoolObjects.add_account, AccountPool.add_account.
    cbn [PoolObjects.objects PoolObjects.accounts AccountPool.accounts].
    rewrite values_app, (values_alter_other _ _ _ _ Hnot).
    cbn [PoolObjects.values]. rewrite list_lookup_alter_eq, Ha. reflexivity.
Qed.

(** Account [A], held by the pool with a token, is added again: it is found
    under its name as before, and its token is gone. *)
Lemma add_account_then_get_witness :
  exists acc,
    PoolObjects.get_account "A"
      (PoolObjects.add_account 0
         {| PoolObjects.objects := [Sample.account_A]; PoolObjects.accounts := [0%nat] |})
    = Some 0%nat
    /\ PoolObjects.objects
         (PoolObjects.add_account 0
            {| PoolObjects.objects := [Sample.account_A]; PoolObjects.accounts := [0%nat] |})
       !! 0%nat = Some acc
    /\ Account.jwt_mgr acc = Some JWTManager.init.
Proof.
  destruct (add_account_then_get "A" 0
              {| PoolObjects.objects := [Sample.account_A]; PoolObjects.accounts := [0%nat] |}
              Sample.account_A eq_refl) as (_ & _ & _ & H & _).
  apply H. reflexivity.
Defined.

(** X6: Adding an account under a name the pool does not have and removing that
    name again gives back the pool as it was, cursor included. *)
Theorem add_then_remove_account :
  forall (a : Account.t) (p : AccountPool.t),
    AccountPool.get_account (Account.name a) p = None ->
    AccountPool.remove_account (Account.name a) (AccountPool.add_account a p) = (true, p).
Proof.
  intros a p Hnone.
  pose proof (pop_first_spec (Account.name a)
                (AccountPool.accounts (AccountPool.add_account a p))) as H.
  change (AccountPool.find_by_name (Account.name a)
            (AccountPool.accounts (AccountPool.add_account a p)))
    with (AccountPool.get_account (Account.name a) (AccountPool.add_account a p)) in H.
  unfold AccountPool.get_account in *.
  unfold AccountPool.add_account in H. cbn [AccountPool.accounts] in H.
  rewrite find_by_name_app, Hnone in H. cbn in H.
  rewrite bool_decide_eq_true_2 in H by reflexivity.
  destruct H as (l1 & l2 & Hl & Hl1 & _ & Hpop).
  apply find_by_name_none in Hnone.
  assert (l2 = [] /\ l1 = AccountPool.accounts p) as [-> ->].
  { clear Hpop. revert l1 Hl Hl1 Hnone.
    generalize (AccountPool.accounts p). intros l.
    induction l as [|x l IH]; intros l1 Hl Hl1 Hnone.
    - destruct l1 as [|y l1]; cbn in Hl.
      + inversion Hl. split; reflexivity.
      + inversion Hl as [[Hy Hrest]]. destruct l1; discriminate Hrest.
    - destruct l1 as [|y l1]; cbn in Hl.
      + inversion Hl as [[Hx Hrest]]. inversion Hnone as [|? ? Hx' _]; subst.
        exfalso. apply Hx'. reflexivity.
      + inversion Hl as [[Hy Hrest]]. subst y.
        inversion Hl1; subst. inversion Hnone; subst.
        destruct (IH l1 Hrest) as [-> ->]; [assumption | assumption |].
        split; reflexivity. }
  unfold AccountPool.remove_account, AccountPool.add_account. cbn [AccountPool.accounts].
  rewrite Hpop, app_nil_r. destruct p; reflexivity.
Qed.

Lemma add_then_remove_account_witness :
  AccountPool.remove_account "A"
    (AccountPool.add_account Sample.account_A AccountPool.init)
  = (true, AccountPool.init).
Proof.
  apply (add_then_remove_account Sample.account_A AccountPool.init).
  reflexivity.
Defined.

(** ** The session cache of the pool *)

Section CacheFacts.

Import ConversationCache.

Lemma filter_keys_elem (f : string * entry -> bool) (l : list (string * entry)) (k : string) :
  k ∈ map fst (List.filter f l) <-> exists v, (k, v) ∈ l /\ f (k, v) = true.
Proof.
  induction l as [|[k0 v0] l IH]; cbn.
  - split; [intros H; inversion H | intros (v & H & _); inversion H].
  - destruct (f (k0, v0)) eqn:E; cbn.
    + rewrite elem_of_cons, IH. split.
      * intros [-> | (v & Hv & Hf)]; [exists v0 | exists v]; split; try assumption;
          [left | right; assumption].
      * intros (v & Hv & Hf). apply elem_of_cons in Hv as [Hv | Hv].
        -- left. congruence.
        -- right. exists v. split; assumption.
    + rewrite IH. split.
      * intros (v & Hv & Hf). exists v. split; [right|]; assumption.
      * intros (v & Hv & Hf). apply elem_of_cons in Hv as [Hv | Hv].
        -- congruence.
        -- exists v. split; assumption.
Qed.

Lemma filter_keys_NoDup (f : string * entry -> bool) (l : list (string * entry)) :
  NoDup (l.*1) -> NoDup (map fst (List.filter f l)).
Proof.
  induction l as [|[k0 v0] l IH]; cbn; [constructor|].
  intros H. apply NoDup_cons in H as [Hk Hl].
  destruct (f (k0, v0)); cbn; [|apply IH, Hl].
  apply NoDup_cons. split; [|apply IH, Hl].
  intros Hin. apply filter_keys_elem in Hin as (v & Hv & _).
  apply Hk. apply list_elem_of_fmap. exists (k0, v). split; [reflexivity | exact Hv].
Qed.

Lemma old_keys_elem (max_age now : Z) (c : t) (k : string) :
  k ∈ old_keys max_age now c
  <-> exists v, c !! k = Some v /\ is_old max_age now v = true.
Proof.
  unfold old_keys. rewrite filter_keys_elem.
  split; intros (v & Hv & Hf); exists v; (split; [|exact Hf]).
  - apply elem_of_map_to_list in Hv. exact Hv.
  - apply elem_of_map_to_list. exact Hv.
Qed.

Lemma del_all_spec (ks : list string) :
  forall c : t,
    NoDup ks ->
    (forall k, k ∈ ks -> is_Some (c !! k)) ->
    exists c',
      del_all ks c = Return c'
      /\ (forall k, c' !! k = if bool_decide (k ∈ ks) then None else c !! k)
      /\ (size c' + length ks = size c)%nat.
Proof.
  induction ks as [|k0 ks IH]; intros c Hnd Hin; cbn [del_all].
  - exists c. split; [reflexivity|]. split; [|cbn; lia].
    intros k. rewrite bool_decide_eq_false_2; [reflexivity|]. intros H; inversion H.
  - apply NoDup_cons in Hnd as [Hk0 Hnd].
    destruct (Hin k0 ltac:(left)) as [v0 Hv0].
    unfold py_del. rewrite Hv0.
    destruct (IH (delete k0 c) Hnd) as (c' & Hdel & Hlook & Hsize).
    { intros k Hk. rewrite lookup_delete_ne; [apply Hin; right; exact Hk|].
      intros ->. contradiction. }
    exists c'. split; [exact Hdel|]. split.
    + intros k. rewrite Hlook.
      destruct (decide (k = k0)) as [->|Hne].
      * rewrite (bool_decide_eq_false_2 _ Hk0).
        rewrite (bool_decide_eq_true_2 (k0 ∈ k0 :: ks)) by left.
        apply lookup_delete_eq.
      * rewrite lookup_delete_ne by congruence.
        destruct (bool_decide_reflect (k ∈ ks)) as [Hk|Hk].
        -- rewrite bool_decide_eq_true_2 by (right; exact Hk). reflexivity.
        -- rewrite bool_decide_eq_false_2; [reflexivity|].
           intros H. apply elem_of_cons in H as [H|H]; contradiction.
    + cbn [length]. rewrite map_size_delete, Hv0 in Hsize.
      assert (size c <> 0%nat).
      { intros Hz. apply map_size_empty_inv in Hz. subst c.
        rewrite lookup_empty in Hv0. discriminate. }
      lia.
Qed.

(** X7: [clear_old_sessions] never raises.  It removes the entries that are
    older than [max_age_seconds] at the time it reads, and only them; the
    entries it keeps are unchanged, and the number it returns is the
    number of entries removed. *)
Theorem clear_old_sessions_removes_old :
  forall (max_age now : Z) (c : t),
    exists (n : Z) (c' : t),
      clear_old_sessions max_age now c = Return (n, c')
      /\ (forall k,
            c' !! k = match c !! k with
                      | Some v => if is_old max_age now v then None else Some v
                      | None => None
                      end)
      /\ Z.of_nat (size c') + n = Z.of_nat (size c)
      /\ 0 <= n.
Proof.
  intros max_age now c. unfold clear_old_sessions.
  destruct (del_all_spec (old_keys max_age now c) c) as (c' & Hdel & Hlook & Hsize).
  - unfold old_keys. apply filter_keys_NoDup, NoDup_fst_map_to_list.
  - intros k Hk. apply old_keys_elem in Hk as (v & Hv & _). exists v. exact Hv.
  - rewrite Hdel. exists (Z.of_nat (length (old_keys max_age now c))), c'.
    split; [reflexivity|]. split; [|lia].
    intros k. rewrite Hlook.
    destruct (bool_decide_reflect (k ∈ old_keys max_age now c)) as [Hk|Hk].
    + apply old_keys_elem in Hk as (v & -> & ->). reflexivity.
    + destruct (c !! k) as [v|] eqn:E; [|reflexivity].
      destruct (is_old max_age now v) eqn:Ho; [|reflexivity].
      exfalso. apply Hk, old_keys_elem. exists v. split; assumption.
Qed.

(** X8: An entry cached at time [t0] is what [get_cached_session] returns for
    its key, also after [clear_old_sessions(max_age)] has run at a time
    not later than [t0 + max_age]; once it has run at a later time the key
    is gone. *)
Theorem cached_session_lifetime :
  forall (key : string) (sid : json) (name : string) (t0 max_age now : Z) (c : t),
    let c0 := cache_session key sid name t0 c in
    get_cached_session key c0
    = Some {| session_id := sid; account := name; updated_at := t0 |}
    /\ exists (n : Z) (c' : t),
         clear_old_sessions max_age now c0 = Return (n, c')
         /\ (now <= t0 + max_age ->
             get_cached_session key c'
             = Some {| session_id := sid; account := name; updated_at := t0 |})
         /\ (t0 + max_age < now -> get_cached_session key c' = None).
Proof.
  intros key sid name t0 max_age now c c0.
  assert (H0 : c0 !! key = Some {| session_id := sid; account := name; updated_at := t0 |}).
  { subst c0. unfold cache_session. apply lookup_insert_eq. }
  split; [exact H0|].
  destruct (clear_old_sessions_removes_old max_age now c0) as (n & c' & Hc & Hlook & _).
  exists n, c'. split; [exact Hc|].
  unfold get_cached_session. rewrite Hlook, H0. unfold is_old. cbn [updated_at].
  split; intros Ht.
  - rewrite (proj2 (Z.ltb_ge _ _)) by lia. reflexivity.
  - rewrite (proj2 (Z.ltb_lt _ _)) by lia. reflexivity.
Qed.

End CacheFacts.

(** ** Looking for one account *)

Section LookupFacts.

Variable clock : nat -> Z.

Lemma first_available_spec (wanted : Account.t -> bool) (accs : list Account.t) :
  forall (k : nat),
    let r := ConversationCache.first_available clock wanted accs k in
    (k <= snd r <= k + length accs)%nat
    /\ match fst r with
       | Some acc =>
           acc ∈ accs /\ wanted acc = true /\ (k < snd r)%nat
           /\ Account.is_available (clock (snd r - 1)) acc = true
       | None =>
           forall b, b ∈ accs -> wanted b = true ->
                     exists i, (k <= i < snd r)%nat
                               /\ Account.is_available (clock i) b = false
       end.
Proof.
  induction accs as [|a accs IH]; intros k; cbn.
  - split; [lia|]. intros b Hb. inversion Hb.
  - destruct (wanted a) eqn:Hw.
    + destruct (Account.is_available (clock k) a) eqn:Ha; cbn.
      * split; [lia|]. repeat split; [left | exact Hw | lia |].
        rewrite Nat.sub_0_r. exact Ha.
      * destruct (IH (S k)) as [Hk Hr]. split; [lia|].
        destruct (fst (ConversationCache.first_available clock wanted accs (S k))) as [acc|].
        -- destruct Hr as (H1 & H2 & H3 & H4). repeat split; [right| | lia |]; assumption.
        -- intros b Hb Hwb. apply elem_of_cons in Hb as [-> | Hb].
           ++ exists k. split; [lia | exact Ha].
           ++ destruct (Hr b Hb Hwb) as (i & Hi & Hib). exists i. split; [lia | exact Hib].
    + destruct (IH k) as [Hk Hr]. split; [lia|].
      destruct (fst (ConversationCache.first_available clock wanted accs k)) as [acc|].
      * destruct Hr as (H1 & H2 & H3 & H4). repeat split; [right| | |]; assumption.
      * intros b Hb Hwb. apply elem_of_cons in Hb as [-> | Hb]; [congruence|].
        apply (Hr b Hb Hwb).
Qed.

(** The clock is read once for every wanted account that is looked at,
    in order, and never for the others. *)
Lemma first_available_reads (wanted : Account.t -> bool) (accs : list Account.t) :
  forall (k : nat),
    match ConversationCache.first_available clock wanted accs k with
    | (Some acc, k') =>
        exists l1 l2,
          accs = (l1 ++ acc :: l2)%list
          /\ k' = (k + length (List.filter wanted l1) + 1)%nat
          /\ Account.is_available (clock (k + length (List.filter wanted l1))) acc = true
          /\ (forall i b, List.filter wanted l1 !! i = Some b ->
                          Account.is_available (clock (k + i)) b = false)
    | (None, k') =>
        k' = (k + length (List.filter wanted accs))%nat
        /\ (forall i b, List.filter wanted accs !! i = Some b ->
                        Account.is_available (clock (k + i)) b = false)
    end.
Proof.
  induction accs as [|a accs IH]; intros k; cbn [ConversationCache.first_available].
  - cbn. split; [lia|]. intros i b H. rewrite lookup_nil in H. discriminate.
  - destruct (wanted a) eqn:Hw.
    + destruct (Account.is_available (clock k) a) eqn:Ha.
      * exists [], accs. cbn. rewrite Nat.add_0_r. repeat split; [lia | exact Ha |].
        intros i b H. rewrite lookup_nil in H. discriminate.
      * specialize (IH (S k)).
        destruct (ConversationCache.first_available clock wanted accs (S k)) as [[acc|] k'].
        -- destruct IH as (l1 & l2 & -> & -> & Hacc & Hbefore).
           exists (a :: l1), l2. cbn [app List.filter]. rewrite Hw. cbn [length].
           split; [reflexivity|]. split; [lia|]. split.
           ++ replace (k + S (length (List.filter wanted l1)))%nat
                with (S k + length (List.filter wanted l1))%nat by lia. exact Hacc.
           ++ intros [|i] b H; cbn in H.
              ** inversion H; subst. rewrite Nat.add_0_r. exact Ha.
              ** replace (k + S i)%nat with (S k + i)%nat by lia. apply (Hbefore i b H).
        -- destruct IH as (-> & Hall). cbn [List.filter]. rewrite Hw. cbn [length].
           split; [lia|].
           intros [|i] b H; cbn in H.
           ++ inversion H; subst. rewrite Nat.add_0_r. exact Ha.
           ++ replace (k + S i)%nat with (S k + i)%nat by lia. apply (Hall i b H).
    + specialize (IH k).
      destruct (ConversationCache.first_available clock wanted accs k) as [[acc|] k'].
      * destruct IH as (l1 & l2 & -> & -> & Hacc & Hbefore).
        exists (a :: l1), l2. cbn [app List.filter]. rewrite Hw.
        repeat split; assumption.
      * destruct IH as (-> & Hall). cbn [List.filter]. rewrite Hw.
        split; [reflexivity | exact Hall].
Qed.

(** X9: [get_alternative] never returns the excluded account.  The account it
    returns is in the pool and was available when it was looked at; it
    returns [None] only when every account of another name was looked at
    during the call and found unavailable.  The call reads the clock once
    for each account of another name that it looks at, in order, and not
    at all for the accounts of the excluded name: the reads it makes are
    as many as the accounts of another name before the one returned, plus
    one, or as many as all the accounts of another name when it returns
    [None]; a pool whose accounts all have the excluded name costs no
    read. *)
Theorem get_alternative_excludes :
  forall (exclude_name : string) (p : AccountPool.t) (k : nat),
    let r := ConversationCache.get_alternative clock exclude_name p k in
    (k <= snd r <= k + length (AccountPool.accounts p))%nat
    /\ match fst r with
       | Some acc =>
           acc ∈ AccountPool.accounts p
           /\ Account.name acc <> exclude_name
           /\ (k < snd r)%nat
           /\ Account.is_available (clock (snd r - 1)) acc = true
           /\ exists l1 l2,
                AccountPool.accounts p = (l1 ++ acc :: l2)%list
                /\ snd r = (k + length (ConversationCache.others exclude_name l1) + 1)%nat
                /\ (forall i b,
                      ConversationCache.others exclude_name l1 !! i = Some b ->
                      Account.is_available (clock (k + i)) b = false)
       | None =>
           (forall b, b ∈ AccountPool.accounts p -> Account.name b <> exclude_name ->
                      exists i, (k <= i < snd r)%nat
                                /\ Account.is_available (clock i) b = false)
           /\ snd r
              = (k + length (ConversationCache.others exclude_name (AccountPool.accounts p)))%nat
           /\ (forall i b,
                 ConversationCache.others exclude_name (AccountPool.accounts p) !! i = Some b ->
                 Account.is_available (clock (k + i)) b = false)
       end
    /\ ((forall b, b ∈ AccountPool.accounts p -> Account.name b = exclude_name) ->
        r = (None, k)).
Proof.
  intros exclude_name p k r. subst r. unfold ConversationCache.get_alternative.
  set (wanted := fun acc : Account.t => negb (bool_decide (Account.name acc = exclude_name))).
  destruct (first_available_spec wanted (AccountPool.accounts p) k) as [Hk Hr].
  pose proof (first_available_reads wanted (AccountPool.accounts p) k) as Hreads.
  split; [exact Hk|]. split.
  - destruct (ConversationCache.first_available clock wanted (AccountPool.accounts p) k)
      as [[acc|] k']; cbn [fst snd] in *.
    + destruct Hr as (H1 & H2 & H3 & H4).
      split; [exact H1|]. split.
      { apply negb_true_iff, bool_decide_eq_false in H2. exact H2. }
      split; [exact H3|]. split; [exact H4|].
      destruct Hreads as (l1 & l2 & Hl & Hk' & _ & Hbefore).
      exists l1, l2. repeat split; assumption.
    + destruct Hreads as (Hk' & Hall). split; [|split; assumption].
      intros b Hb Hne. apply (Hr b Hb).
      apply negb_true_iff, bool_decide_eq_false. exact Hne.
  - intros Hall.
    assert (Hnone : forall l n,
               (forall b, b ∈ l -> Account.name b = exclude_name) ->
               ConversationCache.first_available clock wanted l n = (None, n)).
    { induction l as [|a l IH]; intros n Hl; [reflexivity|].
      cbn [ConversationCache.first_available].
      assert (Hw : wanted a = false).
      { unfold wanted. rewrite bool_decide_eq_true_2; [reflexivity|]. apply Hl. left. }
      rewrite Hw. apply IH. intros b Hb. apply Hl. right. exact Hb. }
    apply Hnone, Hall.
Qed.

Lemma get_next_available_returns (p : AccountPool.t) (k : nat) :
  AccountPool.accounts p <> [] ->
  exists acc rr k',
    AccountPool.get_next_available clock p k
    = (Return (Some acc),
       {| AccountPool.accounts := AccountPool.accounts p; AccountPool._rr_index := rr |}, k')
    /\ acc ∈ AccountPool.accounts p.
Proof.
  intros Hne.
  destruct (get_next_available_spec clock p k Hne)
    as [(s & acc & Hs & Hl & _ & _ & E) | (acc & _ & Hmin & E)].
  - eexists acc, _, _. split; [exact E|]. eapply list_elem_of_lookup_2, Hl.
  - eexists acc, _, _. split; [exact E|].
    destruct (AccountPool.accounts p) as [|a0 rest]; [done|].
    cbn in Hmin. inversion Hmin. apply min_from_elem.
Qed.

(** X10: [get_for_conversation] on an empty pool raises "No accounts
    available", whatever the cache holds.  On a pool that is not empty it
    always returns an account of the pool, also when every account is
    cooling down, and it leaves the list of accounts as it is. *)
Theorem get_for_conversation_returns :
  forall (conv_key : string) (c : ConversationCache.t) (p : AccountPool.t) (k : nat),
    (AccountPool.accounts p = [] ->
     ConversationCache.get_for_conversation clock conv_key c p k
     = (Raise (Exception "No accounts available"), p, k))
    /\ (AccountPool.accounts p <> [] ->
        exists acc p' k',
          ConversationCache.get_for_conversation clock conv_key c p k
          = (Return acc, p', k')
          /\ acc ∈ AccountPool.accounts p
          /\ AccountPool.accounts p' = AccountPool.accounts p).
Proof.
  intros conv_key c p k. unfold ConversationCache.get_for_conversation. split.
  - intros Hnil.
    assert (Hfa : forall w, ConversationCache.first_available clock w (AccountPool.accounts p) k
                            = (None, k)) by (intros w; rewrite Hnil; reflexivity).
    assert (Hnext : AccountPool.get_next_available clock p k = (Return None, p, k)).
    { unfold AccountPool.get_next_available. rewrite Hnil. reflexivity. }
    destruct (c !! conv_key) as [cached|]; [rewrite Hfa|]; rewrite Hnext; reflexivity.
  - intros Hne.
    set (found := match c !! conv_key with
                  | Some cached =>
                      ConversationCache.first_available clock
                        (fun acc => bool_decide (Account.name acc = ConversationCache.account cached))
                        (AccountPool.accounts p) k
                  | None => (None, k)
                  end).
    assert (Hfound : match fst found with
                     | Some acc => acc ∈ AccountPool.accounts p
                     | None => True
                     end).
    { subst found. destruct (c !! conv_key) as [cached|]; [|exact I].
      destruct (first_available_spec
                  (fun acc => bool_decide (Account.name acc = ConversationCache.account cached))
                  (AccountPool.accounts p) k) as [_ Hr].
      destruct (fst (ConversationCache.first_available clock _ (AccountPool.accounts p) k));
        [apply Hr | exact I]. }
    destruct found as [[acc|] k1]; cbn [fst] in Hfound.
    + exists acc, p, k1. repeat split. exact Hfound.
    + destruct (get_next_available_returns p k1 Hne) as (acc & rr & k2 & E & Hin).
      rewrite E. eexists acc, _, k2. repeat split. exact Hin.
Qed.

(** X11: Session affinity: once [cache_session] has recorded that a
    conversation was served by the account called [name], and as long as
    the pool has an account of that name that is available,
    [get_for_conversation] returns an account of that name for the
    conversation, and the round-robin cursor does not move. *)
Theorem get_for_conversation_sticky :
  forall (conv_key : string) (sid : json) (name : string) (now : Z)
         (c : ConversationCache.t) (p : AccountPool.t) (k : nat) (acc0 : Account.t),
    acc0 ∈ AccountPool.accounts p ->
    Account.name acc0 = name ->
    (forall i, Account.is_available (clock i) acc0 = true) ->
    exists acc k',
      ConversationCache.get_for_conversation clock conv_key
        (ConversationCache.cache_session conv_key sid name now c) p k
      = (Return acc, p, k')
      /\ acc ∈ AccountPool.accounts p
      /\ Account.name acc = name
      /\ Account.is_available (clock (k' - 1)) acc = true.
Proof.
  intros conv_key sid name now c p k acc0 Hin Hname Hav.
  unfold ConversationCache.get_for_conversation, ConversationCache.cache_session.
  rewrite lookup_insert_eq. cbn [ConversationCache.account].
  destruct (first_available_spec
              (fun acc => bool_decide (Account.name acc = name))
              (AccountPool.accounts p) k) as [_ Hr].
  destruct (ConversationCache.first_available clock _ (AccountPool.accounts p) k)
    as [[acc|] k1]; cbn [fst snd] in Hr.
  - destruct Hr as (H1 & H2 & H3 & H4). exists acc, k1.
    repeat split; try assumption. apply bool_decide_eq_true in H2. exact H2.
  - exfalso. destruct (Hr acc0 Hin) as (i & _ & Hi).
    + apply bool_decide_eq_true. exact Hname.
    + rewrite Hav in Hi. discriminate.
Qed.

End LookupFacts.

Lemma get_for_conversation_returns_witness :
  exists acc p' k',
    ConversationCache.get_for_conversation Sample.clock "conversation" ∅
      (AccountPool.add_account Sample.account_A AccountPool.init) 0
    = (Return acc, p', k').
Proof.
  destruct (get_for_conversation_returns Sample.clock "conversation" ∅
              (AccountPool.add_account Sample.account_A AccountPool.init) 0) as [_ H].
  destruct H as (acc & p' & k' & E & _); [discriminate|].
  exists acc, p', k'. exact E.
Defined.

Lemma cached_session_lifetime_witness :
  ConversationCache.get_cached_session "conversation"
    (ConversationCache.cache_session "conversation" (JStr "sessions/1") "A" 1000 ∅)
  = Some {| ConversationCache.session_id := JStr "sessions/1";
            ConversationCache.account := "A";
            ConversationCache.updated_at := 1000 |}.
Proof.
  destruct (cached_session_lifetime "conversation" (JStr "sessions/1") "A" 1000 3600 2000 ∅)
    as [H _].
  exact H.
Defined.

(** A pool that holds the excluded account only: [None], and no clock
    read. *)
Lemma get_alternative_excludes_witness :
  ConversationCache.get_alternative Sample.clock "A"
    {| AccountPool.accounts := [Sample.account_A; Sample.account_A];
       AccountPool._rr_index := 0 |} 7
  = (None, 7%nat).
Proof.
  destruct (get_alternative_excludes Sample.clock "A"
              {| AccountPool.accounts := [Sample.account_A; Sample.account_A];
                 AccountPool._rr_index := 0 |} 7) as (_ & _ & H).
  apply H. intros b Hb.
  apply elem_of_cons in Hb as [-> | Hb]; [reflexivity|].
  apply elem_of_cons in Hb as [-> | Hb]; [reflexivity|].
  inversion Hb.
Defined.

Lemma get_for_conversation_sticky_witness :
  exists acc k',
    ConversationCache.get_for_conversation Sample.clock "conversation"
      (ConversationCache.cache_session "conversation" (JStr "sessions/1") "B" 990 ∅)
      {| AccountPool.accounts := [Sample.account_A; Sample.account_B];
         AccountPool._rr_index := 0 |} 0
    = (Return acc,
       {| AccountPool.accounts := [Sample.account_A; Sample.account_B];
          AccountPool._rr_index := 0 |}, k')
    /\ Account.name acc = "B".
Proof.
  destruct (get_for_conversation_sticky Sample.clock "conversation" (JStr "sessions/1") "B" 990 ∅
              {| AccountPool.accounts := [Sample.account_A; Sample.account_B];
                 AccountPool._rr_index := 0 |} 0 Sample.account_B)
    as (acc & k' & E & _ & Hn & _).
  - right. left.
  - reflexivity.
  - intros i. reflexivity.
  - exists acc, k'. split; [exact E | exact Hn].
Defined.

(** ** Token cache of an account *)

Section TokenCacheFacts.

Import SessionManager.
Import SessionCalls.

Variable cfg : Config.t.
Variable clock : nat -> Z.
Variable upstream : nat -> outcome Response.
Variable json_loads : string -> outcome json.
Variable urlsafe_b64decode : string -> outcome (list byte).
Variable hmac_sha256 : list byte -> list byte -> list byte.

#[local] Abbreviation jwt_get :=
  (jwt_get cfg clock upstream json_loads urlsafe_b64decode hmac_sha256).

Lemma jwt_get_hit (st : State) (mgr : JWTManager.t) :
  Account.jwt_mgr (account st) = Some mgr ->
  clock (ticks st) <= JWTManager.expires mgr ->
  jwt_get st = (Return (JWTManager.jwt mgr), ticked st).
Proof.
  intros Hmgr Hexp. unfold SessionManager.jwt_get, bind, get_account.
  rewrite Hmgr. unfold time_time at 1.
  rewrite (proj2 (Z.ltb_ge _ _)) by lia.
  unfold ret. cbn [account]. rewrite Hmgr. reflexivity.
Qed.

(** X12: Tokens are reused until they expire: while the clock has not passed
    [expires], and so whenever [is_token_valid] holds, [get] returns the
    token of the manager after one clock read, without any request
    upstream and without touching the account.  At the very instant
    [expires], [is_token_valid] is already false while [get] still returns
    the token. *)
Theorem jwt_get_reuses_token :
  forall (st : State) (mgr : JWTManager.t),
    Account.jwt_mgr (account st) = Some mgr ->
    (clock (ticks st) <= JWTManager.expires mgr ->
     jwt_get st = (Return (JWTManager.jwt mgr), ticked st))
    /\ (JWTManager.is_token_valid (clock (ticks st)) mgr = true ->
        jwt_get st = (Return (JWTManager.jwt mgr), ticked st))
    /\ (clock (ticks st) = JWTManager.expires mgr ->
        JWTManager.is_token_valid (clock (ticks st)) mgr = false
        /\ jwt_get st = (Return (JWTManager.jwt mgr), ticked st)).
Proof.
  intros st mgr Hmgr. split; [apply jwt_get_hit; exact Hmgr|]. split.
  - intros Hv. unfold JWTManager.is_token_valid in Hv.
    apply andb_true_iff in Hv as [_ Hv]. apply Z.ltb_lt in Hv.
    apply jwt_get_hit; [exact Hmgr | lia].
  - intros Heq. split.
    + unfold JWTManager.is_token_valid. rewrite Heq, Z.ltb_irrefl.
      apply andb_false_r.
    + apply jwt_get_hit; [exact Hmgr | lia].
Qed.

(** X13: A refused key exchange leaves the token cache as it was: when the
    token has expired and the exchange is answered with a status other
    than 200, [get] raises "getoxsrf failed: <status>" after one request;
    the account is penalised for 401, 403 and 429 and untouched otherwise;
    the token and its expiry are not changed, so the next [get] asks
    again. *)
Theorem jwt_get_refresh_refused :
  forall (st : State) (mgr : JWTManager.t) (response : Response),
    Account.jwt_mgr (account st) = Some mgr ->
    JWTManager.expires mgr < clock (ticks st) ->
    upstream (requests st) = Return response ->
    status_code response <> 200 ->
    exists st',
      jwt_get st
      = (Raise (Exception ("getoxsrf failed: " +:+ str_of_int (status_code response))), st')
      /\ requests st' = S (requests st)
      /\ account st' = penalty cfg (clock (S (ticks st))) response (account st)
      /\ Account.jwt_mgr (account st') = Some mgr
      /\ objects st' = objects st
      /\ _sessions st' = _sessions st.
Proof.
  intros st mgr response Hmgr Hexp Hup Hs.
  unfold SessionManager.jwt_get, bind, get_account. rewrite Hmgr.
  unfold time_time at 1. rewrite (proj2 (Z.ltb_lt _ _)) by lia.
  unfold SessionManager.jwt_refresh, bind. unfold http_request at 1.
  cbn [requests]. rewrite Hup, (not_200 _ Hs).
  rewrite penalise_spec. unfold raise, SessionManager.penalty.
  eexists. split; [reflexivity|].
  destruct (is_quota_status (status_code response)); cbn; repeat split; exact Hmgr.
Qed.

Lemma create_jwt_returns (key_bytes : list byte) (key_id : json) (csesidx : string) (now : Z) :
  exists tok, create_jwt hmac_sha256 key_bytes key_id csesidx now = Return tok.
Proof.
  unfold create_jwt. rewrite !kq_encode_total. eexists. reflexivity.
Qed.

(** X14: A granted key exchange renews the token for [JWT_TTL_SECONDS]: when
    the token has expired and the exchange answers 200 with a body that,
    once its guard is removed, decodes to an object with a string
    [xsrfToken] (valid base64) and a [keyId], [get] returns a token made by
    [create_jwt] from them, after one request and three clock reads, and
    stores it with the expiry [now + JWT_TTL_SECONDS]; every later [get]
    on that account up to that time returns the same token without a
    request. *)
Theorem jwt_get_refresh_granted :
  forall (st : State) (mgr : JWTManager.t) (response : Response)
         (data : json) (xsrf : string) (key_bytes : list byte) (key_id : json),
    Account.jwt_mgr (account st) = Some mgr ->
    JWTManager.expires mgr < clock (ticks st) ->
    upstream (requests st) = Return response ->
    status_code response = 200 ->
    json_loads (unguarded (text response)) = Return data ->
    py_getitem data "xsrfToken" = Return (JStr xsrf) ->
    urlsafe_b64decode (xsrf +:+ "==") = Return key_bytes ->
    py_getitem data "keyId" = Return key_id ->
    exists (tok : string) (st' : State),
      jwt_get st = (Return tok, st')
      /\ create_jwt hmac_sha256 key_bytes key_id (Account.csesidx (account st))
           (clock (S (ticks st))) = Return tok
      /\ Account.jwt_mgr (account st')
         = Some {| JWTManager.jwt := tok;
                   JWTManager.expires :=
                     clock (S (S (ticks st))) + Config.JWT_TTL_SECONDS cfg |}
      /\ ticks st' = (ticks st + 3)%nat
      /\ requests st' = S (requests st)
      /\ (forall st2 : State,
            account st2 = account st' ->
            clock (ticks st2) <= clock (S (S (ticks st))) + Config.JWT_TTL_SECONDS cfg ->
            jwt_get st2 = (Return tok, ticked st2)).
Proof.
  intros st mgr response data xsrf key_bytes key_id Hmgr Hexp Hup Hs Hbody Hx Hkey Hid.
  destruct (create_jwt_returns key_bytes key_id (Account.csesidx (account st))
              (clock (S (ticks st)))) as [tok Htok].
  assert (Hrun : exists st',
             jwt_get st = (Return tok, st')
             /\ Account.jwt_mgr (account st')
                = Some {| JWTManager.jwt := tok;
                          JWTManager.expires :=
                            clock (S (S (ticks st))) + Config.JWT_TTL_SECONDS cfg |}
             /\ ticks st' = (ticks st + 3)%nat
             /\ requests st' = S (requests st)).
  { unfold SessionManager.jwt_get, bind, get_account. rewrite Hmgr.
    unfold time_time at 1. rewrite (proj2 (Z.ltb_lt _ _)) by lia.
    unfold SessionManager.jwt_refresh, bind. unfold http_request at 1.
    cbn [requests]. rewrite Hup, Hs. cbn [Z.eqb Pos.eqb negb].
    unfold SessionCalls.unguarded in Hbody. unfold lift. rewrite Hbody, Hx, Hkey, Hid.
    unfold get_account, time_time. cbn [account ticks]. rewrite Htok.
    unfold set_account, ret, with_account. cbn.
    eexists. split; [reflexivity|]. cbn. repeat split. lia. }
  destruct Hrun as (st' & Hget & Hnew & Ht & Hr).
  exists tok, st'. repeat split; try assumption.
  intros st2 Hacc Hnow.
  apply (jwt_get_hit st2 {| JWTManager.jwt := tok;
                            JWTManager.expires :=
                              clock (S (S (ticks st))) + Config.JWT_TTL_SECONDS cfg |}).
  - rewrite Hacc. exact Hnew.
  - exact Hnow.
Qed.

(** X15: After [invalidate] the manager has no valid token at any time, and the
    next [get] at a time after 0 asks upstream again. *)
Theorem invalidate_forces_refresh :
  forall (st : State) (mgr : JWTManager.t) (now : Z),
    JWTManager.is_token_valid now (JWTManager.invalidate mgr) = false
    /\ (Account.jwt_mgr (account st) = Some (JWTManager.invalidate mgr) ->
        0 < clock (ticks st) ->
        requests (snd (jwt_get st)) = S (requests st)).
Proof.
  intros st mgr now. split; [reflexivity|].
  intros Hmgr Hpos.
  destruct (jwt_get st) as [r st'] eqn:E. cbn [snd].
  unfold SessionManager.jwt_get, bind, get_account in E. rewrite Hmgr in E.
  unfold time_time at 1 in E. cbn [JWTManager.invalidate JWTManager.expires] in E.
  rewrite (proj2 (Z.ltb_lt _ _)) in E by lia.
  destruct (SessionManager.jwt_refresh _ _ _ _ _ _ _) as [[[] | e] st1] eqn:Er.
  - assert (Hreq : requests st1 = S (requests st)).
    { clear E. revert Er. unfold SessionManager.jwt_refresh, bind.
      unfold http_request at 1. cbn [requests].
      destruct (upstream (requests st)) as [response|e0]; [|intros [= <-]; reflexivity].
      destruct (negb (status_code response =? 200)).
      - rewrite penalise_spec. unfold raise. intros [= <-].
      - unfold lift, get_account, time_time, set_account, with_account.
        intros H.
        repeat match type of H with
               | context [match ?x with _ => _ end] => destruct x; cbn in H
               end; inversion H; subst; reflexivity. }
    unfold ret in E.
    destruct (Account.jwt_mgr (account st1)); inversion E; subst; exact Hreq.
  - inversion E; subst.
    revert Er. unfold SessionManager.jwt_refresh, bind.
    unfold http_request at 1. cbn [requests].
    destruct (upstream (requests st)) as [response|e0]; [|intros [= <- <-]; reflexivity].
    destruct (negb (status_code response =? 200)).
    + rewrite penalise_spec. unfold raise. intros [= <- <-].
      destruct (is_quota_status (status_code response)); reflexivity.
    + unfold lift, get_account, time_time, set_account, with_account.
      intros H.
      repeat match type of H with
             | context [match ?x with _ => _ end] => destruct x; cbn in H
             end; inversion H; subst; reflexivity.
Qed.

End TokenCacheFacts.

Lemma jwt_get_reuses_token_witness :
  SessionManager.jwt_get Config.default Sample.clock Sample.upstream_429 Sample.json_loads
    Sample.urlsafe_b64decode Sample.hmac_sha256 Sample.fresh
  = (Return "token", SessionCalls.ticked Sample.fresh).
Proof.
  destruct (jwt_get_reuses_token Config.default Sample.clock Sample.upstream_429
              Sample.json_loads Sample.urlsafe_b64decode Sample.hmac_sha256
              Sample.fresh Sample.manager eq_refl) as [H _].
  apply H. vm_compute. discriminate.
Defined.

Lemma jwt_get_refresh_refused_witness :
  exists st',
    SessionManager.jwt_get Config.default Sample.clock Sample.upstream_429 Sample.json_loads
      Sample.urlsafe_b64decode Sample.hmac_sha256 Fixture.stale
    = (Raise (Exception "getoxsrf failed: 429"), st')
    /\ Account.fail_count (SessionManager.account st') = 1
    /\ Account.jwt_mgr (SessionManager.account st')
       = Some {| JWTManager.jwt := "old"; JWTManager.expires := 500 |}.
Proof.
  destruct (jwt_get_refresh_refused Config.default Sample.clock Sample.upstream_429
              Sample.json_loads Sample.urlsafe_b64decode Sample.hmac_sha256
              Fixture.stale {| JWTManager.jwt := "old"; JWTManager.expires := 500 |}
              {| status_code := 429; text := "quota" |})
    as (st' & E & _ & Ha & Hm & _).
  - reflexivity.
  - vm_compute. reflexivity.
  - reflexivity.
  - discriminate.
  - exists st'. split; [exact E|]. split; [rewrite Ha; reflexivity | exact Hm].
Defined.

Lemma jwt_get_refresh_granted_witness :
  exists tok st',
    SessionManager.jwt_get Config.default Sample.clock Fixture.upstream_granted Fixture.granted_loads
      Sample.urlsafe_b64decode Sample.hmac_sha256 Fixture.stale
    = (Return tok, st')
    /\ Account.jwt_mgr (SessionManager.account st')
       = Some {| JWTManager.jwt := tok; JWTManager.expires := 1270 |}.
Proof.
  destruct (jwt_get_refresh_granted Config.default Sample.clock Fixture.upstream_granted Fixture.granted_loads
              Sample.urlsafe_b64decode Sample.hmac_sha256
              Fixture.stale {| JWTManager.jwt := "old"; JWTManager.expires := 500 |}
              {| status_code := 200; text := ")]}'{}" |}
              (JDict [("xsrfToken", JStr "a2V5"); ("keyId", JStr "kid-1")])
              "a2V5" [] (JStr "kid-1"))
    as (tok & st' & E & _ & Hm & _).
  - reflexivity.
  - vm_compute. reflexivity.
  - reflexivity.
  - reflexivity.
  - reflexivity.
  - reflexivity.
  - reflexivity.
  - reflexivity.
  - exists tok, st'. split; [exact E | exact Hm].
Defined.

Lemma invalidate_forces_refresh_witness :
  SessionManager.requests
    (snd (SessionManager.jwt_get Config.default Sample.clock Sample.upstream_429
            Sample.json_loads Sample.urlsafe_b64decode Sample.hmac_sha256
            {| SessionManager.ticks := 0; SessionManager.requests := 0;
               SessionManager.objects := []; SessionManager._sessions := ∅;
               SessionManager.account :=
                 Account.with_jwt_mgr (Some (JWTManager.invalidate Sample.manager))
                   Sample.account_A |}))
  = 1%nat.
Proof.
  destruct (invalidate_forces_refresh Config.default Sample.clock Sample.upstream_429
              Sample.json_loads Sample.urlsafe_b64decode Sample.hmac_sha256
              {| SessionManager.ticks := 0; SessionManager.requests := 0;
                 SessionManager.objects := []; SessionManager._sessions := ∅;
                 SessionManager.account :=
                   Account.with_jwt_mgr (Some (JWTManager.invalidate Sample.manager))
                     Sample.account_A |}
              Sample.manager 0) as [_ H].
  apply H; [reflexivity | vm_compute; reflexivity].
Defined.

(** ** The session id *)

Lemma split_on_last (c : ascii) (s : string) :
  exists (pieces : list string) (last : string),
    split_on c s = (pieces ++ [last])%list
    /\ contains_char c last = false
    /\ ((pieces = [] /\ s = last /\ contains_char c s = false)
        \/ (pieces <> [] /\ contains_char c s = true
            /\ exists dir, s = dir +:+ String c last)).
Proof.
  induction s as [|x s IH].
  - exists [], EmptyString. split; [reflexivity|]. split; [reflexivity|].
    left. repeat split.
  - destruct IH as (pieces & last & Hsplit & Hlast & Hcase).
    cbn [split_on contains_char]. destruct (Ascii.eqb_spec x c) as [->|Hne].
    + exists (EmptyString :: pieces), last. rewrite Hsplit.
      split; [reflexivity|]. split; [exact Hlast|]. right.
      split; [discriminate|]. split; [reflexivity|].
      destruct Hcase as [(_ & -> & _) | (_ & _ & dir & ->)].
      * exists EmptyString. reflexivity.
      * exists (String c dir). reflexivity.
    + rewrite Hsplit. cbn [orb].
      destruct Hcase as [(-> & -> & Hno) | (Hp & Hyes & dir & ->)].
      * exists [], (String x last). cbn [app].
        split; [reflexivity|]. split.
        -- cbn [contains_char]. rewrite (proj2 (Ascii.eqb_neq x c) Hne). exact Hlast.
        -- left. repeat split. exact Hno.
      * destruct pieces as [|p0 ps]; [contradiction|].
        exists (String x p0 :: ps), last. cbn [app].
        split; [reflexivity|]. split; [exact Hlast|]. right.
        split; [discriminate|]. split; [exact Hyes|].
        exists (String x dir). reflexivity.
Qed.

Lemma list_getitem_last {A : Type} (l : list A) (x : A) :
  list_getitem (l ++ [x])%list (-1) = Return x.
Proof.
  unfold list_getitem. rewrite length_app. cbn [length].
  change (-1 <? 0) with true. cbv iota.
  replace (-1 + Z.of_nat (length l + 1)) with (Z.of_nat (length l)) by lia.
  rewrite (proj2 (Z.ltb_ge _ _)) by lia.
  rewrite (proj2 (Z.leb_gt _ _)) by lia. cbn [orb].
  rewrite Nat2Z.id. rewrite lookup_app_r by lia.
  rewrite Nat.sub_diag. reflexivity.
Qed.

(** X16: The id of a session whose name is a string is the part of the name after
    its last [/]: it has no [/] in it, and the name is either the id itself
    (when the name has no [/]) or a directory, a [/] and the id. *)
Theorem session_id_is_last_segment :
  forall (s : Session.t) (n : string),
    Session.name s = JStr n ->
    exists id : string,
      Session.session_id s = Return (JStr id)
      /\ contains_char "/" id = false
      /\ (contains_char "/" n = false -> id = n)
      /\ (contains_char "/" n = true -> exists dir, n = dir +:+ "/" +:+ id).
Proof.
  intros s n Hn. unfold Session.session_id. rewrite Hn.
  destruct (split_on_last "/" n) as (pieces & last & Hsplit & Hlast & Hcase).
  destruct Hcase as [(-> & -> & Hno) | (Hp & Hyes & dir & ->)].
  - rewrite Hno. exists last. repeat split; [exact Hlast | intros H; congruence].
  - rewrite Hyes, Hsplit, list_getitem_last. exists last.
    split; [reflexivity|]. split; [exact Hlast|]. split; [intros H; congruence|].
    intros _. exists dir. reflexivity.
Qed.

Lemma session_id_is_last_segment_witness :
  Session.session_id
    {| Session.name := JStr "collections/c1/sessions/17"; Session.account_name := "A";
       Session.config_id := "cfg-a"; Session.created_at := 0; Session.last_used_at := 0;
       Session.file_ids := [] |}
  = Return (JStr "17").
Proof.
  destruct (session_id_is_last_segment
              {| Session.name := JStr "collections/c1/sessions/17";
                 Session.account_name := "A"; Session.config_id := "cfg-a";
                 Session.created_at := 0; Session.last_used_at := 0;
                 Session.file_ids := [] |}
              "collections/c1/sessions/17" eq_refl) as (id & E & _ & _ & _).
  rewrite E. vm_compute in E. inversion E. reflexivity.
Defined.

(** ** Uploads by URL and downloads *)

Section FileFacts.

Import SessionManager.
Import SessionCalls.

Variable cfg : Config.t.
Variable clock : nat -> Z.
Variable upstream : nat -> outcome Response.
Variable json_loads : string -> outcome json.
Variable urlsafe_b64decode : string -> outcome (list byte).
Variable hmac_sha256 : list byte -> list byte -> list byte.
Variable content : Response -> list byte.

#[local] Abbreviation jwt_get :=
  (jwt_get cfg clock upstream json_loads urlsafe_b64decode hmac_sha256).
#[local] Abbreviation list_session_files :=
  (list_session_files cfg clock upstream json_loads urlsafe_b64decode hmac_sha256).
#[local] Abbreviation upload_file_by_url :=
  (upload_file_by_url cfg clock upstream json_loads urlsafe_b64decode hmac_sha256).
#[local] Abbreviation download_file :=
  (download_file cfg clock upstream json_loads urlsafe_b64decode hmac_sha256 content).

(** X17: [upload_file_by_url], once the token is there and the session has an
    id to log: a status other than 200 penalises the account as for the
    other calls (401, 403 and 429 only) and raises "URL upload failed:
    <status>", leaving every session as it was; on a 200 the [fileId] of
    the answer is returned, and it is appended to the file ids of the
    session exactly when it is true (a missing, null or empty id is
    returned but not recorded). *)
Theorem upload_file_by_url_outcome :
  forall (st st1 : State) (jwt : string) (session : nat) (s : Session.t) (sid : json)
         (file_url : string) (response : Response),
    jwt_get st = (Return jwt, st1) ->
    objects st1 !! session = Some s ->
    Session.session_id s = Return sid ->
    upstream (requests st1) = Return response ->
    (status_code response <> 200 ->
     exists st',
       upload_file_by_url session file_url st
       = (Raise (Exception ("URL upload failed: " +:+ str_of_int (status_code response))), st')
       /\ requests st' = S (requests st1)
       /\ account st' = penalty cfg (clock (ticks st1)) response (account st1)
       /\ objects st' = objects st1
       /\ _sessions st' = _sessions st1)
    /\ (status_code response = 200 ->
        forall data resp file_id,
          json_loads (text response) = Return data ->
          py_get data "addContextFileResponse" (JDict []) = Return resp ->
          py_get resp "fileId" JNull = Return file_id ->
          upload_file_by_url session file_url st
          = (Return file_id,
             {| ticks := ticks st1; requests := S (requests st1);
                objects :=
                  if Json.truthy file_id
                  then <[session := Session.with_file_ids
                                      (Session.file_ids s ++ [file_id]) s]> (objects st1)
                  else objects st1;
                _sessions := _sessions st1; account := account st1 |})).
Proof.
  intros st st1 jwt session s sid file_url response Hjwt Hobj Hsid Hup.
  split.
  - intros Hs.
    unfold SessionCalls.upload_file_by_url, bind. rewrite Hjwt.
    unfold load at 1. rewrite Hobj. unfold lift at 1. rewrite Hsid.
    unfold http_request at 1. rewrite Hup, (not_200 _ Hs).
    rewrite penalise_spec. unfold raise, SessionManager.penalty.
    eexists. split; [reflexivity|].
    destruct (is_quota_status (status_code response)); cbn; repeat split.
  - intros Hs data resp file_id Hdata Hresp Hfid.
    unfold SessionCalls.upload_file_by_url, bind. rewrite Hjwt.
    unfold load at 1. rewrite Hobj. unfold lift at 1. rewrite Hsid.
    unfold http_request at 1. rewrite Hup, Hs. cbn [Z.eqb Pos.eqb negb].
    unfold lift. rewrite Hdata, Hresp, Hfid.
    destruct (Json.truthy file_id); [|reflexivity].
    unfold bind, load, store, ret, with_objects. cbn [objects]. rewrite Hobj.
    reflexivity.
Qed.

(** X18: [download_file] answers a refusal with [None]: it does not raise and
    it does not penalise the account.  With the two tokens there (its own
    and the one of the listing) and the session in place: when the listing
    is refused (a status other than 200), or lists no entry with the file
    id, the result is [None] after the one listing request, no download
    being asked; when the file is listed with a session that is true, one
    download request follows, and the result is the body on a 200 and
    [None] on any other status.  In all three cases only the count of
    requests changes. *)
Theorem download_file_outcome :
  forall (st st1 st2 : State) (jwt jwt2 : string) (session : nat) (s : Session.t)
         (file_id : string) (listing : Response),
    jwt_get st = (Return jwt, st1) ->
    jwt_get st1 = (Return jwt2, st2) ->
    objects st2 !! session = Some s ->
    upstream (requests st2) = Return listing ->
    (status_code listing <> 200 ->
     download_file session file_id st = (Return None, requested st2))
    /\ (status_code listing = 200 ->
        forall data resp files items full_session,
          json_loads (text listing) = Return data ->
          py_get data "listSessionFileMetadataResponse" (JDict []) = Return resp ->
          py_get resp "fileMetadata" (JList []) = Return files ->
          py_iter files = Return items ->
          find_file file_id items = Return full_session ->
          (Json.truthy full_session = false ->
           download_file session file_id st = (Return None, requested st2))
          /\ (Json.truthy full_session = true ->
              forall answer,
                upstream (S (requests st2)) = Return answer ->
                download_file session file_id st
                = (Return (if status_code answer =? 200
                           then Some (content answer) else None),
                   requested (requested st2)))).
Proof.
  intros st st1 st2 jwt jwt2 session s file_id listing Hjwt Hjwt2 Hobj Hup.
  split.
  - intros Hs.
    unfold SessionCalls.download_file, bind. rewrite Hjwt.
    unfold SessionManager.list_session_files, bind. rewrite Hjwt2.
    unfold load at 1. rewrite Hobj.
    unfold http_request at 1. rewrite Hup, (not_200 _ Hs).
    reflexivity.
  - intros Hs data resp files items full_session Hdata Hresp Hfiles Hitems Hfound.
    assert (Hlist : list_session_files session "file_origin_type = AI_GENERATED" st1
                    = (Return files, requested st2)).
    { unfold SessionManager.list_session_files, bind. rewrite Hjwt2.
      unfold load at 1. rewrite Hobj.
      unfold http_request at 1. rewrite Hup, Hs. cbn [Z.eqb Pos.eqb negb].
      unfold lift. rewrite Hdata, Hresp, Hfiles. reflexivity. }
    split.
    + intros Hfalse.
      unfold SessionCalls.download_file, bind. rewrite Hjwt, Hlist.
      unfold lift. rewrite Hitems, Hfound, Hfalse. reflexivity.
    + intros Htrue answer Hans.
      unfold SessionCalls.download_file, bind. rewrite Hjwt, Hlist.
      unfold lift. rewrite Hitems, Hfound, Htrue. cbn [negb].
      unfold http_request. cbn [requested requests]. rewrite Hans.
      destruct (status_code answer =? 200); reflexivity.
Qed.

End FileFacts.

Lemma upload_file_by_url_outcome_witness :
  exists st',
    SessionCalls.upload_file_by_url Config.default Sample.clock Sample.upstream_429
      Sample.json_loads Sample.urlsafe_b64decode Sample.hmac_sha256 0 "https://host/cat.png"
      Sample.serving
    = (Raise (Exception "URL upload failed: 429"), st')
    /\ Account.fail_count (SessionManager.account st') = 1
    /\ SessionManager.objects st' = [Sample.session_1].
Proof.
  destruct (upload_file_by_url_outcome Config.default Sample.clock Sample.upstream_429
              Sample.json_loads Sample.urlsafe_b64decode Sample.hmac_sha256
              Sample.serving (SessionCalls.ticked Sample.serving) "token" 0 Sample.session_1
              (JStr "1") "https://host/cat.png" {| status_code := 429; text := "quota" |})
    as [H _].
  - reflexivity.
  - reflexivity.
  - reflexivity.
  - reflexivity.
  - destruct H as (st' & E & _ & Ha & Ho & _); [discriminate|].
    exists st'. split; [exact E|]. split; [rewrite Ha; reflexivity | exact Ho].
Defined.

Lemma download_file_outcome_witness :
  SessionCalls.download_file Config.default Sample.clock Sample.upstream_429
    Sample.json_loads Sample.urlsafe_b64decode Sample.hmac_sha256 (fun _ => []) 0 "file-1"
    Sample.serving
  = (Return None,
     SessionCalls.requested (SessionCalls.ticked (SessionCalls.ticked Sample.serving))).
Proof.
  destruct (download_file_outcome Config.default Sample.clock Sample.upstream_429
              Sample.json_loads Sample.urlsafe_b64decode Sample.hmac_sha256 (fun _ => [])
              Sample.serving (SessionCalls.ticked Sample.serving)
              (SessionCalls.ticked (SessionCalls.ticked Sample.serving))
              "token" "token" 0 Sample.session_1 "file-1"
              {| status_code := 429; text := "quota" |})
    as [H _].
  - reflexivity.
  - reflexivity.
  - reflexivity.
  - reflexivity.
  - apply H. discriminate.
Defined.

(** ** Clean-up of expired sessions *)

Section CleanupFacts.

Import SessionManager.
Import SessionCalls.

Variable clock : nat -> Z.

Lemma expired_keys_run (max_age : Z) (items : list (string * nat)) :
  forall st : State,
    (forall k addr, (k, addr) ∈ items -> is_Some (objects st !! addr)) ->
    exists ks : list string,
      expired_keys clock max_age items st
      = (Return ks,
         {| ticks := ticks st + length items; requests := requests st;
            objects := objects st; _sessions := _sessions st; account := account st |})
      /\ (forall k,
            k ∈ ks <->
            exists j addr s,
              items !! j = Some (k, addr)
              /\ objects st !! addr = Some s
              /\ Session.is_expired (clock (ticks st + j)) max_age s = true)
      /\ (NoDup (items.*1) -> NoDup ks).
Proof.
  induction items as [|[k0 addr0] items IH]; intros st Hheap.
  - exists []. cbn [expired_keys length]. unfold ret.
    split; [destruct st; cbn; repeat f_equal; lia|]. split; [|constructor].
    intros k. split; [intros H; inversion H|].
    intros (j & addr & s & Hj & _). rewrite lookup_nil in Hj. discriminate.
  - destruct (Hheap k0 addr0 ltac:(left)) as [s0 Hs0].
    destruct (IH (ticked st)) as (ks & Hrun & Hks & Hnd).
    { intros k addr Hin. apply (Hheap k addr). right. exact Hin. }
    cbn [expired_keys]. unfold bind at 1. unfold load at 1. rewrite Hs0.
    unfold bind at 1. unfold time_time at 1.
    unfold bind at 1. fold (ticked st). rewrite Hrun. unfold ret.
    exists (if Session.is_expired (clock (ticks st)) max_age s0 then k0 :: ks else ks).
    split; [cbn; repeat f_equal; lia|]. split.
    + intros k. split.
      * intros Hin.
        assert (Hcase : (k = k0 /\ Session.is_expired (clock (ticks st)) max_age s0 = true)
                        \/ k ∈ ks).
        { destruct (Session.is_expired (clock (ticks st)) max_age s0);
            [|right; exact Hin].
          apply elem_of_cons in Hin as [-> | Hin]; [left; split; reflexivity | right; exact Hin]. }
        destruct Hcase as [[-> He] | Hin'].
        -- exists 0%nat, addr0, s0. rewrite Nat.add_0_r. repeat split; assumption.
        -- apply Hks in Hin' as (j & addr & s & Hj & Hs & He).
           exists (S j), addr, s. cbn [ticked ticks objects] in *.
           replace (ticks st + S j)%nat with (S (ticks st) + j)%nat by lia.
           repeat split; assumption.
      * intros (j & addr & s & Hj & Hs & He). destruct j as [|j].
        -- cbn in Hj. inversion Hj; subst. rewrite Hs0 in Hs. inversion Hs; subst.
           rewrite Nat.add_0_r in He. rewrite He. left.
        -- assert (Hin : k ∈ ks).
           { apply Hks. exists j, addr, s. cbn [ticked ticks objects].
             replace (S (ticks st) + j)%nat with (ticks st + S j)%nat by lia.
             repeat split; assumption. }
           destruct (Session.is_expired (clock (ticks st)) max_age s0);
             [right; exact Hin | exact Hin].
    + cbn [fmap list_fmap fst]. intros Hnodup. apply NoDup_cons in Hnodup as [Hk0 Hnodup].
      specialize (Hnd Hnodup).
      destruct (Session.is_expired (clock (ticks st)) max_age s0); [|exact Hnd].
      apply NoDup_cons. split; [|exact Hnd].
      intros Hin. apply Hks in Hin as (j & addr & s & Hj & _).
      apply Hk0. apply list_elem_of_fmap. exists (k0, addr).
      split; [reflexivity|]. eapply list_elem_of_lookup_2, Hj.
Qed.

Lemma del_sessions_run (ks : list string) :
  forall st : State,
    NoDup ks ->
    (forall k, k ∈ ks -> is_Some (_sessions st !! k)) ->
    exists m' : gmap string nat,
      del_sessions ks st = (Return tt, with_sessions m' st)
      /\ (forall k, m' !! k = if bool_decide (k ∈ ks) then None else _sessions st !! k)
      /\ (size m' + length ks = size (_sessions st))%nat.
Proof.
  induction ks as [|k0 ks IH]; intros st Hnd Hin; cbn [del_sessions].
  - exists (_sessions st). split; [destruct st; reflexivity|]. split; [|cbn; lia].
    intros k. rewrite bool_decide_eq_false_2; [reflexivity|]. intros H; inversion H.
  - apply NoDup_cons in Hnd as [Hk0 Hnd].
    destruct (Hin k0 ltac:(left)) as [v0 Hv0].
    unfold bind, py_del_session. rewrite Hv0.
    destruct (IH (with_sessions (delete k0 (_sessions st)) st) Hnd) as (m' & Hdel & Hlook & Hsize).
    { intros k Hk. cbn [with_sessions _sessions].
      rewrite lookup_delete_ne; [apply Hin; right; exact Hk|].
      intros ->. contradiction. }
    exists m'. split; [rewrite Hdel; reflexivity|].
    cbn [with_sessions _sessions] in Hlook, Hsize. split.
    + intros k. rewrite Hlook.
      destruct (decide (k = k0)) as [->|Hne].
      * rewrite (bool_decide_eq_false_2 _ Hk0).
        rewrite (bool_decide_eq_true_2 (k0 ∈ k0 :: ks)) by left.
        apply lookup_delete_eq.
      * rewrite lookup_delete_ne by congruence.
        destruct (bool_decide_reflect (k ∈ ks)) as [Hk|Hk].
        -- rewrite bool_decide_eq_true_2 by (right; exact Hk). reflexivity.
        -- rewrite bool_decide_eq_false_2; [reflexivity|].
           intros H. apply elem_of_cons in H as [H|H]; contradiction.
    + cbn [length]. rewrite map_size_delete, Hv0 in Hsize.
      assert (size (_sessions st) <> 0%nat).
      { intros Hz. apply map_size_empty_inv in Hz. rewrite Hz, lookup_empty in Hv0.
        discriminate. }
      lia.
Qed.

(** X19: [cleanup_expired] on a registry whose keys all lead to a session:
    it does not raise; it reads the clock once for every session and
    judges each session at one of these readings; a key is removed
    exactly when its session has expired at its reading, and the keys
    that stay keep their session; the number returned is the number of
    keys removed.  No [Session] object, request count or account is
    touched. *)
Theorem cleanup_expired_removes_expired :
  forall (max_age : Z) (st : State),
    (forall key addr, _sessions st !! key = Some addr -> is_Some (objects st !! addr)) ->
    exists (n : Z) (st' : State),
      cleanup_expired clock max_age st = (Return n, st')
      /\ ticks st' = (ticks st + size (_sessions st))%nat
      /\ requests st' = requests st
      /\ objects st' = objects st
      /\ account st' = account st
      /\ Z.of_nat (size (_sessions st')) + n = Z.of_nat (size (_sessions st))
      /\ 0 <= n
      /\ (forall key, _sessions st !! key = None -> _sessions st' !! key = None)
      /\ (forall key addr s,
            _sessions st !! key = Some addr ->
            objects st !! addr = Some s ->
            exists i, (ticks st <= i < ticks st')%nat
                      /\ _sessions st' !! key
                         = if Session.is_expired (clock i) max_age s
                           then None else Some addr).
Proof.
  intros max_age st Hheap.
  set (items := map_to_list (_sessions st)).
  assert (Hnodup : NoDup (items.*1)) by apply NoDup_fst_map_to_list.
  destruct (expired_keys_run max_age items st) as (ks & Hrun & Hks & Hnd).
  { intros k addr Hin. apply elem_of_map_to_list in Hin. eapply Hheap, Hin. }
  specialize (Hnd Hnodup).
  set (st1 := {| ticks := ticks st + length items; requests := requests st;
                 objects := objects st; _sessions := _sessions st;
                 account := account st |}) in *.
  destruct (del_sessions_run ks st1 Hnd) as (m' & Hdel & Hlook & Hsize).
  { intros k Hk. apply Hks in Hk as (j & addr & s & Hj & _).
    exists addr. cbn [st1 _sessions]. apply elem_of_map_to_list.
    eapply list_elem_of_lookup_2, Hj. }
  cbn [st1 _sessions] in Hlook, Hsize.
  exists (Z.of_nat (length ks)), (with_sessions m' st1).
  split.
  { unfold cleanup_expired, bind. fold items. rewrite Hrun. fold st1. rewrite Hdel.
    reflexivity. }
  cbn [with_sessions st1 ticks requests objects _sessions account].
  assert (Hlen : length items = size (_sessions st)).
  { subst items. apply length_map_to_list. }
  split; [lia|]. split; [reflexivity|]. split; [reflexivity|]. split; [reflexivity|].
  split; [lia|]. split; [lia|]. split.
  - intros key Hnone. rewrite Hlook, Hnone. destruct (bool_decide _); reflexivity.
  - intros key addr s Hkey Hobj.
    assert (Hin : (key, addr) ∈ items) by (apply elem_of_map_to_list; exact Hkey).
    apply list_elem_of_lookup_1 in Hin as [j Hj].
    assert (Hjlt : (j < length items)%nat) by (eapply lookup_lt_Some, Hj).
    exists (ticks st + j)%nat. split; [lia|].
    rewrite Hlook, Hkey.
    destruct (Session.is_expired (clock (ticks st + j)) max_age s) eqn:He.
    + rewrite bool_decide_eq_true_2; [reflexivity|].
      apply Hks. exists j, addr, s. repeat split; assumption.
    + rewrite bool_decide_eq_false_2; [reflexivity|].
      intros Hin. apply Hks in Hin as (j' & addr' & s' & Hj' & Hs' & He').
      assert (j' = j).
      { eapply NoDup_lookup; [exact Hnodup | |];
          rewrite list_lookup_fmap; [rewrite Hj' | rewrite Hj]; reflexivity. }
      subst j'. rewrite Hj in Hj'. inversion Hj'; subst addr'.
      rewrite Hobj in Hs'. inversion Hs'; subst s'. congruence.
Qed.

End CleanupFacts.

Lemma cleanup_expired_removes_expired_witness :
  exists (n : Z) (st' : SessionManager.State),
    SessionCalls.cleanup_expired (fun _ => 5000) 3600 Sample.serving = (Return n, st')
    /\ SessionManager.objects st' = [Sample.session_1].
Proof.
  destruct (cleanup_expired_removes_expired (fun _ => 5000) 3600 Sample.serving)
    as (n & st' & E & _ & _ & Ho & _).
  - intros key addr H.
    destruct (decide (key = "conversation")) as [->|Hne].
    + cbn in H. rewrite lookup_singleton_eq in H. inversion H. eexists. reflexivity.
    + cbn in H. rewrite lookup_singleton_ne in H by congruence. discriminate.
  - exists n, st'. split; [exact E | exact Ho].
Defined.

(** ** The conversation key *)

Section ConversationKeyFacts.

Import SessionCalls.

Variable md5_hexdigest : list byte -> string.
Variable py_str : json -> string.
Variable dict_slice_error : exn.

#[local] Abbreviation get_conversation_key :=
  (get_conversation_key md5_hexdigest py_str dict_slice_error).
#[local] Abbreviation format_value := (format_value py_str).

(** X20: The key of a conversation is fixed by the role of its first message
    and the first 500 characters of its text: for a first message whose
    content is a string, the key is the MD5 of [role:text[:500]]; the
    messages after the first, the other fields of the first message, the
    text beyond 500 characters and the random id play no part.  A content
    given as a list of parts counts as the concatenation of its text
    parts, the other parts being skipped. *)
Theorem conversation_key_stable :
  forall (u1 u2 : string) (m1 m2 : list (string * json)) (rest1 rest2 : list json)
         (c1 : string),
    Json.dict_get "content" m1 = Some (JStr c1) ->
    Json.dict_get "role" m2 = Json.dict_get "role" m1 ->
    let role := match Json.dict_get "role" m1 with
                | Some v => v
                | None => JStr EmptyString
                end in
    get_conversation_key u1 (JDict m1 :: rest1)
    = Return (md5_hexdigest (utf8_encode (format_value role +:+ ":" +:+ substring 0 500 c1)))
    /\ (forall c2,
          Json.dict_get "content" m2 = Some (JStr c2) ->
          substring 0 500 c2 = substring 0 500 c1 ->
          get_conversation_key u2 (JDict m2 :: rest2)
          = get_conversation_key u1 (JDict m1 :: rest1))
    /\ (forall l parts,
          Json.dict_get "content" m2 = Some (JList l) ->
          py_join EmptyString (text_parts l) = Return parts ->
          substring 0 500 (join EmptyString parts) = substring 0 500 c1 ->
          get_conversation_key u2 (JDict m2 :: rest2)
          = get_conversation_key u1 (JDict m1 :: rest1)).
Proof.
  intros u1 u2 m1 m2 rest1 rest2 c1 Hc1 Hrole role.
  assert (H1 : get_conversation_key u1 (JDict m1 :: rest1)
               = Return (md5_hexdigest
                           (utf8_encode (format_value role +:+ ":" +:+ substring 0 500 c1)))).
  { unfold SessionCalls.get_conversation_key. rewrite Hc1. reflexivity. }
  split; [exact H1|]. split.
  - intros c2 Hc2 Hsub. rewrite H1.
    unfold SessionCalls.get_conversation_key. rewrite Hc2, Hrole, Hsub. reflexivity.
  - intros l parts Hl Hparts Hsub. rewrite H1.
    unfold SessionCalls.get_conversation_key. rewrite Hl, Hparts, Hrole, Hsub. reflexivity.
Qed.

End ConversationKeyFacts.

Lemma conversation_key_stable_witness :
  SessionCalls.get_conversation_key (fun _ => "digest") (fun _ => "?") TypeError "0123456789ab"
    [JDict [("role", JStr "user");
            ("content", JList [JDict [("type", JStr "text"); ("text", JStr "Hel")];
                               JDict [("type", JStr "image_url")];
                               JDict [("type", JStr "text"); ("text", JStr "lo")]])]]
  = SessionCalls.get_conversation_key (fun _ => "digest") (fun _ => "?") TypeError "ffffffffffff"
      [JDict [("role", JStr "user"); ("content", JStr "Hello"); ("name", JNull)];
       JDict [("role", JStr "assistant"); ("content", JStr "Hi")]].
Proof.
  destruct (conversation_key_stable (fun _ => "digest") (fun _ => "?") TypeError
              "ffffffffffff" "0123456789ab"
              [("role", JStr "user"); ("content", JStr "Hello"); ("name", JNull)]
              [("role", JStr "user");
               ("content", JList [JDict [("type", JStr "text"); ("text", JStr "Hel")];
                                  JDict [("type", JStr "image_url")];
                                  JDict [("type", JStr "text"); ("text", JStr "lo")]])]
              [JDict [("role", JStr "assistant"); ("content", JStr "Hi")]] []
              "Hello" eq_refl eq_refl) as (_ & _ & H).
  apply (H [JDict [("type", JStr "text"); ("text", JStr "Hel")];
            JDict [("type", JStr "image_url")];
            JDict [("type", JStr "text"); ("text", JStr "lo")]] ["Hel"; "lo"]); reflexivity.
Defined.

(** ** Request helpers *)

Lemma prefix_append (p s : string) : String.prefix p (p +:+ s) = true.
Proof.
  induction p as [|c p IH]; [destruct s; reflexivity|].
  rewrite append_cons. cbn [String.prefix].
  destruct (ascii_dec c c) as [_|Hne]; [exact IH | contradiction].
Qed.

Lemma prefix_drop (p s : string) :
  String.prefix p s = true -> s = p +:+ JSONStreamParser.drop (String.length p) s.
Proof.
  revert s. induction p as [|c p IH]; intros s H; [reflexivity|].
  destruct s as [|x s]; [discriminate H|]. cbn [String.prefix] in H.
  destruct (ascii_dec c x) as [->|]; [|discriminate H].
  rewrite append_cons. cbn [String.length JSONStreamParser.drop]. f_equal. apply IH, H.
Qed.

Lemma contains_char_append (c : ascii) (a b : string) :
  contains_char c (a +:+ b) = contains_char c a || contains_char c b.
Proof.
  induction a as [|x a IH]; [reflexivity|].
  rewrite append_cons. cbn [contains_char]. rewrite IH, orb_assoc. reflexivity.
Qed.

Lemma split_once_append (c : ascii) (a b : string) :
  contains_char c a = false -> split_once c (a +:+ String c b) = Some (a, b).
Proof.
  induction a as [|x a IH]; intros H.
  - rewrite append_nil_l. cbn. rewrite Ascii.eqb_refl. reflexivity.
  - cbn [contains_char] in H. apply orb_false_elim in H as [Hx Ha].
    rewrite append_cons. cbn [split_once]. rewrite Hx, (IH Ha). reflexivity.
Qed.

Lemma split_once_none (c : ascii) (s : string) :
  contains_char c s = false -> split_once c s = None.
Proof.
  induction s as [|x s IH]; intros H; [reflexivity|].
  cbn [contains_char] in H. apply orb_false_elim in H as [Hx Hs].
  cbn [split_once]. rewrite Hx, (IH Hs). reflexivity.
Qed.

Lemma split_on_head (c : ascii) (a b : string) :
  contains_char c a = false -> split_on c (a +:+ String c b) = a :: split_on c b.
Proof.
  induction a as [|x a IH]; intros H.
  - rewrite append_nil_l. cbn. rewrite Ascii.eqb_refl. reflexivity.
  - cbn [contains_char] in H. apply orb_false_elim in H as [Hx Ha].
    rewrite append_cons. cbn [split_on]. rewrite Hx, (IH Ha). reflexivity.
Qed.

Section DataUrlFacts.

Import ChatHandler.

(** X21: [_parse_data_url] reads the usual form of a data URL: from
    [data:<mime>;<parameters>,<data>] it returns the MIME type and the
    data (when the MIME type has no [;] or [,] and the parameters no [,]).
    The MIME type is only looked for before a [;]: from [data:<mime>,<data>]
    it returns the data with the type [application/octet-stream].  A text
    that does not start with [data:], or that has no comma, is returned
    whole with that type. *)
Theorem parse_data_url_forms :
  forall (mime params payload : string),
    contains_char ";" mime = false ->
    contains_char "," mime = false ->
    contains_char "," params = false ->
    _parse_data_url ("data:" +:+ mime +:+ ";" +:+ params +:+ "," +:+ payload)
    = (mime, payload)
    /\ _parse_data_url ("data:" +:+ mime +:+ "," +:+ payload) = (octet_stream, payload)
    /\ (forall url, String.prefix "data:" url = false ->
                    _parse_data_url url = (octet_stream, url))
    /\ (forall url, contains_char "," url = false ->
                    _parse_data_url url = (octet_stream, url)).
Proof.
  intros mime params payload Hsemi Hcomma Hparams.
  split; [|split; [|split]].
  - unfold _parse_data_url. rewrite prefix_append. cbn [negb].
    replace ("data:" +:+ mime +:+ ";" +:+ params +:+ "," +:+ payload)
      with (("data:" +:+ mime +:+ ";" +:+ params) +:+ String "," payload)
      by (rewrite !append_assoc; reflexivity).
    rewrite split_once_append.
    2:{ rewrite !contains_char_append, Hcomma, Hparams. reflexivity. }
    replace ("data:" +:+ mime +:+ ";" +:+ params)
      with (("data:" +:+ mime) +:+ String ";" params)
      by (rewrite !append_assoc; reflexivity).
    rewrite contains_char_append. cbn [contains_char Ascii.eqb]. 
    rewrite orb_true_r.
    rewrite split_on_head.
    2:{ rewrite contains_char_append, Hsemi. reflexivity. }
    rewrite prefix_append.
    change 5%nat with (String.length "data:"). rewrite drop_append. reflexivity.
  - unfold _parse_data_url. rewrite prefix_append. cbn [negb].
    replace ("data:" +:+ mime +:+ "," +:+ payload)
      with (("data:" +:+ mime) +:+ String "," payload)
      by (rewrite !append_assoc; reflexivity).
    rewrite split_once_append.
    2:{ rewrite contains_char_append, Hcomma. reflexivity. }
    rewrite contains_char_append, Hsemi. reflexivity.
  - intros url H. unfold _parse_data_url. rewrite H. reflexivity.
  - intros url H. unfold _parse_data_url.
    destruct (negb (String.prefix "data:" url)); [reflexivity|].
    rewrite (split_once_none _ _ H). reflexivity.
Qed.

Lemma parse_data_url_forms_witness :
  _parse_data_url "data:image/png;base64,iVBORw0" = ("image/png", "iVBORw0")
  /\ _parse_data_url "data:image/png,iVBORw0" = (octet_stream, "iVBORw0").
Proof.
  destruct (parse_data_url_forms "image/png" "base64" "iVBORw0" eq_refl eq_refl eq_refl)
    as (H1 & H2 & _).
  split; [exact H1 | exact H2].
Defined.

End DataUrlFacts.

Section ApiKeyFacts.

Import OpenAICompat.

(** X22: [verify_api_key] accepts every credential that is not empty and
    nothing else: the token it returns is never empty and is the header
    itself or the header without its ["Bearer "] prefix; a missing
    header, an empty one and a bare ["Bearer "] are refused with status
    401; and ["Bearer " + token] is accepted for every token that is not
    empty. *)
Theorem verify_api_key_accepts :
  forall (authorization : option string),
    match verify_api_key authorization with
    | inr token =>
        token <> EmptyString
        /\ exists a, authorization = Some a
                     /\ (a = "Bearer " +:+ token
                         \/ (a = token /\ String.prefix "Bearer " a = false))
    | inl (HTTPException code _) =>
        code = 401
        /\ (authorization = None \/ authorization = Some EmptyString
            \/ authorization = Some "Bearer ")
    end
    /\ (forall token, token <> EmptyString ->
                      verify_api_key (Some ("Bearer " +:+ token)) = inr token).
Proof.
  intros authorization. split.
  - unfold verify_api_key. destruct authorization as [a|]; [|split; [reflexivity | left; reflexivity]].
    destruct (bool_decide_reflect (a = EmptyString)) as [->|Ha].
    { split; [reflexivity | right; left; reflexivity]. }
    destruct (String.prefix "Bearer " a) eqn:Hp.
    + pose proof (prefix_drop _ _ Hp) as Hsplit.
      change (String.length "Bearer ") with 7%nat in Hsplit.
      destruct (bool_decide_reflect (JSONStreamParser.drop 7 a = EmptyString)) as [He|He].
      * split; [reflexivity|]. right; right. rewrite Hsplit, He. reflexivity.
      * split; [exact He|]. exists a. split; [reflexivity | left; exact Hsplit].
    + destruct (bool_decide_reflect (a = EmptyString)) as [He|He]; [contradiction|].
      split; [exact He|]. exists a. split; [reflexivity | right; split; [reflexivity | exact Hp]].
  - intros token Htoken. unfold verify_api_key.
    rewrite bool_decide_eq_false_2 by discriminate.
    rewrite prefix_append.
    change 7%nat with (String.length "Bearer "). rewrite drop_append.
    rewrite bool_decide_eq_false_2 by exact Htoken. reflexivity.
Qed.

Lemma verify_api_key_accepts_witness :
  verify_api_key (Some "Bearer sk-1") = inr "sk-1".
Proof.
  destruct (verify_api_key_accepts None) as [_ H].
  apply H. discriminate.
Defined.

End ApiKeyFacts.

Section ModelFacts.

Import ModelConfig.

Lemma mapping_get_value (key : string) (m : list (string * option string)) (v : option string) :
  mapping_get key m = Some v -> v ∈ map snd m.
Proof.
  induction m as [|[k w] m IH]; cbn; [discriminate|].
  destruct (String.eqb k key).
  - intros [= ->]. left.
  - intros H. right. apply IH, H.
Qed.

(** The four model ids the upstream knows. *)
Lemma mapping_values_fixed :
  Forall (fun v => match v with
                   | Some id => get_model_id id = Some id
                   | None => True
                   end) (map snd MODEL_MAPPING).
Proof. repeat constructor. Qed.

(** X23: Model routing.  A name outside the mapping is passed upstream as it
    is, and [get_model_id] applied to one of its own results gives that
    result again.  Every supported model is ["gemini-auto"], which has no
    model id, or the id it routes to followed by nothing, [-image],
    [-video] or [-search]; and [_build_tools_spec] gives it the tool of
    its suffix alone, or all the tools when it has no suffix. *)
Theorem model_routing :
  (forall name, mapping_get name MODEL_MAPPING = None -> get_model_id name = Some name)
  /\ (forall name id, get_model_id name = Some id -> get_model_id id = Some id)
  /\ Forall
       (fun name =>
          match get_model_id name with
          | None => name = "gemini-auto"
          | Some id =>
              (name = id /\ map fst (_build_tools_spec name)
                            = ["webGroundingSpec"; "toolRegistry";
                               "imageGenerationSpec"; "videoGenerationSpec"])
              \/ (name = id +:+ "-image"
                  /\ map fst (_build_tools_spec name) = ["imageGenerationSpec"])
              \/ (name = id +:+ "-video"
                  /\ map fst (_build_tools_spec name) = ["videoGenerationSpec"])
              \/ (name = id +:+ "-search"
                  /\ map fst (_build_tools_spec name) = ["webGroundingSpec"])
          end)
       SUPPORTED_MODELS.
Proof.
  split; [|split].
  - intros name H. unfold get_model_id. rewrite H. reflexivity.
  - intros name id H. unfold get_model_id in H.
    destruct (mapping_get name MODEL_MAPPING) as [v|] eqn:E.
    + subst v. apply mapping_get_value in E.
      pose proof mapping_values_fixed as Hall.
      rewrite Forall_forall in Hall. apply (Hall _ E).
    + inversion H; subst. unfold get_model_id. rewrite E. reflexivity.
  - repeat (apply Forall_cons; split;
            [vm_compute; first [reflexivity
                               | left; split; reflexivity
                               | right; left; split; reflexivity
                               | right; right; left; split; reflexivity
                               | right; right; right; split; reflexivity]|]).
    apply Forall_nil. exact I.
Qed.

Lemma model_routing_witness :
  get_model_id "my-own-model" = Some "my-own-model".
Proof.
  destruct model_routing as (H & _).
  apply H. reflexivity.
Defined.

End ModelFacts.

(** ** The prompt *)

Section PromptFacts.

Import ChatHandler.

Variable py_str : json -> string.

#[local] Abbreviation build_loop := (build_loop py_str).
#[local] Abbreviation _build_prompt := (_build_prompt py_str).

Lemma build_loop_app (a b : list json) :
  forall parts sp,
    build_loop (a ++ b)%list parts sp
    = match build_loop a parts sp with
      | Return (p, s) => build_loop b p s
      | Raise e => Raise e
      end.
Proof.
  induction a as [|msg a IH]; intros parts sp; [reflexivity|].
  cbn [app ChatHandler.build_loop].
  destruct (py_get msg "role" (JStr "user")) as [role|e]; [|reflexivity].
  destruct (message_content msg) as [c|e]; [|reflexivity].
  destruct (is_str "system" role); [apply IH|].
  destruct (is_str "user" role); [apply IH|].
  destruct (is_str "assistant" role); apply IH.
Qed.

(** What a run of the loop adds does not depend on what was there: it
    raises whatever the state, or appends the same lines and sets, or
    leaves, the system prompt. *)
Lemma build_loop_shape (msgs : list json) :
  (exists e, forall parts sp, build_loop msgs parts sp = Raise e)
  \/ (exists (P : list string) (S : option json),
        forall parts sp,
          build_loop msgs parts sp
          = Return ((parts ++ P)%list, match S with Some s => s | None => sp end)).
Proof.
  induction msgs as [|msg msgs IH].
  - right. exists [], None. intros parts sp. cbn. rewrite app_nil_r. reflexivity.
  - cbn [ChatHandler.build_loop].
    destruct (py_get msg "role" (JStr "user")) as [role|e];
      [|left; exists e; reflexivity].
    destruct (message_content msg) as [c|e]; [|left; exists e; reflexivity].
    destruct IH as [[e He] | (P & S & HP)].
    + left. exists e. intros parts sp.
      destruct (is_str "system" role); [apply He|].
      destruct (is_str "user" role); [apply He|].
      destruct (is_str "assistant" role); apply He.
    + right. destruct (is_str "system" role).
      * exists P, (Some (match S with Some s => s | None => c end)).
        intros parts sp. rewrite HP. reflexivity.
      * destruct (is_str "user" role).
        -- exists (("Human: " +:+ SessionCalls.format_value py_str c) :: P), S.
           intros parts sp. rewrite HP, <- List.app_assoc. reflexivity.
        -- destruct (is_str "assistant" role).
           ++ exists (("Assistant: " +:+ SessionCalls.format_value py_str c) :: P), S.
              intros parts sp. rewrite HP, <- List.app_assoc. reflexivity.
           ++ exists P, S. exact HP.
Qed.

(** X24: What [_build_prompt] keeps of a conversation.  The prompt of a
    conversation always ends with the cue ["\n\nAssistant:"], and the
    empty conversation gives the cue alone.  Of several system messages
    only the last one counts: an earlier one can be removed without
    changing the prompt.  A message whose role is none of [system],
    [user] and [assistant] can be removed as well.  (The message removed
    must be one the loop gets through: a dict whose content is not a list
    with a part that cannot be joined.) *)
Theorem build_prompt_keeps :
  _build_prompt [] = Return (nl +:+ nl +:+ "Assistant:")
  /\ (forall msgs r,
        _build_prompt msgs = Return r ->
        exists body, r = body +:+ nl +:+ nl +:+ "Assistant:")
  /\ (forall msgs1 msgs2 msgs3 sys1 sys2 c1 c2,
        py_get sys1 "role" (JStr "user") = Return (JStr "system") ->
        message_content sys1 = Return c1 ->
        py_get sys2 "role" (JStr "user") = Return (JStr "system") ->
        message_content sys2 = Return c2 ->
        _build_prompt (msgs1 ++ sys1 :: msgs2 ++ sys2 :: msgs3)%list
        = _build_prompt (msgs1 ++ msgs2 ++ sys2 :: msgs3)%list)
  /\ (forall msgs1 msgs2 msg role c,
        py_get msg "role" (JStr "user") = Return role ->
        is_str "system" role = false ->
        is_str "user" role = false ->
        is_str "assistant" role = false ->
        message_content msg = Return c ->
        _build_prompt (msgs1 ++ msg :: msgs2)%list = _build_prompt (msgs1 ++ msgs2)%list).
Proof.
  split; [reflexivity|]. split; [|split].
  - intros msgs r. unfold ChatHandler._build_prompt.
    destruct (build_loop msgs [] (JStr EmptyString)) as [[parts sp]|e]; [|discriminate].
    intros [= <-]. eexists. reflexivity.
  - intros msgs1 msgs2 msgs3 sys1 sys2 c1 c2 Hr1 Hc1 Hr2 Hc2.
    unfold ChatHandler._build_prompt. f_equal.
    rewrite !build_loop_app.
    destruct (build_loop msgs1 [] (JStr EmptyString)) as [[p1 s1]|e]; [|reflexivity].
    cbn [ChatHandler.build_loop]. rewrite Hr1, Hc1. cbn [is_str String.eqb].
    change (String.eqb "system" "system") with true. cbv iota.
    rewrite !build_loop_app.
    destruct (build_loop_shape msgs2) as [[e He] | (P & S & HP)].
    + rewrite !He. reflexivity.
    + rewrite !HP. cbn [ChatHandler.build_loop]. rewrite Hr2, Hc2.
      cbn [is_str]. change (String.eqb "system" "system") with true. reflexivity.
  - intros msgs1 msgs2 msg role c Hr Hs Hu Ha Hc.
    unfold ChatHandler._build_prompt. f_equal.
    rewrite !build_loop_app.
    destruct (build_loop msgs1 [] (JStr EmptyString)) as [[p1 s1]|e]; [|reflexivity].
    cbn [ChatHandler.build_loop]. rewrite Hr, Hc, Hs, Hu, Ha. reflexivity.
Qed.

End PromptFacts.

Lemma build_prompt_keeps_witness :
  ChatHandler._build_prompt (fun _ => "?")
    [JDict [("role", JStr "system"); ("content", JStr "Be brief.")];
     JDict [("role", JStr "tool"); ("content", JStr "42")];
     JDict [("role", JStr "system"); ("content", JStr "Be kind.")];
     JDict [("role", JStr "user"); ("content", JStr "Hello")]]
  = Return ("<system>" +:+ nl +:+ "Be kind." +:+ nl +:+ "</system>" +:+ nl +:+ nl
            +:+ "Human: Hello" +:+ nl +:+ nl +:+ "Assistant:").
Proof.
  destruct (build_prompt_keeps (fun _ => "?")) as (_ & _ & Hsys & Hother).
  eapply eq_trans; [exact (Hsys []
             [JDict [("role", JStr "tool"); ("content", JStr "42")]]
             [JDict [("role", JStr "user"); ("content", JStr "Hello")]]
             (JDict [("role", JStr "system"); ("content", JStr "Be brief.")])
             (JDict [("role", JStr "system"); ("content", JStr "Be kind.")])
             (JStr "Be brief.") (JStr "Be kind.") eq_refl eq_refl eq_refl eq_refl)|].
  eapply eq_trans; [exact (Hother []
             [JDict [("role", JStr "system"); ("content", JStr "Be kind.")];
              JDict [("role", JStr "user"); ("content", JStr "Hello")]]
             (JDict [("role", JStr "tool"); ("content", JStr "42")])
             (JStr "tool") (JStr "42") eq_refl eq_refl eq_refl eq_refl eq_refl)|].
  vm_compute. reflexivity.
Defined.

(** ** Lines of a streamed answer *)

Section StreamLineFacts.

Import Stream.

Variable json_loads : string -> outcome json.
Variable chat_id : string.
Variable created : Z.
Variable model : string.

#[local] Abbreviation handle_line := (handle_line json_loads chat_id created model).
#[local] Abbreviation handle_lines := (handle_lines json_loads chat_id created model).
#[local] Abbreviation lines_loop := (lines_loop json_loads chat_id created model).
#[local] Abbreviation stream_loop := (stream_loop json_loads chat_id created model).

Lemma split_once_lines (s : string) :
  match split_once "010" s with
  | None => complete_lines s = ([], s)
  | Some (l, rest) =>
      complete_lines s = (l :: (complete_lines rest).1, (complete_lines rest).2)
      /\ (String.length rest < String.length s)%nat
  end.
Proof.
  induction s as [|c s IH]; [reflexivity|].
  cbn [split_once complete_lines String.length].
  destruct (Ascii.eqb c "010") eqn:Hc.
  - destruct (complete_lines s) as [ls tail]. split; [reflexivity | lia].
  - destruct (split_once "010" s) as [[l rest]|].
    + destruct IH as [-> Hlen]. split; [reflexivity | lia].
    + rewrite IH. reflexivity.
Qed.

Lemma lines_loop_spec (fuel : nat) :
  forall buffer,
    (String.length buffer < fuel)%nat ->
    lines_loop fuel buffer
    = finish (handle_lines (complete_lines buffer).1) (complete_lines buffer).2.
Proof.
  induction fuel as [|fuel IH]; intros buffer Hlen; [lia|].
  cbn [Stream.lines_loop].
  pose proof (split_once_lines buffer) as Hs.
  destruct (split_once "010" buffer) as [[l rest]|].
  - destruct Hs as [-> Hrest]. cbn [fst snd Stream.handle_lines].
    destruct (handle_line l) as [ys|e]; [|reflexivity].
    rewrite IH by lia. unfold finish.
    destruct (handle_lines (complete_lines rest).1) as [ys' r]. reflexivity.
  - rewrite Hs. reflexivity.
Qed.

Lemma complete_lines_append (a b : string) :
  complete_lines (a +:+ b)
  = (((complete_lines a).1 ++ (complete_lines ((complete_lines a).2 +:+ b)).1)%list,
     (complete_lines ((complete_lines a).2 +:+ b)).2).
Proof.
  induction a as [|c a IH].
  - rewrite append_nil_l. cbn [complete_lines fst snd app]. rewrite append_nil_l.
    destruct (complete_lines b); reflexivity.
  - rewrite append_cons. cbn [complete_lines]. rewrite IH.
    destruct (complete_lines a) as [la ta]. cbn [fst snd].
    destruct (Ascii.eqb c "010") eqn:Hc; [reflexivity|].
    destruct la as [|l0 la]; [|reflexivity].
    cbn [app fst snd]. rewrite append_cons. cbn [complete_lines]. rewrite Hc.
    destruct (complete_lines (ta +:+ b)) as [l2 t2].
    destruct l2; reflexivity.
Qed.

Lemma complete_lines_tail (s : string) :
  complete_lines (complete_lines s).2 = ([], (complete_lines s).2).
Proof.
  induction s as [|c s IH]; [reflexivity|].
  cbn [complete_lines]. destruct (complete_lines s) as [ls tail]. cbn [snd] in IH.
  destruct (Ascii.eqb c "010") eqn:Hc; [exact IH|].
  destruct ls as [|l ls]; [|exact IH].
  cbn [snd complete_lines]. rewrite IH, Hc. reflexivity.
Qed.

Lemma handle_lines_app (l1 l2 : list string) :
  handle_lines (l1 ++ l2)%list
  = match handle_lines l1 with
    | (ys, Some e) => (ys, Some e)
    | (ys, None) => ((ys ++ (handle_lines l2).1)%list, (handle_lines l2).2)
    end.
Proof.
  induction l1 as [|l l1 IH]; cbn [app Stream.handle_lines].
  - destruct (handle_lines l2); reflexivity.
  - destruct (handle_line l) as [ys|e]; [|reflexivity].
    rewrite IH. destruct (handle_lines l1) as [ys1 [e|]]; [reflexivity|].
    destruct (handle_lines l2) as [ys2 r2]. cbn [fst snd].
    rewrite List.app_assoc. reflexivity.
Qed.

Lemma stream_loop_spec (chunks : list string) :
  forall buffer,
    complete_lines buffer = ([], buffer) ->
    stream_loop chunks buffer
    = finish (handle_lines (complete_lines (buffer +:+ JSONStreamParser.whole chunks)).1)
        (complete_lines (buffer +:+ JSONStreamParser.whole chunks)).2.
Proof.
  induction chunks as [|chunk chunks IH]; intros buffer Hb.
  - cbn [Stream.stream_loop JSONStreamParser.whole]. rewrite append_nil_r, Hb. reflexivity.
  - cbn [Stream.stream_loop JSONStreamParser.whole].
    rewrite lines_loop_spec by lia.
    rewrite <- append_assoc.
    rewrite (complete_lines_append (buffer +:+ chunk) (JSONStreamParser.whole chunks)).
    cbn [fst snd]. rewrite handle_lines_app.
    unfold finish at 1.
    destruct (handle_lines (complete_lines (buffer +:+ chunk)).1) as [ys [e|]];
      cbn [fst snd]; [reflexivity|].
    rewrite IH by apply complete_lines_tail.
    unfold finish.
    destruct (handle_lines _) as [ys' r']. reflexivity.
Qed.

Lemma complete_lines_no_feed (s : string) :
  contains_char "010" s = false -> complete_lines s = ([], s).
Proof.
  induction s as [|c s IH]; [reflexivity|].
  cbn [contains_char complete_lines]. intros H.
  apply orb_false_elim in H as [Hc Hs]. rewrite (IH Hs), Hc. reflexivity.
Qed.

(** X25: The streaming loop of [_stream_chat] does not depend on how the body
    of the answer is cut into chunks: fed the chunks one at a time, it
    yields the chunks (and raises, if it does) that it would for the body
    in one piece, namely those of the lines of the body that end with a
    line feed, in order, up to the first line that raises.  What follows
    the last line feed stays in the buffer and is never handled: a body
    without a line feed yields nothing, whatever it holds. *)
Theorem stream_loop_chunking :
  forall (chunks : list string),
    stream_loop chunks EmptyString
    = stream_loop [JSONStreamParser.whole chunks] EmptyString
    /\ stream_loop chunks EmptyString
       = finish (handle_lines (complete_lines (JSONStreamParser.whole chunks)).1)
           (complete_lines (JSONStreamParser.whole chunks)).2
    /\ (contains_char "010" (JSONStreamParser.whole chunks) = false ->
        stream_loop chunks EmptyString
        = ([], Return (JSONStreamParser.whole chunks))).
Proof.
  intros chunks.
  assert (H : stream_loop chunks EmptyString
              = finish (handle_lines (complete_lines (JSONStreamParser.whole chunks)).1)
                  (complete_lines (JSONStreamParser.whole chunks)).2).
  { rewrite stream_loop_spec by reflexivity. rewrite append_nil_l. reflexivity. }
  split; [|split; [exact H|]].
  - rewrite H. rewrite stream_loop_spec by reflexivity.
    cbn [JSONStreamParser.whole]. rewrite append_nil_l, append_nil_r. reflexivity.
  - intros Hno. rewrite H, (complete_lines_no_feed _ Hno). reflexivity.
Qed.

End StreamLineFacts.

Lemma stream_loop_chunking_witness :
  Stream.stream_loop Sample.json_loads "chatcmpl-1" 1000 "gemini-auto"
    ["{a"; "b}"] EmptyString
  = ([], Return "{ab}").
Proof.
  destruct (stream_loop_chunking Sample.json_loads "chatcmpl-1" 1000 "gemini-auto"
              ["{a"; "b}"]) as (_ & _ & H).
  apply H. reflexivity.
Defined.

(** ** Text and reasoning of an answer *)

Section ExtractFacts.

Import Extract.

Lemma reply_step_text (t : string) (b : bool) (t0 r0 : string) (images : list ChatImage) :
  reply_step (text_reply (t, b)) (t0, r0, images)
  = Return (if b then t0
            else if Json.truthy (JStr t) then
                   if negb (contains banner t) then t0 +:+ t else t0
                 else t0,
            if b then r0 +:+ t else r0,
            images).
Proof.
  destruct b.
  - reflexivity.
  - unfold reply_step, text_reply. cbn [fst snd].
    change (collect_generated _ images) with (Return (A := list ChatImage) images).
    cbn [obind].
    change (py_get (JDict _) "groundedContent" (JDict []))
      with (Return (JDict [("content", JDict [("text", JStr t); ("thought", JBool false)])])).
    cbn [obind].
    change (py_get (JDict [("content", _)]) "content" (JDict []))
      with (Return (JDict [("text", JStr t); ("thought", JBool false)])).
    cbn [obind].
    change (py_get (JDict [("text", JStr t); ("thought", JBool false)]) "thought" (JBool false))
      with (Return (JBool false)).
    change (py_get (JDict [("text", JStr t); ("thought", JBool false)]) "text" (JStr EmptyString))
      with (Return (JStr t)).
    change (py_get (JDict [("text", JStr t); ("thought", JBool false)]) "inlineData" (JDict []))
      with (Return (JDict [])).
    change (py_get (JDict [("text", JStr t); ("thought", JBool false)]) "file" (JDict []))
      with (Return (JDict [])).
    cbn [obind Json.truthy py_not_in str_add].
    destruct (negb (bool_decide (t = EmptyString))); [|reflexivity].
    cbn [obind]. destruct (negb (contains banner t)); reflexivity.
Qed.

Lemma replies_loop_text (rs : list (string * bool)) :
  forall (t0 r0 : string) (images : list ChatImage),
    replies_loop (map text_reply rs) (t0, r0, images)
    = Return (t0 +:+ answer_text rs, r0 +:+ answer_reasoning rs, images).
Proof.
  induction rs as [|[t b] rs IH]; intros t0 r0 images.
  - cbn. rewrite !append_nil_r. reflexivity.
  - cbn [map replies_loop]. rewrite reply_step_text. cbn [obind].
    rewrite IH. cbn [answer_text answer_reasoning].
    destruct b; cbn [negb andb].
    + rewrite append_assoc. reflexivity.
    + cbn [Json.truthy].
      destruct (bool_decide_reflect (t = EmptyString)) as [->|Ht]; cbn [negb].
      * destruct (negb (contains banner EmptyString)); rewrite ?append_nil_l; reflexivity.
      * destruct (negb (contains banner t)); [rewrite append_assoc|]; reflexivity.
Qed.

(** X26: What [_extract_content] makes of an answer whose replies carry a text
    each, marked as a thought or not: the text is the texts of the replies
    that are not thoughts put end to end, those that contain the banner
    "Image generated by Nano Banana Pro" left out; the reasoning is the
    texts of the thoughts; there are no images.  The same holds when the
    answer comes without its [streamAssistResponse] wrapper. *)
Theorem extract_content_text :
  forall (rs : list (string * bool)),
    _extract_content (answer_of (map text_reply rs))
    = Return (answer_text rs, answer_reasoning rs, [])
    /\ _extract_content (JDict [("answer", JDict [("replies", JList (map text_reply rs))])])
       = Return (answer_text rs, answer_reasoning rs, []).
Proof.
  intros rs. split.
  - unfold _extract_content, answer_of.
    change (py_get (JDict [("streamAssistResponse", ?x)]) "streamAssistResponse" _)
      with (Return x).
    cbn [obind].
    change (collect_generated (JDict [("answer", ?x)]) []) with (Return (A := list ChatImage) []).
    cbn [obind].
    change (py_get (JDict [("answer", ?x)]) "answer" (JDict [])) with (Return x).
    cbn [obind].
    change (collect_generated (JDict [("replies", ?x)]) []) with (Return (A := list ChatImage) []).
    cbn [obind].
    change (py_get (JDict [("replies", ?x)]) "replies" (JList [])) with (Return x).
    cbn [obind py_iter].
    rewrite replies_loop_text, !append_nil_l. reflexivity.
  - unfold _extract_content.
    change (py_get (JDict [("answer", ?x)]) "streamAssistResponse" ?d) with (Return d).
    cbn [obind].
    change (collect_generated (JDict [("answer", ?x)]) []) with (Return (A := list ChatImage) []).
    cbn [obind].
    change (py_get (JDict [("answer", ?x)]) "answer" (JDict [])) with (Return x).
    cbn [obind].
    change (collect_generated (JDict [("replies", ?x)]) []) with (Return (A := list ChatImage) []).
    cbn [obind].
    change (py_get (JDict [("replies", ?x)]) "replies" (JList [])) with (Return x).
    cbn [obind py_iter].
    rewrite replies_loop_text, !append_nil_l. reflexivity.
Qed.

End ExtractFacts.

(** ** What the parser leaves in its buffer *)

Section BufferFacts.

Import JSONStreamParser.

Variable obj : Type.
Variable raw_decode : string -> option (obj * nat).

Hypothesis raw_decode_progress :
  forall s o idx, raw_decode s = Some (o, idx) -> (0 < idx <= String.length s)%nat.

#[local] Abbreviation run_loop := (run_loop obj raw_decode).
#[local] Abbreviation decode := (decode obj raw_decode).

Lemma drop_suffix (n : nat) (s : string) : exists pre, s = pre +:+ drop n s.
Proof.
  revert s. induction n as [|n IH]; intros s; [exists EmptyString; reflexivity|].
  destruct s as [|c s]; [exists EmptyString; reflexivity|].
  destruct (IH s) as [pre Hpre]. exists (String c pre).
  cbn [drop]. rewrite append_cons, <- Hpre. reflexivity.
Qed.

Lemma run_loop_left (n : nat) :
  forall b,
    (String.length b <= n)%nat ->
    lstrip (run_loop b).2 = (run_loop b).2
    /\ (forall c rest, (run_loop b).2 = String c rest ->
                       is_separator c = false /\ raw_decode (String c rest) = None)
    /\ exists consumed, b = consumed +:+ (run_loop b).2.
Proof.
  induction n as [|n IH]; intros b Hb.
  - destruct b; [|cbn in Hb; lia]. cbn. repeat split; try discriminate.
    exists EmptyString. reflexivity.
  - destruct b as [|c s].
    { cbn. repeat split; try discriminate. exists EmptyString. reflexivity. }
    cbn [String.length] in Hb.
    destruct (is_space c || is_separator c) eqn:Hskip.
    + rewrite (run_loop_skip obj raw_decode raw_decode_progress c s Hskip).
      destruct (IH s ltac:(lia)) as (H1 & H2 & consumed & H3).
      split; [exact H1|]. split; [exact H2|].
      exists (String c consumed). rewrite append_cons, <- H3. reflexivity.
    + apply orb_false_elim in Hskip as [Hs Hc].
      destruct (raw_decode (String c s)) as [[o idx]|] eqn:Hd.
      * rewrite (run_loop_value obj raw_decode raw_decode_progress c s o idx Hs Hc Hd).
        cbn [snd].
        destruct (IH (drop idx (String c s))) as (H1 & H2 & consumed & H3).
        { rewrite drop_length. cbn [String.length].
          apply raw_decode_progress in Hd. lia. }
        split; [exact H1|]. split; [exact H2|].
        destruct (drop_suffix idx (String c s)) as [pre Hpre].
        exists (pre +:+ consumed). rewrite append_assoc, <- H3. exact Hpre.
      * rewrite (run_loop_stuck obj raw_decode c s Hs Hc Hd). cbn [snd].
        split; [apply lstrip_fixed; exact Hs|]. split.
        -- intros c' rest' [= <- <-]. split; assumption.
        -- exists EmptyString. reflexivity.
Qed.

(** X27: After any [decode] the buffer is at rest, provided the decoder only
    ever returns an end index inside the text and past its start: feeding
    the empty chunk returns no object and leaves the buffer as it is; the
    buffer is a suffix of what the parser had (the old buffer followed by
    the chunk), so nothing is made up or reordered; it does not start
    with white space, [[] or [,]; and if it is not empty, it starts with
    a text the decoder could not read yet. *)
Theorem decode_leaves_buffer_at_rest :
  forall (chunk buffer : string),
    decode EmptyString (decode chunk buffer).2 = ([], (decode chunk buffer).2)
    /\ lstrip (decode chunk buffer).2 = (decode chunk buffer).2
    /\ (forall c rest,
          (decode chunk buffer).2 = String c rest ->
          is_separator c = false /\ raw_decode (String c rest) = None)
    /\ exists consumed, buffer +:+ chunk = consumed +:+ (decode chunk buffer).2.
Proof.
  intros chunk buffer.
  change (decode chunk buffer) with (run_loop (buffer +:+ chunk)).
  destruct (run_loop_left (String.length (buffer +:+ chunk)) (buffer +:+ chunk)
              (Nat.le_refl _)) as (H1 & H2 & H3).
  split; [|split; [exact H1 | split; [exact H2 | exact H3]]].
  unfold JSONStreamParser.decode. rewrite append_nil_r.
  apply (run_loop_settled obj raw_decode raw_decode_progress _ _ (Nat.le_refl _)).
Qed.

End BufferFacts.

Lemma decode_leaves_buffer_at_rest_witness :
  JSONStreamParser.decode string JSONStreamParser.braces_decode EmptyString
    (JSONStreamParser.decode string JSONStreamParser.braces_decode "[{a},{b" EmptyString).2
  = ([], "{b").
Proof.
  destruct (decode_leaves_buffer_at_rest string JSONStreamParser.braces_decode
              braces_decode_progress "[{a},{b" EmptyString) as [H _].
  exact H.
Defined.

(** ** The encoding of token parts *)

Lemma encode_unpadded_length (bs : list byte) :
  String.length (Base64.encode_unpadded bs) = ((4 * length bs + 2) / 3)%nat.
Proof.
  induction bs as [| a | a b | a b c rest IH] using list_ind3.
  - reflexivity.
  - reflexivity.
  - reflexivity.
  - cbn [Base64.encode_unpadded String.length length]. rewrite IH.
    replace (4 * S (S (S (length rest))) + 2)%nat with ((4 * length rest + 2) + 4 * 3)%nat by lia.
    rewrite Nat.div_add by lia. lia.
Qed.

Lemma alphabet_string_no_pad (s : string) :
  Base64.is_alphabet_string s = true -> contains_char "=" s = false.
Proof.
  induction s as [|c s IH]; [reflexivity|].
  cbn [Base64.is_alphabet_string contains_char]. intros H.
  apply andb_true_iff in H as [Hc Hs]. rewrite (IH Hs), orb_false_r.
  destruct (Ascii.eqb_spec c "="%char) as [->|]; [|reflexivity].
  vm_compute in Hc. discriminate Hc.
Qed.

(** X28: [urlsafe_b64encode] loses nothing and adds nothing: its output decodes
    back to the bytes, so two byte strings with the same encoding are equal;
    it is made of the 64 URL-safe characters only, without [=]; and it has
    [ceil(4 n / 3)] characters for [n] bytes. *)
Theorem urlsafe_b64encode_faithful :
  forall (data : list byte),
    Base64.decode_unpadded (urlsafe_b64encode data) = Some data
    /\ (forall data', urlsafe_b64encode data' = urlsafe_b64encode data -> data' = data)
    /\ Base64.is_alphabet_string (urlsafe_b64encode data) = true
    /\ contains_char "=" (urlsafe_b64encode data) = false
    /\ String.length (urlsafe_b64encode data) = ((4 * length data + 2) / 3)%nat.
Proof.
  intros data. split; [apply urlsafe_b64encode_decode|]. split.
  - intros data' H.
    pose proof (urlsafe_b64encode_decode data') as H'. rewrite H in H'.
    rewrite urlsafe_b64encode_decode in H'. congruence.
  - split; [apply urlsafe_b64encode_alphabet|]. split.
    + apply alphabet_string_no_pad, urlsafe_b64encode_alphabet.
    + rewrite urlsafe_b64encode_unpadded. apply encode_unpadded_length.
Qed.

Lemma urlsafe_b64encode_faithful_witness :
  Base64.decode_unpadded (urlsafe_b64encode ["k"%byte; "e"%byte; "y"%byte; "s"%byte])
  = Some ["k"%byte; "e"%byte; "y"%byte; "s"%byte].
Proof.
  destruct (urlsafe_b64encode_faithful ["k"%byte; "e"%byte; "y"%byte; "s"%byte]) as [H _].
  exact H.
Defined.

(** ** The public view of an account *)

Section ViewFacts.

Import AccountView.

Variable clock : nat -> Z.
Variable isoformat : Z -> string.

#[local] Abbreviation to_dict := (to_dict clock isoformat).

Lemma substring_prefix (n : nat) (s x : string) :
  String.length s = n -> substring 0 n (s +:+ x) = s.
Proof.
  revert s. induction n as [|n IH]; intros s H.
  - destruct s; [|discriminate H]. rewrite append_nil_l. destruct x; reflexivity.
  - destruct s as [|c s]; [discriminate H|]. cbn [String.length] in H.
    rewrite append_cons. cbn [substring]. rewrite IH by lia. reflexivity.
Qed.

Lemma substring_length_le (n : nat) (s : string) :
  (String.length (substring 0 n s) <= n)%nat.
Proof.
  revert s. induction n as [|n IH]; intros s.
  - destruct s; cbn; lia.
  - destruct s as [|c s]; cbn; [lia|]. specialize (IH s). lia.
Qed.

(** X29: [to_dict] shows at most the first 20 characters of the two cookies:
    the values under [secure_c_ses] and [host_c_oses] have at most 23
    characters, and two accounts that differ only in what follows the
    first 20 characters of these cookies have the same dict. *)
Theorem to_dict_masks_cookies :
  forall (a : Account.t) (k : nat),
    (exists m, Json.dict_get "secure_c_ses" (to_dict a k).1 = Some (JStr m)
               /\ (String.length m <= 23)%nat)
    /\ (exists m, Json.dict_get "host_c_oses" (to_dict a k).1 = Some (JStr m)
                  /\ (String.length m <= 23)%nat)
    /\ (forall shown rest rest' : string,
          String.length shown = 20%nat ->
          to_dict (with_secure_c_ses (shown +:+ rest) a) k
          = to_dict (with_secure_c_ses (shown +:+ rest') a) k
          /\ to_dict (with_host_c_oses (Some (shown +:+ rest)) a) k
             = to_dict (with_host_c_oses (Some (shown +:+ rest')) a) k).
Proof.
  intros a k.
  assert (Hlen : forall v, (String.length (masked v) <= 23)%nat).
  { intros v. unfold masked. destruct (bool_decide (v = EmptyString)); [cbn; lia|].
    rewrite length_append. pose proof (substring_length_le 20 v). cbn [String.length]. lia. }
  assert (Hmask : forall shown rest,
             String.length shown = 20%nat -> masked (shown +:+ rest) = shown +:+ "...").
  { intros shown rest H. unfold masked.
    rewrite bool_decide_eq_false_2.
    - rewrite (substring_prefix 20 shown rest H). reflexivity.
    - destruct shown; [discriminate H | rewrite append_cons; discriminate]. }
  split; [|split].
  - eexists. split; [reflexivity | apply Hlen].
  - eexists. split; [reflexivity|].
    destruct (Account.host_c_oses a); [apply Hlen | cbn; lia].
  - intros shown rest rest' H. split.
    + unfold AccountView.to_dict, Account.is_available, Account.get_remaining_cooldown.
      cbn. rewrite !(Hmask shown _ H). reflexivity.
    + unfold AccountView.to_dict, Account.is_available, Account.get_remaining_cooldown.
      cbn. rewrite !(Hmask shown _ H). reflexivity.
Qed.

End ViewFacts.

Lemma to_dict_masks_cookies_witness :
  AccountView.to_dict Sample.clock (fun _ => "date")
    (AccountView.with_secure_c_ses "0123456789abcdefghij-secret-one" Sample.account_A) 0
  = AccountView.to_dict Sample.clock (fun _ => "date")
      (AccountView.with_secure_c_ses "0123456789abcdefghij-another" Sample.account_A) 0.
Proof.
  destruct (to_dict_masks_cookies Sample.clock (fun _ => "date") Sample.account_A 0)
    as (_ & _ & H).
  destruct (H "0123456789abcdefghij" "-secret-one" "-another" eq_refl) as [H1 _].
  exact H1.
Defined.
